(** * Crowd-aware route scoring: population grid, crowd zones, route selection

    A shallow embedding of [src/components/DynamicRoadRouting.jsx]:
    the class [DynamicPopulationGrid], the scoring and waypoint methods of
    [DynamicOSRMRouter], and the two callbacks of the component
    ([handleAddPerson], [calculateRoute]) that drive them.

    Numbers.  A JavaScript Number is an IEEE 754 binary64 value, modelled
    with the Standard Library's executable specification of binary64
    arithmetic ([SpecFloat], round to nearest even, one NaN).

    The grid is embedded twice.  [DynamicPopulationGrid] is the class as it
    is written: counts and populations are numbers, added in binary64.
    [Grid] is the same class read on integer counts, with populations in [Z];
    the two agree as long as the counts are integers whose absolute values
    add up to less than 2^53, which is proved at the end.  Numbers of points
    and routing weights, which the program only counts or takes from the
    literals 1, 2, 5, 10 and 20, are integers [Z]; they enter floating-point
    arithmetic through [of_Z]. *)

From Stdlib Require Import ZArith List Bool Lia SpecFloat Permutation Sorted.
Import ListNotations.
Local Open Scope Z_scope.

(** ** JavaScript numbers *)

Module Number.

Definition prec : Z := 53.
Definition emax : Z := 1024.

Definition number : Type := spec_float.

Definition add : number -> number -> number := SFadd prec emax.
Definition sub : number -> number -> number := SFsub prec emax.
Definition mul : number -> number -> number := SFmul prec emax.
Definition div : number -> number -> number := SFdiv prec emax.
Definition sqrt : number -> number := SFsqrt prec emax.
Definition neg : number -> number := SFopp.

(** [x < y], [x <= y], [x > y] and [x === y] on numbers. *)
Definition ltb : number -> number -> bool := SFltb.
Definition leb : number -> number -> bool := SFleb.
Definition gtb (x y : number) : bool := ltb y x.
Definition eqb : number -> number -> bool := SFeqb.

Definition isNaN (x : number) : bool :=
  match x with S754_nan => true | _ => false end.

Definition is_finite (x : number) : bool :=
  match x with
  | S754_nan | S754_infinity _ => false
  | S754_zero _ | S754_finite _ _ _ => true
  end.

(** ToBoolean on a number: [0], [-0] and [NaN] are falsy. *)
Definition truthy (x : number) : bool :=
  match x with
  | S754_zero _ | S754_nan => false
  | _ => true
  end.

(** [x || y] on numbers. *)
Definition or_else (x y : number) : number := if truthy x then x else y.

(** An integer as a number (the nearest one; exact below 2^53). *)
Definition of_Z (z : Z) : number := binary_normalize prec emax z 0 false.
Definition of_nat (n : nat) : number := of_Z (Z.of_nat n).

(** The decimal literal [n / d] for a power of ten [d]: numerator and
    denominator are exact and the division rounds once, which is how a
    decimal literal with few digits is read. *)
Definition decimal (n d : Z) : number := div (of_Z n) (of_Z d).

Definition zero : number := S754_zero false.

(** [Math.floor].  A finite number with a non-negative exponent is already
    an integer; otherwise the integer part is taken on the mantissa, and a
    result of zero keeps the sign of the argument. *)
Definition floor (x : number) : number :=
  match x with
  | S754_finite s m e =>
      if 0 <=? e then x
      else
        let n := Z.div (cond_Zopp s (Zpos m)) (Z.pow 2 (- e)) in
        if n =? 0 then S754_zero s else of_Z n
  | _ => x
  end.

(** [Math.pow(x, 2)]: the correctly rounded square. *)
Definition square (x : number) : number := mul x x.

(** [Math.max] of two numbers: NaN if either is NaN, and [+0] above [-0]. *)
Definition max (x y : number) : number :=
  match x, y with
  | S754_nan, _ | _, S754_nan => S754_nan
  | S754_zero sx, S754_zero sy => S754_zero (andb sx sy)
  | _, _ => if ltb x y then y else x
  end.

(** What survives of a number through [String(x)] and back through
    [Number(s)]: every value except the sign of zero. *)
Definition through_string (x : number) : number :=
  match x with
  | S754_zero _ => S754_zero false
  | _ => x
  end.

Definition number_eq_dec (x y : number) : {x = y} + {x <> y}.
Proof.
  decide equality; auto using Bool.bool_dec, Pos.eq_dec, Z.eq_dec.
Defined.

Definition same (x y : number) : bool :=
  if number_eq_dec x y then true else false.

End Number.

Import Number.

(** ** The population grid on integer counts

    [class DynamicPopulationGrid] with counts and populations read as
    integers.  This is the grid that the properties of routing are stated on;
    [DynamicPopulationGrid] below is the class as written, on numbers, and
    the two are proved to agree on integer counts below 2^53. *)

Module Area.
(** An element of [getPopulatedAreas()]: [{ lat, lng, population }]. *)
Record t := { lat : number; lng : number; population : Z }.
End Area.

Module Zone.
(** A crowd zone: [{ center: [lat, lng], radius, population, weight }]. *)
Record t := {
  center : number * number;
  radius : number;
  population : Z;
  weight : Z
}.
End Zone.

Module Grid.

(** The key of a cell is the string [`${gridLat},${gridLng}`].  Printing a
    number and reading it back loses nothing but the sign of zero, so the
    string is represented by the two numbers it spells. *)
Definition Key : Type := number * number.

Definition key_eqb (k1 k2 : Key) : bool :=
  same (fst k1) (fst k2) && same (snd k1) (snd k2).

(** [this.populations] is a [Map]: iteration follows insertion order and
    [set] on a present key keeps the key's position. *)
Definition PopMap : Type := list (Key * Z).

Fixpoint map_get (key : Key) (m : PopMap) : option Z :=
  match m with
  | [] => None
  | (k, v) :: rest => if key_eqb key k then Some v else map_get key rest
  end.

Fixpoint map_set (key : Key) (value : Z) (m : PopMap) : PopMap :=
  match m with
  | [] => [(key, value)]
  | (k, v) :: rest =>
      if key_eqb key k then (k, value) :: rest
      else (k, v) :: map_set key value rest
  end.

(** [this.populations.get(key) || 0]: a missing entry and a stored [0]
    both give [0]. *)
Definition get_or_zero (key : Key) (m : PopMap) : Z :=
  match map_get key m with
  | Some v => if v =? 0 then 0 else v
  | None => 0
  end.

Record t := {
  populations : PopMap;
  crowdZones : list Zone.t
}.

Definition gridSize : number := decimal 5 10000. (* 0.0005 *)

(** [constructor()] *)
Definition new : t := {| populations := []; crowdZones := [] |}.

Definition getGridKey (lat lng : number) : Key :=
  let gridLat := mul (floor (div lat gridSize)) gridSize in
  let gridLng := mul (floor (div lng gridSize)) gridSize in
  (through_string gridLat, through_string gridLng).

Definition getPopulation (g : t) (lat lng : number) : Z :=
  let key := getGridKey lat lng in
  get_or_zero key (populations g).

Definition getPopulatedAreas (g : t) : list Area.t :=
  flat_map
    (fun '(key, population) =>
       if 0 <? population
       then [ {| Area.lat := fst key; Area.lng := snd key;
                 Area.population := population |} ]
       else [])
    (populations g).

Definition getRoutingWeight (g : t) (lat lng : number) : Z :=
  let population := getPopulation g lat lng in
  if population =? 0 then 1
  else if population <? 3 then 2
  else if population <? 6 then 5
  else if population <? 10 then 10
  else 20.

Definition updateCrowdZones (g : t) : t :=
  let areas := getPopulatedAreas g in
  {| populations := populations g;
     crowdZones :=
       flat_map
         (fun area =>
            if 3 <=? Area.population area
            then [ {| Zone.center := (Area.lat area, Area.lng area);
                      Zone.radius :=
                        Number.max (decimal 1 1000)
                          (mul (of_Z (Area.population area)) (decimal 3 10000));
                      Zone.population := Area.population area;
                      Zone.weight :=
                        getRoutingWeight g (Area.lat area) (Area.lng area) |} ]
            else [])
         areas |}.

(** [addPerson(lat, lng, count)]: the new grid and the returned number. *)
Definition addPerson (g : t) (lat lng : number) (count : Z) : t * Z :=
  let key := getGridKey lat lng in
  let current := get_or_zero key (populations g) in
  let g1 := {| populations := map_set key (current + count) (populations g);
               crowdZones := crowdZones g |} in
  (updateCrowdZones g1, current + count).

Definition clearAll (g : t) : t :=
  {| populations := []; crowdZones := [] |}.

(** The distance in degree space that both [isPointInCrowdZone] and
    [analyzeCrowdIntersections] compute. *)
Definition distance (point center : number * number) : number :=
  sqrt (add (square (sub (fst point) (fst center)))
            (square (sub (snd point) (snd center)))).

Definition isPointInCrowdZone (g : t) (point : number * number)
  : option Zone.t :=
  (fix loop (zones : list Zone.t) : option Zone.t :=
     match zones with
     | [] => None
     | zone :: rest =>
         if leb (distance point (Zone.center zone)) (Zone.radius zone)
         then Some zone
         else loop rest
     end) (crowdZones g).

Definition zone_eq_dec (z1 z2 : Zone.t) : {z1 = z2} + {z1 <> z2}.
Proof.
  decide equality; auto using Z.eq_dec, number_eq_dec.
  decide equality; auto using number_eq_dec.
Defined.

(** [intersectingZones.includes(zone)] compares objects by identity.  The
    zones of [this.crowdZones] are objects made one per cell, with pairwise
    distinct centres, so for them identity is equality of the values. *)
Definition includes (zones : list Zone.t) (zone : Zone.t) : bool :=
  existsb (fun z => if zone_eq_dec z zone then true else false) zones.

Definition getCrowdZonesOnRoute (g : t) (route : list (number * number))
  : list Zone.t :=
  fold_left
    (fun intersectingZones point =>
       match isPointInCrowdZone g point with
       | Some zone =>
           if negb (includes intersectingZones zone)
           then intersectingZones ++ [zone]
           else intersectingZones
       | None => intersectingZones
       end)
    route [].

End Grid.

(** ** The population grid as written: populations are numbers *)

Module DynamicPopulationGrid.

Module Area.
(** An element of [getPopulatedAreas()]: [{ lat, lng, population }]. *)
Record t := { lat : number; lng : number; population : number }.
End Area.

Module Zone.
(** A crowd zone: [{ center: [lat, lng], radius, population, weight }]; the
    weight is one of the literals that [getRoutingWeight] returns. *)
Record t := {
  center : number * number;
  radius : number;
  population : number;
  weight : Z
}.
End Zone.

(** [this.populations]: a [Map] from key strings to numbers, in insertion
    order.  The keys are those of [Grid]. *)
Definition Populations : Type := list (Grid.Key * number).

Fixpoint map_get (key : Grid.Key) (m : Populations) : option number :=
  match m with
  | [] => None
  | (k, v) :: rest => if Grid.key_eqb key k then Some v else map_get key rest
  end.

Fixpoint map_set (key : Grid.Key) (value : number) (m : Populations)
  : Populations :=
  match m with
  | [] => [(key, value)]
  | (k, v) :: rest =>
      if Grid.key_eqb key k then (k, value) :: rest
      else (k, v) :: map_set key value rest
  end.

(** [this.populations.get(key) || 0]: a missing entry, a stored [0] or [-0]
    and a stored [NaN] all give [0]. *)
Definition get_or_zero (key : Grid.Key) (m : Populations) : number :=
  match map_get key m with
  | Some v => or_else v zero
  | None => zero
  end.

Record t := {
  populations : Populations;
  crowdZones : list Zone.t
}.

(** [constructor()] *)
Definition new : t := {| populations := []; crowdZones := [] |}.

Definition getGridKey (lat lng : number) : Grid.Key :=
  let gridLat := mul (floor (div lat Grid.gridSize)) Grid.gridSize in
  let gridLng := mul (floor (div lng Grid.gridSize)) Grid.gridSize in
  (through_string gridLat, through_string gridLng).

Definition getPopulation (g : t) (lat lng : number) : number :=
  let key := getGridKey lat lng in
  get_or_zero key (populations g).

Definition getPopulatedAreas (g : t) : list Area.t :=
  flat_map
    (fun '(key, population) =>
       if gtb population zero
       then [ {| Area.lat := fst key; Area.lng := snd key;
                 Area.population := population |} ]
       else [])
    (populations g).

Definition getRoutingWeight (g : t) (lat lng : number) : Z :=
  let population := getPopulation g lat lng in
  if eqb population zero then 1
  else if ltb population (of_Z 3) then 2
  else if ltb population (of_Z 6) then 5
  else if ltb population (of_Z 10) then 10
  else 20.

Definition updateCrowdZones (g : t) : t :=
  let areas := getPopulatedAreas g in
  {| populations := populations g;
     crowdZones :=
       flat_map
         (fun area =>
            if leb (of_Z 3) (Area.population area)
            then [ {| Zone.center := (Area.lat area, Area.lng area);
                      Zone.radius :=
                        Number.max (decimal 1 1000)
                          (mul (Area.population area) (decimal 3 10000));
                      Zone.population := Area.population area;
                      Zone.weight :=
                        getRoutingWeight g (Area.lat area) (Area.lng area) |} ]
            else [])
         areas |}.

(** [addPerson(lat, lng, count)]: the new grid and the returned number,
    [current + count] in binary64, for any number [count]. *)
Definition addPerson (g : t) (lat lng : number) (count : number)
  : t * number :=
  let key := getGridKey lat lng in
  let current := get_or_zero key (populations g) in
  let g1 := {| populations := map_set key (add current count) (populations g);
               crowdZones := crowdZones g |} in
  (updateCrowdZones g1, add current count).

Definition clearAll (g : t) : t :=
  {| populations := []; crowdZones := [] |}.

End DynamicPopulationGrid.

(** ** The component's [handleAddPerson] *)

(** The guard of [handleAddPerson]; [typeof lat !== 'number'] cannot hold of
    a [number].  [handleAddPerson] is given on the grid of integers here and
    on the grid as written in [DynamicRoadRouting]. *)
Definition invalidCoordinates (lat lng : number) : bool :=
  isNaN lat || isNaN lng ||
  ltb lat (of_Z (-90)) || gtb lat (of_Z 90) ||
  ltb lng (of_Z (-180)) || gtb lng (of_Z 180).

Definition handleAddPerson (populationGrid : Grid.t) (lat lng : number)
  : Grid.t :=
  if invalidCoordinates lat lng then populationGrid
  else fst (Grid.addPerson populationGrid lat lng 1).

Module DynamicRoadRouting.

(** [handleAddPerson(lat, lng)] on the grid as written: past the guard it
    calls [populationGrid.addPerson(lat, lng)], whose count defaults to 1. *)
Definition handleAddPerson (populationGrid : DynamicPopulationGrid.t)
    (lat lng : number) : DynamicPopulationGrid.t :=
  if invalidCoordinates lat lng then populationGrid
  else fst (DynamicPopulationGrid.addPerson populationGrid lat lng (of_Z 1)).

End DynamicRoadRouting.

(** ** The router: [class DynamicOSRMRouter] *)

(** [array.reduce(f)] without an initial value: the first element seeds the
    accumulator; on an empty array it throws. *)
Definition reduce {A : Type} (f : A -> A -> A) (l : list A) : option A :=
  match l with
  | [] => None
  | x :: rest => Some (fold_left f rest x)
  end.

(** A point is the array [[lat, lng]]. *)
Definition Point : Type := number * number.

Module WorstZone.
Record t := {
  zone : Zone.t;
  intersectionRatio : number;
  intersectionPoints : Z
}.
End WorstZone.

Module Intersections.
(** The object returned by [analyzeCrowdIntersections]. *)
Record t := {
  totalIntersection : number;
  worstZone : option WorstZone.t;
  averageIntersection : number
}.
End Intersections.

Inductive RouteType := direct | avoidance | alternative.

Module Candidate.
(** An element of the array returned by [getMultipleRoutes]. *)
Record t := {
  route : list Point;
  type : RouteType;
  crowdIntersections : Intersections.t
}.
End Candidate.

Module Router.

(** [[p[1], p[0]]]: from latitude-first to the provider's longitude-first
    order, and back. *)
Definition swap (p : number * number) : number * number := (snd p, fst p).

(** The inner loop of [analyzeCrowdIntersections]. *)
Definition countIntersectionPoints (route : list Point) (zone : Zone.t) : Z :=
  fold_left
    (fun intersectionPoints point =>
       if leb (Grid.distance point (Zone.center zone)) (Zone.radius zone)
       then intersectionPoints + 1
       else intersectionPoints)
    route 0.

(** One turn of the outer loop, on the pair [(totalIntersection, worstZone)]. *)
Definition analyzeZone (route : list Point)
    (acc : number * option WorstZone.t) (zone : Zone.t)
  : number * option WorstZone.t :=
  let '(totalIntersection, worstZone) := acc in
  let intersectionPoints := countIntersectionPoints route zone in
  let intersectionRatio :=
    div (of_Z intersectionPoints) (of_nat (length route)) in
  let candidate :=
    {| WorstZone.zone := zone;
       WorstZone.intersectionRatio := intersectionRatio;
       WorstZone.intersectionPoints := intersectionPoints |} in
  (add totalIntersection (mul intersectionRatio (of_Z (Zone.weight zone))),
   match worstZone with
   | None => Some candidate
   | Some w =>
       if gtb intersectionRatio (WorstZone.intersectionRatio w)
       then Some candidate
       else worstZone
   end).

Definition analyzeCrowdIntersections
    (route : list Point) (crowdZones : list Zone.t) : Intersections.t :=
  let '(totalIntersection, worstZone) :=
    fold_left (analyzeZone route) crowdZones (zero, None) in
  {| Intersections.totalIntersection := totalIntersection;
     Intersections.worstZone := worstZone;
     Intersections.averageIntersection :=
       or_else (div totalIntersection (of_nat (length crowdZones))) zero |}.

Definition avoidanceDistances : list number :=
  [decimal 2 1000; decimal 4 1000; decimal 6 1000]. (* 0.002, 0.004, 0.006 *)

Definition createAvoidanceWaypoints
    (start end_ : Point) (crowdZone : Zone.t) : list Point :=
  let dx := sub (fst end_) (fst start) in
  let dy := sub (snd end_) (snd start) in
  let length := sqrt (add (mul dx dx) (mul dy dy)) in
  if eqb length zero then []
  else
    let perpX := div (neg dy) length in
    let perpY := div dx length in
    map (fun distance =>
           (add (fst (Zone.center crowdZone)) (mul perpX distance),
            add (snd (Zone.center crowdZone)) (mul perpY distance)))
        avoidanceDistances.

(** The worst zone of [getAvoidanceRoute]. *)
Definition findWorstZone (crowdZones : list Zone.t) : option Zone.t :=
  reduce
    (fun worst current =>
       if Zone.weight current >? Zone.weight worst then current else worst)
    crowdZones.

(** [coordinates.map(coord => coord.join(',')).join(';')]: the coordinates
    go into the URL as text.  The text of a number tells it from every other
    number, except that [-0] is printed as [0]; the text is represented by
    the number it spells. *)
Definition coordsString (coordinates : list (number * number))
  : list (number * number) :=
  map (fun coord => (through_string (fst coord), through_string (snd coord)))
      coordinates.

(** The routing provider.  A request is the text of the [[lng, lat]] pairs
    in the URL and the [alternatives] flag; the answer is absent when the
    fetch or the decoding fails, and otherwise carries whether [code] is
    ['Ok'] and, for each route, its [geometry.coordinates]. *)
Record Response := {
  code_ok : bool;
  routes : list (list (number * number))
}.

Definition Provider : Type :=
  list (number * number) -> bool -> option Response.

Section WithProvider.

Variable fetch : Provider.

(** The routes come back as an option: [None] is [null]. *)
Definition getRoadRoute (start end_ : Point) : option (list Point) :=
  let coordinates := [swap start; swap end_] in
  match fetch (coordsString coordinates) false with
  | None => None
  | Some data =>
      if negb (code_ok data) then None
      else
        match routes data with
        | [] => None
        | r0 :: _ => Some (map swap r0)
        end
  end.

Definition getAvoidanceRoute
    (start end_ : Point) (crowdZones : list Zone.t)
  : option (list Point) :=
  match findWorstZone crowdZones with
  | None => None
  | Some worstZone =>
      let avoidancePoints :=
        createAvoidanceWaypoints start end_ worstZone in
      let coordinates :=
        [swap start] ++ map swap avoidancePoints ++ [swap end_] in
      match fetch (coordsString coordinates) false with
      | None => None
      | Some data =>
          if negb (code_ok data) then None
          else
            match routes data with
            | [] => None
            | r0 :: _ => Some (map swap r0)
            end
      end
  end.

Definition getAlternativeRoute (start end_ : Point)
  : option (list Point) :=
  let coordinates := [swap start; swap end_] in
  match fetch (coordsString coordinates) true with
  | None => None
  | Some data =>
      if negb (code_ok data) then None
      else
        match nth_error (routes data) 1 with
        | None => None
        | Some r1 => Some (map swap r1)
        end
  end.

(** [if (r) routes.push({ route: r, type, crowdIntersections })] *)
Definition push_candidate (type : RouteType) (crowdZones : list Zone.t)
    (r : option (list Point)) : list Candidate.t :=
  match r with
  | None => []
  | Some route =>
      [ {| Candidate.route := route; Candidate.type := type;
           Candidate.crowdIntersections :=
             analyzeCrowdIntersections route crowdZones |} ]
  end.

Definition getMultipleRoutes
    (start end_ : Point) (crowdZones : list Zone.t) : list Candidate.t :=
  push_candidate direct crowdZones (getRoadRoute start end_)
  ++ (if (0 <? length crowdZones)%nat
      then push_candidate avoidance crowdZones
             (getAvoidanceRoute start end_ crowdZones)
      else [])
  ++ push_candidate alternative crowdZones
       (getAlternativeRoute start end_).

End WithProvider.

End Router.

(** ** The component's [calculateRoute] *)

Module RouteInfo.
(** The statistics object passed to [setRouteInfo]. *)
Record t := {
  totalPoints : Z;
  crowdedPoints : Z;
  averageWeight : number;
  totalDistance : number;
  efficiency : number;
  routeType : RouteType;
  crowdIntersection : number
}.
End RouteInfo.

Module View.
(** The part of the component's state that [calculateRoute] reads and
    writes. *)
Record t := {
  start : option Point;
  end_ : option Point;
  currentRoute : list Point;
  routeInfo : option RouteInfo.t;
  routeOptions : list Candidate.t;
  selectedRouteIndex : nat
}.
End View.

(** Each candidate with its position in [routes]: the position stands for the
    identity of the object, which is what [routes.indexOf(bestRoute)] finds. *)
Definition indexed {A : Type} (l : list A) : list (nat * A) :=
  combine (seq 0 (length l)) l.

Definition total (c : Candidate.t) : number :=
  Intersections.totalIntersection (Candidate.crowdIntersections c).

(** [routes.reduce((best, current) => current.total < best.total ? current : best)] *)
Definition selectBestRoute (routes : list Candidate.t)
  : option (nat * Candidate.t) :=
  reduce
    (fun best current =>
       if ltb (total (snd current)) (total (snd best)) then current else best)
    (indexed routes).

Definition routeStatistics (populationGrid : Grid.t) (bestRoute : Candidate.t)
  : RouteInfo.t :=
  let route := Candidate.route bestRoute in
  let totalPoints := Z.of_nat (length route) in
  let crowdedPoints :=
    Z.of_nat
      (length
         (filter
            (fun point =>
               Grid.getRoutingWeight populationGrid (fst point) (snd point) >? 2)
            route)) in
  let averageWeight :=
    if 0 <? Z.of_nat (length route)
    then div (of_Z (fold_left
                      (fun sum point =>
                         sum + Grid.getRoutingWeight populationGrid
                                 (fst point) (snd point))
                      route 0))
             (of_nat (length route))
    else zero in
  let totalDistance :=
    match route with
    | [] => zero
    | first :: rest =>
        snd (fold_left
               (fun '(prev, sum) point =>
                  (point,
                   add sum (mul (Grid.distance point prev) (of_Z 111000))))
               rest (first, zero))
    end in
  {| RouteInfo.totalPoints := totalPoints;
     RouteInfo.crowdedPoints := crowdedPoints;
     RouteInfo.averageWeight := averageWeight;
     RouteInfo.totalDistance := totalDistance;
     RouteInfo.efficiency :=
       if 0 <? totalPoints
       then Number.max zero
              (sub (of_Z 100)
                   (mul (div (of_Z crowdedPoints) (of_Z totalPoints))
                        (of_Z 100)))
       else zero;
     RouteInfo.routeType := Candidate.type bestRoute;
     RouteInfo.crowdIntersection := total bestRoute |}.

Definition calculateRoute (fetch : Router.Provider)
    (populationGrid : Grid.t) (view : View.t) : View.t :=
  match View.start view, View.end_ view with
  | Some start, Some end_ =>
      let routes :=
        Router.getMultipleRoutes fetch start end_
          (Grid.crowdZones populationGrid) in
      match selectBestRoute routes with
      | Some (index, bestRoute) =>
          {| View.start := View.start view;
             View.end_ := View.end_ view;
             View.currentRoute := Candidate.route bestRoute;
             View.routeInfo := Some (routeStatistics populationGrid bestRoute);
             View.routeOptions := routes;
             View.selectedRouteIndex := index |}
      | None =>
          {| View.start := View.start view;
             View.end_ := View.end_ view;
             View.currentRoute := [];
             View.routeInfo := None;
             View.routeOptions := View.routeOptions view;
             View.selectedRouteIndex := View.selectedRouteIndex view |}
      end
  | _, _ => view
  end.

(** ** The component's [handleSelect], option click and [Clear All] *)

(** The branch that [handleSelect] takes, from the [start] and [end] that its
    closure sees. *)
Inductive SelectBranch := Rejected | SetStart | SetEnd | ResetStart.

Definition selectBranch (start end_ : option Point) (latlng : Point)
  : SelectBranch :=
  if invalidCoordinates (fst latlng) (snd latlng) then Rejected
  else
    match start with
    | None => SetStart
    | Some _ =>
        match end_ with
        | None => SetEnd
        | Some _ => ResetStart
        end
    end.

(** [handleSelect(latlng)], run by a closure that sees [start] and [end_]. *)
Definition handleSelect (start end_ : option Point) (latlng : Point)
    (view : View.t) : View.t :=
  match selectBranch start end_ latlng with
  | Rejected => view
  | SetStart | ResetStart =>
      {| View.start := Some latlng;
         View.end_ := None;
         View.currentRoute := [];
         View.routeInfo := None;
         View.routeOptions := [];
         View.selectedRouteIndex := View.selectedRouteIndex view |}
  | SetEnd =>
      {| View.start := View.start view;
         View.end_ := Some latlng;
         View.currentRoute := View.currentRoute view;
         View.routeInfo := View.routeInfo view;
         View.routeOptions := View.routeOptions view;
         View.selectedRouteIndex := View.selectedRouteIndex view |}
  end.

(** The [onClick] of the option at [index] of the route options panel; the
    panel only has the options of [routeOptions]. *)
Definition selectRouteOption (index : nat) (view : View.t) : View.t :=
  match nth_error (View.routeOptions view) index with
  | None => view
  | Some option =>
      {| View.start := View.start view;
         View.end_ := View.end_ view;
         View.currentRoute := Candidate.route option;
         View.routeInfo := View.routeInfo view;
         View.routeOptions := View.routeOptions view;
         View.selectedRouteIndex := index |}
  end.

(** The [onClick] of the [Clear All] button, on the grid and on the view. *)
Definition clearAllClicked (populationGrid : Grid.t) (view : View.t)
  : Grid.t * View.t :=
  (Grid.clearAll populationGrid,
   {| View.start := View.start view;
      View.end_ := View.end_ view;
      View.currentRoute := [];
      View.routeInfo := None;
      View.routeOptions := [];
      View.selectedRouteIndex := View.selectedRouteIndex view |}).

(** The state of the component on mount. *)
Definition initialView : View.t :=
  {| View.start := None; View.end_ := None; View.currentRoute := [];
     View.routeInfo := None; View.routeOptions := [];
     View.selectedRouteIndex := 0%nat |}.

(** [getPopulationColor(population)] *)
Inductive Color := transparent | green | orange | red | darkred.

Definition getPopulationColor (population : Z) : Color :=
  if population =? 0 then transparent
  else if population <? 3 then green
  else if population <? 6 then orange
  else if population <? 10 then red
  else darkred.

(** ** The handlers of the component, as events *)

(** What the user can do to the routing state: press [Calculate Routes]
    (with the provider and the grid of that moment), click the map (with the
    [start] and [end] that the closure of [handleSelect] sees), click a route
    option, press [Clear All].  Each handler is taken as one step. *)
Inductive Event :=
| CalculateRoutes (fetch : Router.Provider) (populationGrid : Grid.t)
| MapClick (start end_ : option Point) (latlng : Point)
| OptionClick (index : nat)
| ClearAllClick (populationGrid : Grid.t).

Definition react (view : View.t) (event : Event) : View.t :=
  match event with
  | CalculateRoutes fetch populationGrid =>
      calculateRoute fetch populationGrid view
  | MapClick start end_ latlng => handleSelect start end_ latlng view
  | OptionClick index => selectRouteOption index view
  | ClearAllClick populationGrid => snd (clearAllClicked populationGrid view)
  end.

(** [handleSelect] is memoized: [useCallback(..., [start])] makes a new
    closure only in a render in which [start] has changed, and every other
    render keeps the closure it has, with the [start] and [end] of the render
    that made it.  The mounted component is the view together with what that
    closure sees. *)
Module Mounted.
Record t := {
  view : View.t;
  seenStart : option Point;
  seenEnd : option Point
}.
End Mounted.

(** A click on the map at [latlng], handled by the closure of the last
    render.  A click that calls [setStart] changes
    [start], so the closure is made anew: it sees the new [start], and as
    [end] either the new one, when the state updates of the handler are
    applied together, or the one from before the click, when [setStart] is
    rendered on its own before [setEnd].  Any other click leaves [start], and
    so the closure, as it is. *)
Inductive clicked (m : Mounted.t) (latlng : Point) : Mounted.t -> Prop :=
| clicked_same_closure :
    selectBranch (Mounted.seenStart m) (Mounted.seenEnd m) latlng = Rejected
    \/ selectBranch (Mounted.seenStart m) (Mounted.seenEnd m) latlng = SetEnd ->
    clicked m latlng
      {| Mounted.view :=
           handleSelect (Mounted.seenStart m) (Mounted.seenEnd m) latlng
             (Mounted.view m);
         Mounted.seenStart := Mounted.seenStart m;
         Mounted.seenEnd := Mounted.seenEnd m |}
| clicked_new_closure (seenEnd : option Point) :
    selectBranch (Mounted.seenStart m) (Mounted.seenEnd m) latlng = SetStart
    \/ selectBranch (Mounted.seenStart m) (Mounted.seenEnd m) latlng
       = ResetStart ->
    seenEnd = None \/ seenEnd = View.end_ (Mounted.view m) ->
    clicked m latlng
      {| Mounted.view :=
           handleSelect (Mounted.seenStart m) (Mounted.seenEnd m) latlng
             (Mounted.view m);
         Mounted.seenStart := Some latlng;
         Mounted.seenEnd := seenEnd |}.

(** One event of the mounted component: a click on the map, or one of the
    other handlers, none of which sets [start]. *)
Inductive happens (m : Mounted.t) : Mounted.t -> Prop :=
| happens_click (latlng : Point) (m' : Mounted.t) :
    clicked m latlng m' -> happens m m'
| happens_calculate (fetch : Router.Provider) (populationGrid : Grid.t) :
    happens m
      {| Mounted.view := calculateRoute fetch populationGrid (Mounted.view m);
         Mounted.seenStart := Mounted.seenStart m;
         Mounted.seenEnd := Mounted.seenEnd m |}
| happens_option (index : nat) :
    happens m
      {| Mounted.view := selectRouteOption index (Mounted.view m);
         Mounted.seenStart := Mounted.seenStart m;
         Mounted.seenEnd := Mounted.seenEnd m |}
| happens_clear (populationGrid : Grid.t) :
    happens m
      {| Mounted.view := snd (clearAllClicked populationGrid (Mounted.view m));
         Mounted.seenStart := Mounted.seenStart m;
         Mounted.seenEnd := Mounted.seenEnd m |}.

(** The states that the mounted component reaches. *)
Inductive reached : Mounted.t -> Prop :=
| reached_mount :
    reached {| Mounted.view := initialView;
               Mounted.seenStart := None; Mounted.seenEnd := None |}
| reached_next (m m' : Mounted.t) :
    reached m -> happens m m' -> reached m'.

(** ** The crowds on the map *)

(** [staticCrowdData] and [testCrowdData], as [(lat, lng, count)]. *)
Definition staticCrowdData : list (number * number * Z) :=
  [ (decimal 231821 10000, decimal 75789 1000, 20);
    (decimal 231823 10000, decimal 757892 10000, 40);
    (decimal 23183 1000, decimal 757885 10000, 0);
    (decimal 231815 10000, decimal 75787 1000, 5);
    (decimal 231829 10000, decimal 757905 10000, 8) ].

Definition testCrowdData : list (number * number * Z) :=
  [ (decimal 231821 10000, decimal 75789 1000, 3);
    (decimal 231823 10000, decimal 757892 10000, 7);
    (decimal 23183 1000, decimal 757885 10000, 10);
    (decimal 231815 10000, decimal 75787 1000, 5);
    (decimal 231829 10000, decimal 757905 10000, 8) ].

(** The loop of the effect that loads the static data. *)
Definition loadStaticCrowds (populationGrid : Grid.t) : Grid.t :=
  fold_left
    (fun g '(lat, lng, count) =>
       if count >? 0 then fst (Grid.addPerson g lat lng count) else g)
    staticCrowdData populationGrid.

(** The loop of the [Add Test Crowds] button. *)
Definition addTestCrowds (populationGrid : Grid.t) : Grid.t :=
  fold_left
    (fun g '(lat, lng, count) => fst (Grid.addPerson g lat lng count))
    testCrowdData populationGrid.

(** The grid and the [populatedAreas] state that the circles are drawn
    from. *)
Module Crowds.
Record t := {
  grid : Grid.t;
  populatedAreas : list Area.t
}.
End Crowds.

(** What changes the crowds: the effect that loads the static data, a
    right-click on the map, the [Add Test Crowds] button, the [Clear All]
    button. *)
Inductive CrowdEvent :=
| StaticLoaded
| RightClick (lat lng : number)
| TestCrowdsClick
| ClearCrowdsClick.

Definition crowdReact (c : Crowds.t) (event : CrowdEvent) : Crowds.t :=
  match event with
  | StaticLoaded =>
      let g := loadStaticCrowds (Crowds.grid c) in
      {| Crowds.grid := g; Crowds.populatedAreas := Grid.getPopulatedAreas g |}
  | RightClick lat lng =>
      if invalidCoordinates lat lng then c
      else
        let g := handleAddPerson (Crowds.grid c) lat lng in
        {| Crowds.grid := g;
           Crowds.populatedAreas := Grid.getPopulatedAreas g |}
  | TestCrowdsClick =>
      let g := addTestCrowds (Crowds.grid c) in
      {| Crowds.grid := g; Crowds.populatedAreas := Grid.getPopulatedAreas g |}
  | ClearCrowdsClick =>
      {| Crowds.grid := Grid.clearAll (Crowds.grid c);
         Crowds.populatedAreas := [] |}
  end.

(** The crowds on mount. *)
Definition noCrowds : Crowds.t :=
  {| Crowds.grid := Grid.new; Crowds.populatedAreas := [] |}.

(** * Vocabulary of the properties *)

(** The arguments of one call: [(lat, lng, count)]. *)
Definition Call : Type := number * number * Z.

Definition addPeople (calls : list Call) (g : Grid.t) : Grid.t :=
  fold_left
    (fun g '(lat, lng, count) => fst (Grid.addPerson g lat lng count))
    calls g.

(** Whether two coordinates quantize to the same cell. *)
Definition sameCell (lat lng lat' lng' : number) : bool :=
  Grid.key_eqb (Grid.getGridKey lat lng) (Grid.getGridKey lat' lng').

(** The sum of the counts that a sequence of calls adds to the cell of
    [(lat, lng)]. *)
Fixpoint countsAdded (calls : list Call) (lat lng : number) : Z :=
  match calls with
  | [] => 0
  | (lat', lng', count) :: rest =>
      (if sameCell lat' lng' lat lng then count else 0)
      + countsAdded rest lat lng
  end.

(** The two mutations of the grid. *)
Inductive Mutation :=
| AddPerson (lat lng : number) (count : Z)
| ClearAll.

Definition mutate (g : Grid.t) (m : Mutation) : Grid.t :=
  match m with
  | AddPerson lat lng count => fst (Grid.addPerson g lat lng count)
  | ClearAll => Grid.clearAll g
  end.

(** The grid after a sequence of mutations of a fresh grid. *)
Definition mutations (ms : list Mutation) : Grid.t :=
  fold_left mutate ms Grid.new.

(** The zone that the cell [(key, population)] gives rise to. *)
Definition zoneOfCell (g : Grid.t) (cell : Grid.Key * Z) : Zone.t :=
  {| Zone.center := fst cell;
     Zone.radius :=
       Number.max (decimal 1 1000) (mul (of_Z (snd cell)) (decimal 3 10000));
     Zone.population := snd cell;
     Zone.weight := Grid.getRoutingWeight g (fst (fst cell)) (snd (fst cell)) |}.

Definition crowded (cell : Grid.Key * Z) : bool := 3 <=? snd cell.

(** The zones are the cells of population 3 or more, and the keys of the
    cells are pairwise distinct. *)
Definition zonesFollowCells (g : Grid.t) : Prop :=
  Grid.crowdZones g
    = map (zoneOfCell g) (filter crowded (Grid.populations g))
  /\ NoDup (map fst (Grid.populations g)).

(** [distance <= zone.radius] for the distance of [isPointInCrowdZone]. *)
Definition withinZone (point : Point) (z : Zone.t) : bool :=
  leb (sqrt (add (square (sub (fst point) (fst (Zone.center z))))
                 (square (sub (snd point) (snd (Zone.center z))))))
      (Zone.radius z).

(** A provider that answers ['Ok'] with the very coordinates it was asked
    about, as its only route. *)
Definition echo : Router.Provider :=
  fun coordinates _ =>
    Some {| Router.code_ok := true; Router.routes := [coordinates] |}.

(** A provider that answers ['Ok'] with one route of no coordinates. *)
Definition emptyGeometry : Router.Provider :=
  fun _ _ => Some {| Router.code_ok := true; Router.routes := [[]] |}.

(** The number of points of the route within the radius of the zone. *)
Definition pointsWithin (route : list Point) (z : Zone.t) : Z :=
  Z.of_nat (length (filter (fun point => withinZone point z) route)).

(** The share of the route inside the zone, times the weight of the zone. *)
Definition zoneScore (route : list Point) (z : Zone.t) : number :=
  mul (div (of_Z (pointsWithin route z)) (of_nat (length route)))
      (of_Z (Zone.weight z)).

(** The sum of the zone scores, added up from 0 in the order of the zones. *)
Definition sumOfScores (route : list Point) (zones : list Zone.t) : number :=
  fold_left (fun sum z => add sum (zoneScore route z)) zones zero.

(** The entry that [analyzeCrowdIntersections] records for a zone. *)
Definition worstZoneEntry (route : list Point) (z : Zone.t) : WorstZone.t :=
  {| WorstZone.zone := z;
     WorstZone.intersectionRatio :=
       div (of_Z (pointsWithin route z)) (of_nat (length route));
     WorstZone.intersectionPoints := pointsWithin route z |}.

(** The choice of the reducer of [calculateRoute]. *)
Definition better (best current : nat * Candidate.t) : nat * Candidate.t :=
  if ltb (total (snd current)) (total (snd best)) then current else best.

(** What holds of the best candidate so far, once the candidates [seen] have
    been scanned: it is one of them, none of them is strictly below it, and
    none of those before it is below or level with it. *)
Definition bestOf (seen : list Candidate.t) (best : nat * Candidate.t) : Prop :=
  nth_error seen (fst best) = Some (snd best)
  /\ (forall c, In c seen -> ltb (total c) (total (snd best)) = false)
  /\ (forall j c, (j < fst best)%nat -> nth_error seen j = Some c ->
                  leb (total c) (total (snd best)) = false).

(** The choice of the reducer of [getAvoidanceRoute]. *)
Definition worse (worst current : Zone.t) : Zone.t :=
  if Zone.weight current >? Zone.weight worst then current else worst.

(** What holds of the worst zone so far, once the zones [seen] have been
    scanned: it is their first zone of maximum weight. *)
Definition worstOf (seen : list Zone.t) (worst : Zone.t) : Prop :=
  exists before after,
    seen = before ++ worst :: after
    /\ (forall z, In z seen -> Zone.weight z <= Zone.weight worst)
    /\ (forall z, In z before -> Zone.weight z < Zone.weight worst).

(** The length of the vector from [start] to [end_], as
    [createAvoidanceWaypoints] computes it. *)
Definition directLength (start end_ : Point) : number :=
  let dx := sub (fst end_) (fst start) in
  let dy := sub (snd end_) (snd start) in
  sqrt (add (mul dx dx) (mul dy dy)).

(** The point at [distance] from the centre of the zone along the
    perpendicular [(-dy / length, dx / length)] of the vector from [start] to
    [end_]. *)
Definition offsetPoint (start end_ : Point) (z : Zone.t) (distance : number)
  : Point :=
  let dx := sub (fst end_) (fst start) in
  let dy := sub (snd end_) (snd start) in
  let length := directLength start end_ in
  (add (fst (Zone.center z)) (mul (div (neg dy) length) distance),
   add (snd (Zone.center z)) (mul (div dx length) distance)).

(** Two to the power -600, which is exactly a number. *)
Definition tiny : number := div (of_Z 1) (of_Z (2 ^ 600)).

(** The area that [getPopulatedAreas] shows for a cell. *)
Definition areaOfCell (cell : Grid.Key * Z) : Area.t :=
  {| Area.lat := fst (fst cell); Area.lng := snd (fst cell);
     Area.population := snd cell |}.

Definition populated (cell : Grid.Key * Z) : bool := 0 <? snd cell.

(** The coordinates [(lat, lng)] of an area. *)
Definition areaCoordinates (area : Area.t) : number * number :=
  (Area.lat area, Area.lng area).

(** A number that is not below zero in sign: NaN, or a zero, a finite number
    or an infinity with a positive sign. *)
Definition signFalse (x : number) : bool :=
  match x with
  | S754_nan => true
  | S754_zero s | S754_infinity s | S754_finite s _ _ => negb s
  end.

(** What holds of the worst zone so far, once the zones [seen] have been
    scanned: it is the entry of one of them, none of them has a strictly
    greater ratio, and none of those before it has a ratio as great. *)
Definition worstSoFar (route : list Point) (seen : list Zone.t)
    (w : WorstZone.t) : Prop :=
  exists before after,
    seen = before ++ WorstZone.zone w :: after
    /\ w = worstZoneEntry route (WorstZone.zone w)
    /\ (forall z, In z seen ->
          gtb (WorstZone.intersectionRatio (worstZoneEntry route z))
              (WorstZone.intersectionRatio w) = false)
    /\ (forall z, In z before ->
          leb (WorstZone.intersectionRatio w)
              (WorstZone.intersectionRatio (worstZoneEntry route z)) = false).

(** The place of a route type in the order in which [getMultipleRoutes]
    asks for the routes. *)
Definition typeRank (type : RouteType) : nat :=
  match type with
  | direct => 0
  | avoidance => 1
  | alternative => 2
  end.

(** The candidate that [getMultipleRoutes] pushes for a route. *)
Definition candidateOf (type : RouteType) (zones : list Zone.t)
    (route : list Point) : Candidate.t :=
  {| Candidate.route := route; Candidate.type := type;
     Candidate.crowdIntersections :=
       Router.analyzeCrowdIntersections route zones |}.

(** The routing weight that goes with each colour of a population circle. *)
Definition weightOfColor (color : Color) : Z :=
  match color with
  | transparent => 1
  | green => 2
  | orange => 5
  | red => 10
  | darkred => 20
  end.

(** The route on the map is that of the highlighted option, when there is a
    route on the map. *)
Definition shownIsSelected (view : View.t) : Prop :=
  View.currentRoute view = []
  \/ exists c,
       nth_error (View.routeOptions view) (View.selectedRouteIndex view)
       = Some c
       /\ View.currentRoute view = Candidate.route c.

(** The statistics, when there are any, are those of the best of the route
    options. *)
Definition statisticsOfBest (view : View.t) : Prop :=
  forall info,
    View.routeInfo view = Some info ->
    exists best,
      selectBestRoute (View.routeOptions view) = Some best
      /\ RouteInfo.routeType info = Candidate.type (snd best)
      /\ RouteInfo.crowdIntersection info = total (snd best)
      /\ RouteInfo.totalPoints info
         = Z.of_nat (length (Candidate.route (snd best))).

(** Route options are only there between two set end points. *)
Definition optionsHaveEnds (view : View.t) : Prop :=
  View.routeOptions view <> [] ->
  View.start view <> None /\ View.end_ view <> None.

(** Every cell of the grid holds at least one person. *)
Definition allPositive (g : Grid.t) : Prop :=
  forall key population,
    In (key, population) (Grid.populations g) -> 0 < population.

(** ** Vocabulary for the grid as written *)

(** The integers that are numbers with room to spare. *)
Definition small (z : Z) : Prop := Z.abs z < 2 ^ 53.

(** The number of sign [s], 53-digit mantissa and exponent [d - 53] that
    stands for the positive integer [p] of [d <= 53] binary digits. *)
Definition canon (s : bool) (p : positive) : number :=
  S754_finite s
    (Z.to_pos (Zpos p * 2 ^ (53 - Zpos (digits2_pos p))))
    (Zpos (digits2_pos p) - 53).

(** The arguments of one call of [addPerson] as written: the count is any
    number. *)
Definition NumberCall : Type := number * number * number.

Definition addPersons (calls : list NumberCall) (g : DynamicPopulationGrid.t)
  : DynamicPopulationGrid.t :=
  fold_left
    (fun g '(lat, lng, count) =>
       fst (DynamicPopulationGrid.addPerson g lat lng count))
    calls g.

(** What a sequence of calls leaves in the cell of [(lat, lng)] of a fresh
    grid: the counts of the calls that fall into the cell, added in binary64
    from left to right, each to [current || 0]. *)
Definition runningTotal (calls : list NumberCall) (lat lng : number) : number :=
  fold_left
    (fun current '(lat', lng', count) =>
       if sameCell lat' lng' lat lng then add (or_else current zero) count
       else current)
    calls zero.

(** The two mutations of the grid as written. *)
Inductive Operation :=
| AddPersonOp (lat lng count : number)
| ClearAllOp.

Definition operate (g : DynamicPopulationGrid.t) (op : Operation)
  : DynamicPopulationGrid.t :=
  match op with
  | AddPersonOp lat lng count =>
      fst (DynamicPopulationGrid.addPerson g lat lng count)
  | ClearAllOp => DynamicPopulationGrid.clearAll g
  end.

(** The grid after a sequence of operations on a fresh grid. *)
Definition operations (ops : list Operation) : DynamicPopulationGrid.t :=
  fold_left operate ops DynamicPopulationGrid.new.

(** Integer counts as the numbers that the code is given. *)
Definition callNumbers (call : Call) : NumberCall :=
  let '(lat, lng, count) := call in (lat, lng, of_Z count).

Definition asOperation (m : Mutation) : Operation :=
  match m with
  | AddPerson lat lng count => AddPersonOp lat lng (of_Z count)
  | ClearAll => ClearAllOp
  end.

(** The sum of the absolute values of the counts. *)
Definition countsSize (calls : list Call) : Z :=
  fold_right (fun '(_, _, count) size => Z.abs count + size) 0 calls.

Definition mutationsSize (ms : list Mutation) : Z :=
  fold_right
    (fun m size =>
       match m with
       | AddPerson _ _ count => Z.abs count + size
       | ClearAll => size
       end)
    0 ms.

(** A grid of integer populations as the grid of numbers that it stands
    for. *)
Definition embedCells (cells : Grid.PopMap) : DynamicPopulationGrid.Populations :=
  map (fun '(key, population) => (key, of_Z population)) cells.

Definition embedZone (z : Zone.t) : DynamicPopulationGrid.Zone.t :=
  {| DynamicPopulationGrid.Zone.center := Zone.center z;
     DynamicPopulationGrid.Zone.radius := Zone.radius z;
     DynamicPopulationGrid.Zone.population := of_Z (Zone.population z);
     DynamicPopulationGrid.Zone.weight := Zone.weight z |}.

Definition embed (g : Grid.t) : DynamicPopulationGrid.t :=
  {| DynamicPopulationGrid.populations := embedCells (Grid.populations g);
     DynamicPopulationGrid.crowdZones := map embedZone (Grid.crowdZones g) |}.

(** Every population of the grid is at most [bound] in absolute value. *)
Definition within (bound : Z) (g : Grid.t) : Prop :=
  forall key population,
    In (key, population) (Grid.populations g) -> Z.abs population <= bound.

Module AsWritten.

(** The zone that the cell [(key, population)] gives rise to. *)
Definition zoneOfCell (g : DynamicPopulationGrid.t) (cell : Grid.Key * number)
  : DynamicPopulationGrid.Zone.t :=
  {| DynamicPopulationGrid.Zone.center := fst cell;
     DynamicPopulationGrid.Zone.radius :=
       Number.max (decimal 1 1000) (mul (snd cell) (decimal 3 10000));
     DynamicPopulationGrid.Zone.population := snd cell;
     DynamicPopulationGrid.Zone.weight :=
       DynamicPopulationGrid.getRoutingWeight g
         (fst (fst cell)) (snd (fst cell)) |}.

Definition populated (cell : Grid.Key * number) : bool := gtb (snd cell) zero.

(** [population > 0] and [population >= 3]. *)
Definition crowded (cell : Grid.Key * number) : bool :=
  gtb (snd cell) zero && leb (of_Z 3) (snd cell).

Definition areaOfCell (cell : Grid.Key * number)
  : DynamicPopulationGrid.Area.t :=
  {| DynamicPopulationGrid.Area.lat := fst (fst cell);
     DynamicPopulationGrid.Area.lng := snd (fst cell);
     DynamicPopulationGrid.Area.population := snd cell |}.

Definition areaCoordinates (area : DynamicPopulationGrid.Area.t)
  : number * number :=
  (DynamicPopulationGrid.Area.lat area, DynamicPopulationGrid.Area.lng area).

(** The zones are made from the cells of population 3 or more, and the keys
    of the cells are pairwise distinct. *)
Definition zonesFollowCells (g : DynamicPopulationGrid.t) : Prop :=
  DynamicPopulationGrid.crowdZones g
    = map (zoneOfCell g) (filter crowded (DynamicPopulationGrid.populations g))
  /\ NoDup (map fst (DynamicPopulationGrid.populations g)).

(** [n] right-clicks at the same coordinates. *)
Definition rightClicks (n : nat) (lat lng : number)
    (g : DynamicPopulationGrid.t) : DynamicPopulationGrid.t :=
  Nat.iter n (fun g => DynamicRoadRouting.handleAddPerson g lat lng) g.

(** The step function of the claim on a population that is a number. *)
Definition weightOfPopulation (population : number) : Z :=
  if eqb population zero then 1
  else if ltb population (of_Z 3) then 2
  else if ltb population (of_Z 6) then 5
  else if ltb population (of_Z 10) then 10
  else 20.

End AsWritten.



(** * Properties *)

(** ** The model on concrete numbers *)

(** The literal [0.0005] is the binary64 number [0x1.0624dd2f1a9fcp-11]. *)
Example gridSize_value :
  Grid.gridSize = S754_finite false 4611686018427388 (-63).
Proof. reflexivity. Qed.

Example floor_values :
  floor (div (decimal 231821 10000) Grid.gridSize) = of_Z 46364
  /\ floor (decimal 5 10) = zero
  /\ floor (neg (decimal 5 10)) = of_Z (-1)
  /\ floor (neg (decimal 35 10)) = of_Z (-4)
  /\ floor (S754_zero true) = S754_zero true
  /\ floor (of_Z 7) = of_Z 7.
Proof. vm_compute. repeat split; reflexivity. Qed.

Example max_values :
  Number.max (decimal 1 1000) (mul (of_Z 3) (decimal 3 10000)) = decimal 1 1000
  /\ Number.max (decimal 1 1000) (mul (of_Z 60) (decimal 3 10000))
     = decimal 18 1000
  /\ Number.max (S754_zero true) zero = zero
  /\ Number.max S754_nan (of_Z 1) = S754_nan.
Proof. vm_compute. repeat split; reflexivity. Qed.

(** The crowds that the component loads at start, (23.1821, 75.7890, 20),
    (23.1823, 75.7892, 40), (23.1815, 75.7870, 5) and (23.1829, 75.7905, 8):
    the first two fall into one cell, so the grid holds three cells, of
    populations 60, 5 and 8, and three zones of weights 20, 5 and 10. *)
Example static_crowds :
  let g := mutations
             [ AddPerson (decimal 231821 10000) (decimal 75789 1000) 20;
               AddPerson (decimal 231823 10000) (decimal 757892 10000) 40;
               AddPerson (decimal 231815 10000) (decimal 75787 1000) 5;
               AddPerson (decimal 231829 10000) (decimal 757905 10000) 8 ] in
  Grid.getGridKey (decimal 231821 10000) (decimal 75789 1000)
  = Grid.getGridKey (decimal 231823 10000) (decimal 757892 10000)
  /\ map snd (Grid.populations g) = [60; 5; 8]
  /\ map Zone.population (Grid.crowdZones g) = [60; 5; 8]
  /\ map Zone.weight (Grid.crowdZones g) = [20; 5; 10]
  /\ map Zone.radius (Grid.crowdZones g)
     = [ decimal 18 1000; mul (of_Z 5) (decimal 3 10000);
         mul (of_Z 8) (decimal 3 10000) ].
Proof. vm_compute. repeat split; reflexivity. Qed.

(** ** The order of numbers *)

Section NumberOrder.

Local Ltac by_cases_on_compare :=
  repeat match goal with
         | |- context [Z.compare ?a ?b] =>
             destruct (Z.compare_spec a b)
         | |- context [Pos.compare ?a ?b] =>
             destruct (Pos.compare_spec a b)
         end;
  simpl; intros; subst;
  first [ reflexivity | discriminate | lia ].

Local Ltac order_cases x y z :=
  destruct x as [[]|[]| |[] ? ?], y as [[]|[]| |[] ? ?],
           z as [[]|[]| |[] ? ?];
  simpl; try (intros; first [ reflexivity | discriminate ]);
  change (Pos.compare_cont Eq) with Pos.compare;
  by_cases_on_compare.

Lemma ltb_trans (x y z : number) :
  ltb x y = true -> ltb y z = true -> ltb x z = true.
Proof. unfold ltb, SFltb, SFcompare. order_cases x y z. Qed.

Lemma leb_ltb_trans (x y z : number) :
  leb x y = true -> ltb y z = true -> ltb x z = true.
Proof. unfold leb, ltb, SFleb, SFltb, SFcompare. order_cases x y z. Qed.

Lemma ltb_irrefl (x : number) : ltb x x = false.
Proof.
  unfold ltb, SFltb, SFcompare.
  destruct x as [[]|[]| |[] ? ?]; simpl; try reflexivity;
    change (Pos.compare_cont Eq) with Pos.compare;
    rewrite Z.compare_refl, Pos.compare_refl; reflexivity.
Qed.

Lemma ltb_not_leb (x y : number) : ltb x y = true -> leb y x = false.
Proof.
  intros H. destruct (leb y x) eqn:E; [|reflexivity].
  pose proof (leb_ltb_trans _ _ _ E H) as H1.
  rewrite ltb_irrefl in H1. discriminate.
Qed.

Lemma leb_not_ltb (x y : number) : leb x y = true -> ltb y x = false.
Proof.
  intros H. destruct (ltb y x) eqn:E; [|reflexivity].
  rewrite (ltb_not_leb _ _ E) in H. discriminate.
Qed.

(** Two numbers other than NaN are always comparable. *)
Lemma not_ltb_leb (x y : number) :
  isNaN x = false -> isNaN y = false -> ltb x y = false -> leb y x = true.
Proof.
  unfold ltb, leb, SFltb, SFleb, SFcompare.
  destruct x as [[]|[]| |[] ? ?], y as [[]|[]| |[] ? ?];
    simpl; try (intros; first [ reflexivity | discriminate ]);
    change (Pos.compare_cont Eq) with Pos.compare;
    intros _ _; by_cases_on_compare.
Qed.

Lemma leb_refl (x : number) : isNaN x = false -> leb x x = true.
Proof.
  intros H. apply not_ltb_leb; auto using ltb_irrefl.
Qed.

End NumberOrder.

(** ** The population map *)

Section PopulationMap.

Import Grid.

Lemma same_eq (x y : number) : same x y = true <-> x = y.
Proof.
  unfold same. destruct (number_eq_dec x y); split; congruence.
Qed.

Lemma key_eqb_eq (k1 k2 : Key) : key_eqb k1 k2 = true <-> k1 = k2.
Proof.
  unfold key_eqb. destruct k1 as [a1 b1], k2 as [a2 b2]; simpl.
  rewrite andb_true_iff, !same_eq. split.
  - intros [-> ->]; reflexivity.
  - intros H; inversion H; auto.
Qed.

Lemma key_eqb_refl (k : Key) : key_eqb k k = true.
Proof. apply key_eqb_eq; reflexivity. Qed.

Lemma key_eqb_sym (k1 k2 : Key) : key_eqb k1 k2 = key_eqb k2 k1.
Proof.
  destruct (key_eqb k1 k2) eqn:E1, (key_eqb k2 k1) eqn:E2; auto.
  - apply key_eqb_eq in E1; subst. rewrite key_eqb_refl in E2; discriminate.
  - apply key_eqb_eq in E2; subst. rewrite key_eqb_refl in E1; discriminate.
Qed.

Lemma map_get_set_same (key : Key) (v : Z) (m : PopMap) :
  map_get key (map_set key v m) = Some v.
Proof.
  induction m as [|[k w] rest IH]; simpl.
  - rewrite key_eqb_refl; reflexivity.
  - destruct (key_eqb key k) eqn:E; simpl; rewrite E; auto.
Qed.

Lemma map_get_set_other (key key' : Key) (v : Z) (m : PopMap) :
  key_eqb key key' = false ->
  map_get key (map_set key' v m) = map_get key m.
Proof.
  intros Hne. induction m as [|[k w] rest IH]; simpl.
  - rewrite Hne; reflexivity.
  - destruct (key_eqb key' k) eqn:E; simpl.
    + apply key_eqb_eq in E; subst k. rewrite Hne; reflexivity.
    + destruct (key_eqb key k); auto.
Qed.

(** What [get(key) || 0] reads is the stored value, or [0]. *)
Lemma get_or_zero_set_same (key : Key) (v : Z) (m : PopMap) :
  get_or_zero key (map_set key v m) = v.
Proof.
  unfold get_or_zero. rewrite map_get_set_same.
  destruct (Z.eqb_spec v 0); congruence.
Qed.

Lemma get_or_zero_set_other (key key' : Key) (v : Z) (m : PopMap) :
  key_eqb key key' = false ->
  get_or_zero key (map_set key' v m) = get_or_zero key m.
Proof.
  intros H. unfold get_or_zero. rewrite map_get_set_other; auto.
Qed.

Lemma populations_updateCrowdZones (g : t) :
  populations (updateCrowdZones g) = populations g.
Proof. reflexivity. Qed.

Lemma populations_addPerson (g : t) (lat lng : number) (count : Z) :
  populations (fst (addPerson g lat lng count)) =
  map_set (getGridKey lat lng)
          (get_or_zero (getGridKey lat lng) (populations g) + count)
          (populations g).
Proof. reflexivity. Qed.

(** Reading a cell after [addPerson]: the count lands in the cell of the
    call and nowhere else. *)
Lemma getPopulation_addPerson (g : t) (lat lng lat' lng' : number) (count : Z) :
  getPopulation (fst (addPerson g lat' lng' count)) lat lng =
  if key_eqb (getGridKey lat' lng') (getGridKey lat lng)
  then getPopulation g lat lng + count
  else getPopulation g lat lng.
Proof.
  unfold getPopulation. rewrite populations_addPerson.
  destruct (key_eqb (getGridKey lat' lng') (getGridKey lat lng)) eqn:E.
  - apply key_eqb_eq in E. rewrite E. apply get_or_zero_set_same.
  - apply get_or_zero_set_other. rewrite key_eqb_sym. exact E.
Qed.

End PopulationMap.

(** ** Sequences of [addPerson] calls *)

Lemma getPopulation_addPeople (calls : list Call) (g : Grid.t) (lat lng : number) :
  Grid.getPopulation (addPeople calls g) lat lng =
  Grid.getPopulation g lat lng + countsAdded calls lat lng.
Proof.
  revert g. induction calls as [|[[lat' lng'] count] rest IH]; intros g.
  - simpl. lia.
  - unfold addPeople; cbn [fold_left].
    fold (addPeople rest (fst (Grid.addPerson g lat' lng' count))).
    rewrite IH, getPopulation_addPerson. cbn [countsAdded].
    unfold sameCell. destruct (Grid.key_eqb _ _); lia.
Qed.

Lemma countsAdded_untouched (calls : list Call) (lat lng : number) :
  (forall lat' lng' count,
      In (lat', lng', count) calls -> sameCell lat' lng' lat lng = false) ->
  countsAdded calls lat lng = 0.
Proof.
  induction calls as [|[[lat' lng'] count] rest IH]; intros H; simpl.
  - reflexivity.
  - rewrite (H lat' lng' count) by (left; reflexivity).
    rewrite IH; auto. intros; eapply H; right; eauto.
Qed.

(** ** Routing weight *)



(** ** Validation of added persons *)

Lemma not_finite_invalid (lat lng : number) :
  is_finite lat = false \/ is_finite lng = false ->
  invalidCoordinates lat lng = true.
Proof.
  unfold invalidCoordinates.
  intros [H | H].
  - destruct lat as [s|[]| |s m e]; try discriminate; try reflexivity.
    + destruct (isNaN lng); reflexivity.
    + destruct (isNaN lng); reflexivity.
  - destruct lng as [s|[]| |s m e]; try discriminate.
    + cbn [isNaN]. rewrite !orb_true_iff. left. right. reflexivity.
    + cbn [isNaN]. rewrite !orb_true_iff. right. reflexivity.
    + cbn [isNaN]. rewrite orb_true_r. reflexivity.
Qed.

Lemma in_range_valid (lat lng : number) :
  leb (of_Z (-90)) lat = true -> leb lat (of_Z 90) = true ->
  leb (of_Z (-180)) lng = true -> leb lng (of_Z 180) = true ->
  invalidCoordinates lat lng = false.
Proof.
  intros H1 H2 H3 H4. unfold invalidCoordinates, gtb.
  rewrite (leb_not_ltb _ _ H1), (leb_not_ltb _ _ H2),
          (leb_not_ltb _ _ H3), (leb_not_ltb _ _ H4).
  destruct lat, lng; try reflexivity; discriminate.
Qed.

(** ** Crowd zones *)

Section CrowdZones.

Import Grid.

Lemma crowdZones_updateCrowdZones (g : t) :
  crowdZones (updateCrowdZones g) =
  map (zoneOfCell g) (filter crowded (populations g)).
Proof.
  unfold updateCrowdZones, getPopulatedAreas; cbn [crowdZones].
  induction (populations g) as [|[[klat klng] population] rest IH];
    [reflexivity|].
  cbn [flat_map filter]. unfold crowded at 1. cbn [snd].
  destruct (Z.ltb_spec 0 population) as [Hpos | Hneg].
  - cbn [app flat_map Area.population Area.lat Area.lng].
    rewrite IH. destruct (3 <=? population); reflexivity.
  - cbn [app]. rewrite IH.
    destruct (Z.leb_spec 3 population); [lia | reflexivity].
Qed.

(** The keys of the map stay pairwise distinct. *)
Lemma map_set_keys (key : Key) (v : Z) (m : PopMap) :
  map fst (map_set key v m) =
  if existsb (key_eqb key) (map fst m) then map fst m else map fst m ++ [key].
Proof.
  induction m as [|[k w] rest IH]; [reflexivity|].
  cbn [map_set map fst existsb].
  destruct (key_eqb key k) eqn:E; cbn [orb map fst]; [reflexivity|].
  rewrite IH. destruct (existsb _ _); reflexivity.
Qed.

Lemma map_set_NoDup (key : Key) (v : Z) (m : PopMap) :
  NoDup (map fst m) -> NoDup (map fst (map_set key v m)).
Proof.
  intros H. rewrite map_set_keys.
  destruct (existsb (key_eqb key) (map fst m)) eqn:E; [assumption|].
  apply NoDup_app; [assumption | repeat constructor; intros [] | ].
  intros k Hin [Heq | []]. subst k.
  assert (existsb (key_eqb key) (map fst m) = true); [|congruence].
  apply existsb_exists. exists key. split; [assumption | apply key_eqb_refl].
Qed.

Lemma map_get_In (key : Key) (v : Z) (m : PopMap) :
  NoDup (map fst m) -> In (key, v) m -> map_get key m = Some v.
Proof.
  induction m as [|[k w] rest IH]; intros Hnd Hin; [contradiction|].
  cbn [map fst] in Hnd. inversion Hnd as [|? ? Hnotin Hnd']; subst.
  cbn [map_get]. destruct Hin as [Heq | Hin].
  - inversion Heq; subst. rewrite key_eqb_refl. reflexivity.
  - destruct (key_eqb key k) eqn:E; [|auto].
    apply key_eqb_eq in E; subst k. exfalso. apply Hnotin.
    change key with (fst (key, v)). apply in_map. assumption.
Qed.

Lemma zonesFollowCells_mutate (g : t) (m : Mutation) :
  zonesFollowCells g -> zonesFollowCells (mutate g m).
Proof.
  intros [_ Hnd]. destruct m as [lat lng count|]; split.
  - unfold mutate, addPerson; cbn [fst].
    rewrite crowdZones_updateCrowdZones. reflexivity.
  - unfold mutate. rewrite populations_addPerson.
    apply map_set_NoDup; assumption.
  - reflexivity.
  - constructor.
Qed.

Lemma zonesFollowCells_mutations (ms : list Mutation) :
  zonesFollowCells (mutations ms).
Proof.
  unfold mutations.
  assert (H : zonesFollowCells new) by (split; [reflexivity | constructor]).
  revert H. generalize new.
  induction ms as [|m ms IH]; intros g H; [exact H|].
  cbn [fold_left]. apply IH, zonesFollowCells_mutate, H.
Qed.

End CrowdZones.

Lemma mutations_snoc (ms : list Mutation) (m : Mutation) :
  mutations (ms ++ [m]) = mutate (mutations ms) m.
Proof. unfold mutations. rewrite fold_left_app. reflexivity. Qed.

(** Every cell of the map is the cell of some person that was added. *)
Lemma cells_are_quantized (ms : list Mutation) (key : Grid.Key) :
  In key (map fst (Grid.populations (mutations ms))) ->
  exists lat lng count,
    In (AddPerson lat lng count) ms /\ key = Grid.getGridKey lat lng.
Proof.
  induction ms as [|m ms IH] using rev_ind; [intros []|].
  rewrite mutations_snoc. destruct m as [lat lng count|]; [|intros []].
  unfold mutate. rewrite populations_addPerson, map_set_keys. intros Hin.
  assert (Hcases : In key (map fst (Grid.populations (mutations ms)))
                   \/ key = Grid.getGridKey lat lng).
  { destruct (existsb _ _); [left; assumption|].
    apply in_app_or in Hin. destruct Hin as [H | [H | []]]; auto. }
  destruct Hcases as [Hold | Hnew].
  - destruct (IH Hold) as (lat' & lng' & count' & Hin' & Hkey).
    exists lat', lng', count'. split; [|assumption].
    apply in_or_app; left; assumption.
  - exists lat, lng, count. split; [|assumption].
    apply in_or_app; right; left; reflexivity.
Qed.

(** The zones of a grid, one by one. *)
Lemma crowdZones_characterized (ms : list Mutation) (z : Zone.t) :
  let g := mutations ms in
  In z (Grid.crowdZones g) <->
  exists (key : Grid.Key) (population : Z),
    In (key, population) (Grid.populations g)
    /\ 3 <= population
    /\ Grid.get_or_zero key (Grid.populations g) = population
    /\ (exists lat lng count,
           In (AddPerson lat lng count) ms /\ key = Grid.getGridKey lat lng)
    /\ Zone.center z = key
    /\ Zone.radius z
       = Number.max (decimal 1 1000) (mul (of_Z population) (decimal 3 10000))
    /\ Zone.population z = population
    /\ Zone.weight z = Grid.getRoutingWeight g (fst key) (snd key).
Proof.
  intros g.
  destruct (zonesFollowCells_mutations ms) as [Hzones Hnd]. fold g in Hzones, Hnd.
  rewrite Hzones, in_map_iff. split.
  - intros ([key population] & Hz & Hin). apply filter_In in Hin.
    destruct Hin as [Hin Hbig]. unfold crowded in Hbig. cbn [snd] in Hbig.
    exists key, population. subst z.
    cbn [zoneOfCell Zone.center Zone.radius Zone.population Zone.weight
         fst snd].
    repeat split; try assumption; try reflexivity.
    + apply Z.leb_le; assumption.
    + unfold Grid.get_or_zero. rewrite (map_get_In _ _ _ Hnd Hin).
      destruct (Z.eqb_spec population 0); congruence.
    + apply cells_are_quantized. fold g.
      change key with (fst (key, population)). apply in_map; assumption.
  - intros (key & population & Hin & Hbig & _ & _ & Hc & Hr & Hp & Hw).
    exists (key, population). split.
    + destruct z as [c r p w].
      cbn [Zone.center Zone.radius Zone.population Zone.weight] in *.
      subst. reflexivity.
    + apply filter_In. split; [assumption|]. apply Z.leb_le; assumption.
Qed.

Lemma crowdZones_centers_NoDup (ms : list Mutation) :
  NoDup (map Zone.center (Grid.crowdZones (mutations ms))).
Proof.
  destruct (zonesFollowCells_mutations ms) as [Hzones Hnd].
  rewrite Hzones, map_map.
  change (fun x => Zone.center (zoneOfCell (mutations ms) x))
    with (@fst Grid.Key Z).
  clear Hzones. induction (Grid.populations (mutations ms)) as [|[k p] rest IH].
  - constructor.
  - cbn [map fst] in Hnd. inversion Hnd as [|? ? Hnotin Hnd']; subst.
    cbn [filter]. destruct (crowded (k, p)); [|auto].
    cbn [map fst]. constructor; [|auto].
    intros Hin. apply Hnotin. apply in_map_iff in Hin.
    destruct Hin as (c & Hc & Hin). apply filter_In in Hin.
    rewrite <- Hc. apply in_map. tauto.
Qed.

(** ** Point in zone *)

Lemma isPointInCrowdZone_find (g : Grid.t) (point : Point) :
  Grid.isPointInCrowdZone g point = find (withinZone point) (Grid.crowdZones g).
Proof.
  unfold Grid.isPointInCrowdZone.
  induction (Grid.crowdZones g) as [|z zs IH]; [reflexivity|].
  cbn [find]. unfold withinZone at 1. fold (Grid.distance point (Zone.center z)).
  destruct (leb _ _); [reflexivity | exact IH].
Qed.

Lemma find_first {A : Type} (f : A -> bool) (l : list A) :
  match find f l with
  | Some x =>
      exists before after,
        l = before ++ x :: after /\ f x = true
        /\ forall y, In y before -> f y = false
  | None => forall y, In y l -> f y = false
  end.
Proof.
  induction l as [|a l IH]; cbn [find].
  - intros y [].
  - destruct (f a) eqn:Ea.
    + exists [], l. split; [reflexivity|]. split; [assumption | intros y []].
    + destruct (find f l) as [x|].
      * destruct IH as (before & after & -> & Hx & Hbefore).
        exists (a :: before), after. split; [reflexivity|].
        split; [assumption|]. intros y [<- | Hy]; auto.
      * intros y [<- | Hy]; auto.
Qed.

(** C9.  [isPointInCrowdZone] returns the first zone, in the order of the zone
    list, whose centre is within its radius of the point, the distance being
    the square root of the sum of the squared coordinate differences in
    degrees; it returns nothing when no zone is that close. *)
Theorem isPointInCrowdZone_first_match :
  forall (g : Grid.t) (point : Point),
    match Grid.isPointInCrowdZone g point with
    | Some z =>
        exists before after,
          Grid.crowdZones g = before ++ z :: after
          /\ withinZone point z = true
          /\ forall z', In z' before -> withinZone point z' = false
    | None =>
        forall z, In z (Grid.crowdZones g) -> withinZone point z = false
    end.
Proof.
  intros g point. rewrite isPointInCrowdZone_find. apply find_first.
Qed.

(** The first match need not be the nearest zone: with a crowd of 10 at
    [(0, 0)] and then one at [(0.002, 0)], the point [(0.0019, 0)] is in both
    zones, nearer to the second, and the first is returned. *)
Lemma first_match_not_nearest :
  let g := mutations [ AddPerson (of_Z 0) (of_Z 0) 10;
                       AddPerson (decimal 2 1000) (of_Z 0) 10 ] in
  let point := (decimal 19 10000, of_Z 0) in
  map Zone.center (Grid.crowdZones g)
  = [ (of_Z 0, of_Z 0); (decimal 2 1000, of_Z 0) ]
  /\ option_map Zone.center (Grid.isPointInCrowdZone g point)
     = Some (of_Z 0, of_Z 0)
  /\ forallb (withinZone point) (Grid.crowdZones g) = true
  /\ ltb (Grid.distance point (decimal 2 1000, of_Z 0))
         (Grid.distance point (of_Z 0, of_Z 0)) = true.
Proof. vm_compute. repeat split; reflexivity. Qed.

(** ** Coordinate order at the provider's boundary *)







(** ** Integers as numbers *)

Section IntegersAsNumbers.

Lemma shr_1_m (r : shr_record) :
  0 <= shr_m r -> shr_m (shr_1 r) = Z.div2 (shr_m r).
Proof.
  destruct r as [m rb sb]; cbn [shr_m shr_1].
  destruct m as [|[p|p|]|p]; intros H; try reflexivity; lia.
Qed.

Lemma iter_shr_1_m (k : positive) :
  forall r : shr_record,
    0 <= shr_m r ->
    shr_m (iter_pos shr_1 k r) = Z.shiftr (shr_m r) (Zpos k).
Proof.
  assert (Hdiv2 : forall a, 0 <= a -> 0 <= Z.div2 a).
  { intros a Ha. rewrite Z.div2_div. apply Z.div_pos; lia. }
  assert (Hshr : forall a n, 0 <= a -> 0 <= n -> 0 <= Z.shiftr a n).
  { intros a n Ha Hn. apply Z.shiftr_nonneg. assumption. }
  assert (Hshr' : forall a n, 0 <= a -> 0 <= Z.shiftr a (Zpos n)).
  { intros a n Ha. apply Hshr; lia. }
  induction k as [k IH|k IH|]; intros r Hr; cbn [iter_pos].
  - assert (H1 : 0 <= shr_m (shr_1 r)) by (rewrite shr_1_m; auto).
    assert (H2 : 0 <= shr_m (iter_pos shr_1 k (shr_1 r)))
      by (rewrite IH; auto).
    rewrite (IH _ H2), (IH _ H1), shr_1_m by assumption.
    rewrite Z.div2_spec, !Z.shiftr_shiftr by lia.
    f_equal; lia.
  - assert (H2 : 0 <= shr_m (iter_pos shr_1 k r)) by (rewrite IH; auto).
    rewrite (IH _ H2), (IH _ Hr), Z.shiftr_shiftr by lia.
    f_equal; lia.
  - rewrite shr_1_m by assumption. apply Z.div2_spec.
Qed.

Lemma digits2_pos_lower (m : positive) :
  2 ^ (Zpos (digits2_pos m) - 1) <= Zpos m.
Proof.
  induction m as [m IH|m IH|]; cbn [digits2_pos].
  - rewrite Pos2Z.inj_succ. replace (Z.succ (Zpos (digits2_pos m)) - 1)
      with (Z.succ (Zpos (digits2_pos m) - 1)) by lia.
    rewrite Z.pow_succ_r by lia. lia.
  - rewrite Pos2Z.inj_succ. replace (Z.succ (Zpos (digits2_pos m)) - 1)
      with (Z.succ (Zpos (digits2_pos m) - 1)) by lia.
    rewrite Z.pow_succ_r by lia. lia.
  - reflexivity.
Qed.

Lemma shiftr_positive (m k : positive) :
  Zpos k < Zpos (digits2_pos m) -> 0 < Z.shiftr (Zpos m) (Zpos k).
Proof.
  intros H. rewrite Z.shiftr_div_pow2 by lia.
  apply Z.div_str_pos. split; [apply Z.pow_pos_nonneg; lia|].
  apply Z.le_trans with (2 ^ (Zpos (digits2_pos m) - 1)).
  - apply Z.pow_le_mono_r; lia.
  - apply digits2_pos_lower.
Qed.

Lemma shr_record_of_loc_m (m : Z) (l : location) :
  shr_m (shr_record_of_loc m l) = m.
Proof. destruct l as [|[]]; reflexivity. Qed.

Lemma shr_fexp_positive (m : positive) (e : Z) (l : location) :
  emin prec emax <= e ->
  exists m',
    shr_m (fst (shr_fexp prec emax (Zpos m) e l)) = Zpos m'
    /\ e <= snd (shr_fexp prec emax (Zpos m) e l).
Proof.
  unfold shr_fexp, shr, fexp, emin, prec, emax. cbn [Zdigits2]. intros He.
  destruct (Z.max (Zpos (digits2_pos m) + e - 53) (3 - 1024 - 53) - e)
    as [|k|k] eqn:Ek; cbn [fst snd].
  - exists m. rewrite shr_record_of_loc_m. split; [reflexivity | lia].
  - rewrite iter_shr_1_m by (rewrite shr_record_of_loc_m; lia).
    rewrite shr_record_of_loc_m.
    assert (Hpos : 0 < Z.shiftr (Zpos m) (Zpos k)).
    { apply shiftr_positive. lia. }
    destruct (Z.shiftr (Zpos m) (Zpos k)) as [|m'|m']; try lia.
    exists m'. split; [reflexivity | lia].
  - exists m. rewrite shr_record_of_loc_m. split; [reflexivity | lia].
Qed.

Lemma round_nearest_even_positive (m : positive) (l : location) :
  exists m', round_nearest_even (Zpos m) l = Zpos m'.
Proof.
  destruct l as [|[]]; cbn [round_nearest_even];
    try destruct (Z.even (Zpos m)); eauto;
    exists (m + 1)%positive; reflexivity.
Qed.

Lemma binary_round_aux_positive (sx : bool) (m : positive) (e : Z) (l : location) :
  emin prec emax <= e ->
  (exists m' e', binary_round_aux prec emax sx (Zpos m) e l = S754_finite sx m' e')
  \/ binary_round_aux prec emax sx (Zpos m) e l = S754_infinity sx.
Proof.
  intros He. unfold binary_round_aux.
  destruct (shr_fexp_positive m e l He) as (m1 & Hm1 & He1).
  destruct (shr_fexp prec emax (Zpos m) e l) as [mrs' e'].
  cbn [fst snd] in Hm1, He1. rewrite Hm1.
  destruct (round_nearest_even_positive m1 (loc_of_shr_record mrs'))
    as (m2 & ->).
  assert (He' : emin prec emax <= e') by lia.
  destruct (shr_fexp_positive m2 e' loc_Exact He') as (m3 & Hm3 & _).
  destruct (shr_fexp prec emax (Zpos m2) e' loc_Exact) as [mrs'' e''].
  cbn [fst] in Hm3. rewrite Hm3.
  destruct (e'' <=? emax - prec); eauto.
Qed.

(** A positive integer is a positive number, possibly infinite. *)
Lemma of_Z_positive (p : positive) :
  (exists m e, of_Z (Zpos p) = S754_finite false m e)
  \/ of_Z (Zpos p) = S754_infinity false.
Proof.
  unfold of_Z, binary_normalize, binary_round.
  destruct (shl_align p 0 (fexp prec emax (Zpos (digits2_pos p) + 0)))
    as [mz ez] eqn:E.
  apply binary_round_aux_positive.
  unfold shl_align in E.
  destruct (fexp prec emax (Zpos (digits2_pos p) + 0) - 0) eqn:Ef;
    inversion E; subst; unfold fexp, emin, prec, emax in *; lia.
Qed.

Lemma zero_div_of_nat (n : nat) :
  (0 < n)%nat -> div (of_Z 0) (of_nat n) = zero.
Proof.
  intros Hn. unfold of_nat.
  destruct (Z.of_nat n) as [|p|p] eqn:E; try lia.
  destruct (of_Z_positive p) as [(m & e & ->) | ->]; reflexivity.
Qed.

Lemma eqb_refl (x : number) : isNaN x = false -> eqb x x = true.
Proof.
  unfold eqb, SFeqb, SFcompare.
  destruct x as [[]|[]| |[] m e]; try reflexivity; try discriminate; intros _;
    change (Pos.compare_cont Eq) with Pos.compare;
    rewrite Z.compare_refl, Pos.compare_refl; reflexivity.
Qed.

End IntegersAsNumbers.

(** ** Scoring a route against the crowd zones *)

Section Scoring.

Import Router.

Lemma countIntersectionPoints_from (route : list Point) (z : Zone.t) :
  forall n : Z,
    fold_left
      (fun intersectionPoints point =>
         if leb (Grid.distance point (Zone.center z)) (Zone.radius z)
         then intersectionPoints + 1
         else intersectionPoints)
      route n
    = n + pointsWithin route z.
Proof.
  unfold pointsWithin.
  induction route as [|p route IH]; intros n; cbn [fold_left filter].
  - cbn [length]. lia.
  - rewrite IH. unfold withinZone at 2. fold (Grid.distance p (Zone.center z)).
    destruct (leb _ _); cbn [length]; lia.
Qed.

Lemma countIntersectionPoints_filter (route : list Point) (z : Zone.t) :
  countIntersectionPoints route z = pointsWithin route z.
Proof.
  unfold countIntersectionPoints. rewrite countIntersectionPoints_from.
  reflexivity.
Qed.

Lemma analyzeZone_step (route : list Point) (acc : number * option WorstZone.t)
    (z : Zone.t) :
  analyzeZone route acc z =
  (add (fst acc) (zoneScore route z),
   match snd acc with
   | None => Some (worstZoneEntry route z)
   | Some w =>
       if gtb (WorstZone.intersectionRatio (worstZoneEntry route z))
              (WorstZone.intersectionRatio w)
       then Some (worstZoneEntry route z)
       else snd acc
   end).
Proof.
  destruct acc as [total worst]. unfold analyzeZone.
  rewrite countIntersectionPoints_filter. reflexivity.
Qed.

Lemma analyze_total (route : list Point) (zones : list Zone.t) :
  forall acc,
    fst (fold_left (analyzeZone route) zones acc) =
    fold_left (fun sum z => add sum (zoneScore route z)) zones (fst acc).
Proof.
  induction zones as [|z zones IH]; intros acc; [reflexivity|].
  cbn [fold_left]. rewrite IH, analyzeZone_step. reflexivity.
Qed.

Lemma analyze_worst_some (route : list Point) (zones : list Zone.t) :
  forall total w,
    exists w',
      snd (fold_left (analyzeZone route) zones (total, Some w)) = Some w'.
Proof.
  induction zones as [|z zones IH]; intros total w; [eexists; reflexivity|].
  cbn [fold_left]. rewrite analyzeZone_step. cbn [fst snd].
  destruct (gtb _ _); apply IH.
Qed.

(** A zone that no later zone beats stays the worst one. *)
Lemma analyze_worst_kept (route : list Point) (zones : list Zone.t) :
  forall total w,
    (forall z, In z zones ->
       gtb (WorstZone.intersectionRatio (worstZoneEntry route z))
           (WorstZone.intersectionRatio w) = false) ->
    snd (fold_left (analyzeZone route) zones (total, Some w)) = Some w.
Proof.
  induction zones as [|z zones IH]; intros total w H; [reflexivity|].
  cbn [fold_left]. rewrite analyzeZone_step. cbn [fst snd].
  rewrite (H z) by (left; reflexivity).
  apply IH. intros z' Hz'. apply H. right; assumption.
Qed.

Lemma analyzeCrowdIntersections_fields (route : list Point) (zones : list Zone.t) :
  analyzeCrowdIntersections route zones =
  let acc := fold_left (analyzeZone route) zones (zero, None) in
  {| Intersections.totalIntersection := fst acc;
     Intersections.worstZone := snd acc;
     Intersections.averageIntersection :=
       or_else (div (fst acc) (of_nat (length zones))) zero |}.
Proof.
  unfold analyzeCrowdIntersections.
  destruct (fold_left (analyzeZone route) zones (zero, None)); reflexivity.
Qed.

End Scoring.

(** C5, as the code has it.  [totalIntersection] is the sum over the zones,
    in order and from 0, of the number of route points within the radius of
    the zone, divided by the length of the route and multiplied by the weight
    of the zone.  [averageIntersection] is [totalIntersection / zoneCount || 0]:
    it equals the quotient whenever the quotient is a number, and is 0 when
    the quotient is NaN, which happens for an empty zone list and also for an
    empty route.  On an empty zone list the result is total 0, average 0 and
    no worst zone.  One zone of weight 20 holding 5 points of a 10-point route
    gives a total of 10. *)
Theorem analyzeCrowdIntersections_scores :
  forall (route : list Point) (zones : list Zone.t),
    let r := Router.analyzeCrowdIntersections route zones in
    let quotient :=
      div (Intersections.totalIntersection r) (of_nat (length zones)) in
    Intersections.totalIntersection r = sumOfScores route zones
    /\ Intersections.averageIntersection r = or_else quotient zero
    /\ (isNaN quotient = false ->
        eqb (Intersections.averageIntersection r) quotient = true)
    /\ (isNaN quotient = true -> Intersections.averageIntersection r = zero)
    /\ (zones = [] ->
        Intersections.totalIntersection r = zero
        /\ Intersections.averageIntersection r = zero
        /\ Intersections.worstZone r = None)
    /\ (forall z : Zone.t,
          zones = [z] -> length route = 10%nat ->
          pointsWithin route z = 5 -> Zone.weight z = 20 ->
          Intersections.totalIntersection r = of_Z 10).
Proof.
  intros route zones r quotient. subst quotient r.
  rewrite analyzeCrowdIntersections_fields. cbv zeta.
  cbn [Intersections.totalIntersection Intersections.averageIntersection
       Intersections.worstZone].
  rewrite analyze_total. cbn [fst]. fold (sumOfScores route zones).
  split; [reflexivity|]. split; [reflexivity|].
  set (quotient := div (sumOfScores route zones) (of_nat (length zones))).
  split; [|split; [|split]].
  - intros Hnan. unfold or_else.
    destruct quotient as [s|s| |s m e] eqn:E; cbn [truthy]; try discriminate.
    + reflexivity.
    + apply eqb_refl; reflexivity.
    + apply eqb_refl; reflexivity.
  - intros Hnan. unfold or_else.
    destruct quotient; try discriminate. reflexivity.
  - intros ->. subst quotient. repeat split; reflexivity.
  - intros z -> Hlen Hpts Hw. unfold sumOfScores, zoneScore. cbn [fold_left].
    rewrite Hlen, Hpts, Hw. reflexivity.
Qed.

Lemma analyzeCrowdIntersections_scores_witness :
  let z := {| Zone.center := (of_Z 0, of_Z 0); Zone.radius := decimal 3 1000;
              Zone.population := 10; Zone.weight := 20 |} in
  let inside := (decimal 1 1000, of_Z 0) in
  let outside := (of_Z 1, of_Z 1) in
  Intersections.totalIntersection
    (Router.analyzeCrowdIntersections
       [inside; inside; inside; inside; inside;
        outside; outside; outside; outside; outside] [z])
  = of_Z 10.
Proof.
  intros z inside outside.
  apply (proj2 (proj2 (proj2 (proj2 (proj2
           (analyzeCrowdIntersections_scores _ [z])))))) with (z := z);
    vm_compute; reflexivity.
Defined.

(** C5 as stated fails for an empty route: with one zone the total is NaN
    ([0 / 0] times the weight), the quotient by the zone count is NaN, and
    the average is 0. *)
Lemma averageIntersection_of_empty_route :
  let z := {| Zone.center := (of_Z 0, of_Z 0); Zone.radius := decimal 3 1000;
              Zone.population := 10; Zone.weight := 20 |} in
  let r := Router.analyzeCrowdIntersections [] [z] in
  Intersections.totalIntersection r = S754_nan
  /\ div (Intersections.totalIntersection r) (of_nat 1) = S754_nan
  /\ Intersections.averageIntersection r = zero
  /\ Intersections.averageIntersection r
     <> div (Intersections.totalIntersection r) (of_nat 1)
  /\ eqb (Intersections.averageIntersection r)
         (div (Intersections.totalIntersection r) (of_nat 1)) = false.
Proof.
  vm_compute. repeat split; try reflexivity. discriminate.
Qed.

(** An empty route reaches the scoring when the provider answers with a
    geometry of no coordinates: an empty array is truthy, so the direct and
    the avoidance candidates are pushed, each with a total of NaN. *)
Lemma empty_route_is_scored :
  let z := {| Zone.center := (of_Z 0, of_Z 0); Zone.radius := decimal 3 1000;
              Zone.population := 10; Zone.weight := 20 |} in
  let candidates :=
    Router.getMultipleRoutes emptyGeometry (of_Z 0, of_Z 0) (of_Z 1, of_Z 1) [z] in
  map Candidate.route candidates = [[]; []]
  /\ map Candidate.type candidates = [direct; avoidance]
  /\ map total candidates = [S754_nan; S754_nan].
Proof. vm_compute. repeat split; reflexivity. Qed.

(** C10, as the code has it.  The worst zone is absent exactly when the zone
    list is empty.  When no point of the route lies inside any zone, the worst
    zone is the first zone of the list with point count 0 and the ratio
    [0 / route.length], which is 0 for a route that has points. *)
Theorem worstZone_with_no_point_inside :
  forall (route : list Point) (zones : list Zone.t),
    let r := Router.analyzeCrowdIntersections route zones in
    (Intersections.worstZone r = None <-> zones = [])
    /\ (forall (z : Zone.t) (rest : list Zone.t),
          zones = z :: rest ->
          (forall z', In z' zones -> pointsWithin route z' = 0) ->
          Intersections.worstZone r
          = Some {| WorstZone.zone := z;
                    WorstZone.intersectionRatio :=
                      div (of_Z 0) (of_nat (length route));
                    WorstZone.intersectionPoints := 0 |})
    /\ (route <> [] -> div (of_Z 0) (of_nat (length route)) = zero).
Proof.
  intros route zones r. subst r.
  rewrite analyzeCrowdIntersections_fields. cbv zeta.
  cbn [Intersections.worstZone]. split; [|split].
  - destruct zones as [|z rest]; [split; reflexivity|].
    cbn [fold_left]. rewrite analyzeZone_step. cbn [fst snd].
    destruct (analyze_worst_some route rest (add zero (zoneScore route z))
                (worstZoneEntry route z)) as [w' ->].
    split; discriminate.
  - intros z rest -> Hnone.
    cbn [fold_left]. rewrite analyzeZone_step. cbn [fst snd].
    rewrite analyze_worst_kept.
    + unfold worstZoneEntry. rewrite (Hnone z) by (left; reflexivity).
      reflexivity.
    + intros z' Hz'. unfold worstZoneEntry.
      cbn [WorstZone.intersectionRatio].
      rewrite (Hnone z) by (left; reflexivity).
      rewrite (Hnone z') by (right; assumption).
      apply ltb_irrefl.
  - intros Hroute. apply zero_div_of_nat.
    destruct route; [congruence | cbn [length]; lia].
Qed.

Lemma worstZone_with_no_point_inside_witness :
  let z1 := {| Zone.center := (of_Z 0, of_Z 0); Zone.radius := decimal 3 1000;
               Zone.population := 10; Zone.weight := 20 |} in
  let z2 := {| Zone.center := (of_Z 2, of_Z 2); Zone.radius := decimal 1 1000;
               Zone.population := 3; Zone.weight := 5 |} in
  let route := [(of_Z 1, of_Z 1); (of_Z 1, of_Z 3)] in
  Intersections.worstZone (Router.analyzeCrowdIntersections route [z1; z2])
  = Some {| WorstZone.zone := z1;
            WorstZone.intersectionRatio := div (of_Z 0) (of_nat (length route));
            WorstZone.intersectionPoints := 0 |}
  /\ div (of_Z 0) (of_nat (length route)) = zero.
Proof.
  intros z1 z2 route. split.
  - apply (proj1 (proj2 (worstZone_with_no_point_inside route [z1; z2])))
      with (rest := [z2]); [reflexivity|].
    intros z' [<- | [<- | []]]; vm_compute; reflexivity.
  - apply (proj2 (proj2 (worstZone_with_no_point_inside route [z1; z2]))).
    discriminate.
Defined.

(** C10 as stated fails for an empty route: no point lies inside the zone,
    and the ratio recorded for the worst zone is NaN, not 0. *)
Lemma worstZone_ratio_of_empty_route :
  let z := {| Zone.center := (of_Z 0, of_Z 0); Zone.radius := decimal 3 1000;
              Zone.population := 10; Zone.weight := 20 |} in
  pointsWithin [] z = 0
  /\ Intersections.worstZone (Router.analyzeCrowdIntersections [] [z])
     = Some {| WorstZone.zone := z;
               WorstZone.intersectionRatio := S754_nan;
               WorstZone.intersectionPoints := 0 |}
  /\ eqb S754_nan zero = false.
Proof. vm_compute. repeat split; reflexivity. Qed.

(** ** Selecting the best route *)

Section Selection.

Lemma bestOf_first (c : Candidate.t) : bestOf [c] (0%nat, c).
Proof.
  repeat split; cbn [fst snd].
  - intros c' [<- | []]. apply ltb_irrefl.
  - intros j c' Hj. lia.
Qed.

Lemma bestOf_step (seen : list Candidate.t) (best : nat * Candidate.t)
    (c : Candidate.t) :
  bestOf seen best -> bestOf (seen ++ [c]) (better best (length seen, c)).
Proof.
  intros (Hnth & Hmin & Hfirst). unfold better. cbn [fst snd].
  assert (Hlt : (fst best < length seen)%nat).
  { apply nth_error_Some. congruence. }
  destruct (ltb (total c) (total (snd best))) eqn:E; repeat split; cbn [fst snd].
  - rewrite nth_error_app2, Nat.sub_diag by lia. reflexivity.
  - intros c' Hin. apply in_app_or in Hin. destruct Hin as [Hin | [<- | []]].
    + destruct (ltb (total c') (total c)) eqn:E'; [|reflexivity].
      rewrite <- (Hmin c' Hin). symmetry. eapply ltb_trans; eassumption.
    + apply ltb_irrefl.
  - intros j c' Hj Hc'. rewrite nth_error_app1 in Hc' by assumption.
    apply nth_error_In in Hc'.
    destruct (leb (total c') (total c)) eqn:E'; [|reflexivity].
    rewrite <- (Hmin c' Hc'). symmetry. eapply leb_ltb_trans; eassumption.
  - rewrite nth_error_app1 by assumption. assumption.
  - intros c' Hin. apply in_app_or in Hin. destruct Hin as [Hin | [<- | []]].
    + apply Hmin; assumption.
    + assumption.
  - intros j c' Hj Hc'. rewrite nth_error_app1 in Hc' by lia.
    eapply Hfirst; eassumption.
Qed.

Lemma bestOf_fold (rest : list Candidate.t) :
  forall (seen : list Candidate.t) (best : nat * Candidate.t),
    bestOf seen best ->
    bestOf (seen ++ rest)
           (fold_left better (combine (seq (length seen) (length rest)) rest)
                      best).
Proof.
  induction rest as [|c rest IH]; intros seen best H.
  - rewrite app_nil_r. exact H.
  - cbn [length seq combine fold_left].
    replace (seen ++ c :: rest) with ((seen ++ [c]) ++ rest)
      by (rewrite <- app_assoc; reflexivity).
    replace (S (length seen)) with (length (seen ++ [c]))
      by (rewrite length_app; cbn [length]; lia).
    apply IH, bestOf_step, H.
Qed.

Lemma selectBestRoute_bestOf (routes : list Candidate.t) :
  match selectBestRoute routes with
  | Some best => bestOf routes best
  | None => routes = []
  end.
Proof.
  unfold selectBestRoute, reduce, indexed.
  destruct routes as [|c rest]; [reflexivity|].
  cbn [length seq combine].
  change (fun best current : nat * Candidate.t =>
            if ltb (total (snd current)) (total (snd best))
            then current else best) with better.
  apply (bestOf_fold rest [c] (0%nat, c)), bestOf_first.
Qed.

End Selection.

(** C6, as the code has it.  Over a non-empty list of candidates the
    selection returns a candidate of the list such that no candidate has a
    [totalIntersection] that compares strictly below its own and no earlier
    candidate has one that compares below or equal: this is the minimum, and
    among equal minima the earliest, whenever no total is NaN.  A NaN total
    compares false with every number, so a candidate with a NaN total is
    neither replaced nor chosen by the comparison.  [calculateRoute] shows the
    selected candidate, with its index and its statistics; over an empty list
    it sets an empty route and no statistics, and raises nothing. *)
Theorem selectBestRoute_minimum :
  forall routes : list Candidate.t,
    (selectBestRoute routes = None <-> routes = [])
    /\ (forall (index : nat) (bestRoute : Candidate.t),
          selectBestRoute routes = Some (index, bestRoute) ->
          nth_error routes index = Some bestRoute
          /\ (forall c, In c routes -> ltb (total c) (total bestRoute) = false)
          /\ (forall j c, (j < index)%nat -> nth_error routes j = Some c ->
                          leb (total c) (total bestRoute) = false)
          /\ ((forall c, In c routes -> isNaN (total c) = false) ->
              forall c, In c routes -> leb (total bestRoute) (total c) = true))
    /\ (forall (fetch : Router.Provider) (populationGrid : Grid.t)
               (view : View.t) (start end_ : Point),
          View.start view = Some start -> View.end_ view = Some end_ ->
          Router.getMultipleRoutes fetch start end_
            (Grid.crowdZones populationGrid) = routes ->
          let view' := calculateRoute fetch populationGrid view in
          match selectBestRoute routes with
          | Some (index, bestRoute) =>
              View.currentRoute view' = Candidate.route bestRoute
              /\ View.selectedRouteIndex view' = index
              /\ View.routeOptions view' = routes
              /\ View.routeInfo view'
                 = Some (routeStatistics populationGrid bestRoute)
              /\ RouteInfo.crowdIntersection
                   (routeStatistics populationGrid bestRoute)
                 = total bestRoute
          | None =>
              View.currentRoute view' = [] /\ View.routeInfo view' = None
          end).
Proof.
  intros routes. pose proof (selectBestRoute_bestOf routes) as H.
  split; [|split].
  - destruct (selectBestRoute routes) as [best|].
    + split; [discriminate|]. intros ->.
      destruct H as [Hnth _]. destruct (fst best); discriminate.
    + split; auto.
  - intros index bestRoute E. rewrite E in H.
    destruct H as (Hnth & Hmin & Hfirst). cbn [fst snd] in *.
    repeat split; try assumption.
    intros Hnum c Hin. apply not_ltb_leb.
    + apply Hnum; assumption.
    + apply Hnum. eapply nth_error_In; eassumption.
    + apply Hmin; assumption.
  - intros fetch populationGrid view start end_ Hs He Hroutes view'.
    subst view'. unfold calculateRoute. rewrite Hs, He, Hroutes.
    destruct (selectBestRoute routes) as [[index bestRoute]|];
      repeat split; reflexivity.
Qed.

Lemma selectBestRoute_minimum_witness :
  let candidate (t : RouteType) (score : Z) :=
    {| Candidate.route := [(of_Z 0, of_Z 0); (of_Z 1, of_Z 1)];
       Candidate.type := t;
       Candidate.crowdIntersections :=
         {| Intersections.totalIntersection := of_Z score;
            Intersections.worstZone := None;
            Intersections.averageIntersection := of_Z score |} |} in
  let routes := [candidate direct 7; candidate avoidance 3;
                 candidate alternative 3] in
  nth_error routes 1 = Some (candidate avoidance 3)
  /\ (forall c, In c routes -> leb (total (candidate avoidance 3)) (total c) = true).
Proof.
  intros candidate routes.
  destruct (proj1 (proj2 (selectBestRoute_minimum routes))
              1%nat (candidate avoidance 3))
    as (Hnth & _ & _ & Hmin); [reflexivity|].
  split; [exact Hnth|].
  apply Hmin. intros c [<- | [<- | [<- | []]]]; reflexivity.
Defined.

(** C6 as stated fails when a total is NaN.  With one crowd zone, a provider
    whose first route has no coordinates and whose second route is one point
    far from the zone gives three candidates with the totals NaN, NaN and 0.
    The comparison [0 < NaN] is false, so [calculateRoute] keeps the direct
    candidate at index 0, whose total is not the minimum: it does not compare
    below or equal to the 0 of the alternative. *)
Lemma selectBestRoute_keeps_NaN_total :
  let populationGrid := mutations [AddPerson (of_Z 10) (of_Z 10) 5] in
  let fetch : Router.Provider :=
    fun _ alternatives =>
      Some {| Router.code_ok := true;
              Router.routes :=
                if alternatives then [[]; [(of_Z 50, of_Z 50)]] else [[]] |} in
  let view :=
    {| View.start := Some (of_Z 0, of_Z 0); View.end_ := Some (of_Z 1, of_Z 1);
       View.currentRoute := []; View.routeInfo := None;
       View.routeOptions := []; View.selectedRouteIndex := 0%nat |} in
  let view' := calculateRoute fetch populationGrid view in
  map Candidate.type (View.routeOptions view')
  = [direct; avoidance; alternative]
  /\ map Candidate.route (View.routeOptions view')
     = [[]; []; [(of_Z 50, of_Z 50)]]
  /\ map total (View.routeOptions view') = [S754_nan; S754_nan; zero]
  /\ View.selectedRouteIndex view' = 0%nat
  /\ View.currentRoute view' = []
  /\ leb S754_nan zero = false.
Proof. vm_compute. repeat split; reflexivity. Qed.

(** ** Avoidance waypoints *)

Section Avoidance.

Lemma worstOf_step (seen : list Zone.t) (worst current : Zone.t) :
  worstOf seen worst -> worstOf (seen ++ [current]) (worse worst current).
Proof.
  intros (before & after & Hseen & Hmax & Hfirst). unfold worse.
  destruct (Z.gtb_spec (Zone.weight current) (Zone.weight worst)) as [Hgt | Hle].
  - exists seen, []. split; [reflexivity|]. split.
    + intros z Hin. apply in_app_or in Hin.
      destruct Hin as [Hin | [<- | []]]; [|lia].
      specialize (Hmax z Hin). lia.
    + intros z Hin. specialize (Hmax z Hin). lia.
  - exists before, (after ++ [current]). split; [|split].
    + rewrite Hseen, <- app_assoc. reflexivity.
    + intros z Hin. apply in_app_or in Hin.
      destruct Hin as [Hin | [<- | []]]; [auto | lia].
    + assumption.
Qed.

Lemma worstOf_fold (rest : list Zone.t) :
  forall (seen : list Zone.t) (worst : Zone.t),
    worstOf seen worst -> worstOf (seen ++ rest) (fold_left worse rest worst).
Proof.
  induction rest as [|z rest IH]; intros seen worst H.
  - rewrite app_nil_r. exact H.
  - cbn [fold_left].
    replace (seen ++ z :: rest) with ((seen ++ [z]) ++ rest)
      by (rewrite <- app_assoc; reflexivity).
    apply IH, worstOf_step, H.
Qed.

Lemma findWorstZone_worstOf (zones : list Zone.t) :
  match Router.findWorstZone zones with
  | Some worst => worstOf zones worst
  | None => zones = []
  end.
Proof.
  unfold Router.findWorstZone, reduce.
  destruct zones as [|z rest]; [reflexivity|].
  change (fun worst current : Zone.t =>
            if Zone.weight current >? Zone.weight worst
            then current else worst) with worse.
  apply (worstOf_fold rest [z] z).
  exists [], []. split; [reflexivity|]. split.
  - intros z' [<- | []]. lia.
  - intros z' [].
Qed.

(** A finite number minus itself is [+0]. *)
Lemma sub_diag (x : number) : is_finite x = true -> sub x x = zero.
Proof.
  destruct x as [[]|s| |s m e]; try discriminate; intros _; try reflexivity.
  unfold sub, SFsub. rewrite Z.sub_diag. reflexivity.
Qed.

Lemma directLength_diag (p : Point) :
  is_finite (fst p) = true -> is_finite (snd p) = true ->
  directLength p p = zero.
Proof.
  intros H1 H2. unfold directLength. cbv zeta.
  rewrite (sub_diag _ H1), (sub_diag _ H2). reflexivity.
Qed.

End Avoidance.

(** C7, as the code has it.  [createAvoidanceWaypoints(start, end, zone)]
    returns no waypoint when the length it computes for the vector from
    [start] to [end] is 0, which is the case when [start] equals [end] (for
    finite coordinates); otherwise it returns exactly three waypoints, the
    centre of the zone moved along the perpendicular [(-dy, dx) / length] by
    0.002, 0.004 and 0.006 degrees, in that order.  The zone that
    [getAvoidanceRoute] passes is the first zone of maximum weight. *)
Theorem createAvoidanceWaypoints_cases :
  forall (start end_ : Point) (zone : Zone.t),
    (eqb (directLength start end_) zero = true ->
     Router.createAvoidanceWaypoints start end_ zone = [])
    /\ (start = end_ ->
        is_finite (fst start) = true -> is_finite (snd start) = true ->
        Router.createAvoidanceWaypoints start end_ zone = [])
    /\ (eqb (directLength start end_) zero = false ->
        Router.createAvoidanceWaypoints start end_ zone
        = [ offsetPoint start end_ zone (decimal 2 1000);
            offsetPoint start end_ zone (decimal 4 1000);
            offsetPoint start end_ zone (decimal 6 1000) ])
    /\ (forall zones : list Zone.t,
          (Router.findWorstZone zones = None <-> zones = [])
          /\ (forall worst : Zone.t,
                Router.findWorstZone zones = Some worst ->
                exists before after,
                  zones = before ++ worst :: after
                  /\ (forall z, In z zones ->
                                Zone.weight z <= Zone.weight worst)
                  /\ (forall z, In z before ->
                                Zone.weight z < Zone.weight worst))
          /\ (forall (fetch : Router.Provider) (worst : Zone.t),
                Router.findWorstZone zones = Some worst ->
                Router.getAvoidanceRoute fetch start end_ zones
                = Router.getAvoidanceRoute fetch start end_ [worst])).
Proof.
  intros start end_ zone.
  assert (Hzero : eqb (directLength start end_) zero = true ->
                  Router.createAvoidanceWaypoints start end_ zone = []).
  { intros H. unfold Router.createAvoidanceWaypoints. cbv zeta.
    fold (directLength start end_). rewrite H. reflexivity. }
  split; [exact Hzero|]. split; [|split].
  - intros <- H1 H2. apply Hzero. rewrite directLength_diag by assumption.
    reflexivity.
  - intros H. unfold Router.createAvoidanceWaypoints. cbv zeta.
    fold (directLength start end_). rewrite H. reflexivity.
  - intros zones. pose proof (findWorstZone_worstOf zones) as H.
    split; [|split].
    + destruct (Router.findWorstZone zones) as [worst|].
      * split; [discriminate|]. intros ->.
        destruct H as (before & after & Heq & _).
        destruct before; discriminate.
      * split; auto.
    + intros worst E. rewrite E in H. exact H.
    + intros fetch worst E. unfold Router.getAvoidanceRoute. rewrite E.
      reflexivity.
Qed.

Lemma createAvoidanceWaypoints_cases_witness :
  let zone := {| Zone.center := (of_Z 3, of_Z 4); Zone.radius := decimal 1 1000;
                 Zone.population := 5; Zone.weight := 5 |} in
  Router.createAvoidanceWaypoints (of_Z 1, of_Z 2) (of_Z 1, of_Z 2) zone = []
  /\ Router.createAvoidanceWaypoints (of_Z 1, of_Z 2) (of_Z 1, of_Z 3) zone
     = [ (add (of_Z 3) (neg (decimal 2 1000)), of_Z 4);
         (add (of_Z 3) (neg (decimal 4 1000)), of_Z 4);
         (add (of_Z 3) (neg (decimal 6 1000)), of_Z 4) ].
Proof.
  intros zone. split.
  - apply (proj1 (proj2 (createAvoidanceWaypoints_cases
                           (of_Z 1, of_Z 2) (of_Z 1, of_Z 2) zone)));
      reflexivity.
  - rewrite (proj1 (proj2 (proj2 (createAvoidanceWaypoints_cases
                                   (of_Z 1, of_Z 2) (of_Z 1, of_Z 3) zone))));
      reflexivity.
Defined.

(** C7 as stated fails when [start] and [end] differ by so little that the
    squares of the differences underflow: from [(0, 0)] to [(2^-600, 0)] the
    computed length is 0 and no waypoint is returned, though the two points
    differ. *)
Lemma createAvoidanceWaypoints_underflow :
  let zone := {| Zone.center := (of_Z 3, of_Z 4); Zone.radius := decimal 1 1000;
                 Zone.population := 5; Zone.weight := 5 |} in
  tiny = S754_finite false 4503599627370496 (-652)
  /\ eqb tiny zero = false
  /\ (zero, zero) <> (tiny, zero)
  /\ leb (of_Z (-90)) tiny = true /\ leb tiny (of_Z 90) = true
  /\ mul tiny tiny = zero
  /\ Router.createAvoidanceWaypoints (zero, zero) (tiny, zero) zone = [].
Proof.
  vm_compute. repeat split; try reflexivity. discriminate.
Qed.

(** * Further properties of the code *)

(** ** Populated areas *)

Section PopulatedAreas.

Import Grid.

Lemma getPopulatedAreas_filter (g : t) :
  getPopulatedAreas g = map areaOfCell (filter populated (populations g)).
Proof.
  unfold getPopulatedAreas.
  induction (populations g) as [|[key population] rest IH]; [reflexivity|].
  cbn [flat_map filter]. unfold populated at 1. cbn [snd].
  destruct (0 <? population); rewrite IH; reflexivity.
Qed.

Lemma map_get_Some_In (key : Key) (v : Z) (m : PopMap) :
  map_get key m = Some v -> In (key, v) m.
Proof.
  induction m as [|[k w] rest IH]; cbn [map_get]; [discriminate|].
  destruct (key_eqb key k) eqn:E.
  - apply key_eqb_eq in E. subst k. intros H; inversion H; left; reflexivity.
  - intros H. right. apply IH, H.
Qed.

Lemma get_or_zero_In (key : Key) (v : Z) (m : PopMap) :
  NoDup (map fst m) -> In (key, v) m -> get_or_zero key m = v.
Proof.
  intros Hnd Hin. unfold get_or_zero. rewrite (map_get_In _ _ _ Hnd Hin).
  destruct (Z.eqb_spec v 0); congruence.
Qed.

(** The cells of positive population keep pairwise distinct keys. *)
Lemma populated_keys_NoDup (cells : PopMap) :
  NoDup (map fst cells) -> NoDup (map fst (filter populated cells)).
Proof.
  induction cells as [|cell cells IH]; intros H; [constructor|].
  cbn [map] in H. inversion H as [|? ? Hnotin Hnd]; subst.
  cbn [filter]. destruct (populated cell); [|auto].
  cbn [map]. constructor; [|auto].
  intros Hin. apply Hnotin. apply in_map_iff in Hin.
  destruct Hin as (c & Hc & Hin). apply filter_In in Hin.
  rewrite <- Hc. apply in_map. tauto.
Qed.

End PopulatedAreas.

(** ** Adding persons in any order, and only ever adding *)

Lemma countsAdded_Permutation (calls calls' : list Call) (lat lng : number) :
  Permutation calls calls' ->
  countsAdded calls lat lng = countsAdded calls' lat lng.
Proof.
  induction 1 as [|[[la ln] c] l l' _ IH|[[la ln] c] [[la' ln'] c'] l|l l' l'' _ IH1 _ IH2];
    cbn [countsAdded]; lia.
Qed.

Section OnlyAdding.

Import Grid.

(** Raising the value of a key keeps every crowded key crowded. *)
Lemma crowded_keys_map_set (key : Key) (v : Z) (m : PopMap) :
  get_or_zero key m <= v ->
  incl (map fst (filter crowded m)) (map fst (filter crowded (map_set key v m))).
Proof.
  induction m as [|[k w] rest IH]; intros Hle;
    [cbn [filter map]; intros x Hx; contradiction|].
  unfold get_or_zero in Hle. cbn [map_get map_set] in *.
  destruct (key_eqb key k) eqn:E.
  - cbn [filter]. unfold crowded. cbn [snd].
    assert (Hw : w <= v) by (destruct (Z.eqb_spec w 0); lia).
    destruct (Z.leb_spec 3 w), (Z.leb_spec 3 v); try lia;
      cbn [map fst]; intros x Hx; cbn [In] in *; tauto.
  - cbn [filter]. destruct (crowded (k, w)); cbn [map fst].
    + intros x [Hx | Hx]; [left; exact Hx | right; apply IH; assumption].
    + apply IH; assumption.
Qed.

End OnlyAdding.

(** X3.  Adding a person with a count of 0 or more never lowers the
    population read at any coordinates and never removes a crowd zone: every
    centre that had a zone still has one, so the number of zones does not
    decrease. *)
Theorem addPerson_keeps_zones :
  forall (ms : list Mutation) (lat lng : number) (count : Z),
    0 <= count ->
    let g := mutations ms in
    let g' := fst (Grid.addPerson g lat lng count) in
    (forall lat' lng' : number,
        Grid.getPopulation g lat' lng' <= Grid.getPopulation g' lat' lng')
    /\ incl (map Zone.center (Grid.crowdZones g))
            (map Zone.center (Grid.crowdZones g'))
    /\ (length (Grid.crowdZones g) <= length (Grid.crowdZones g'))%nat.
Proof.
  intros ms lat lng count Hcount g g'.
  assert (Hincl : incl (map Zone.center (Grid.crowdZones g))
                       (map Zone.center (Grid.crowdZones g'))).
  { destruct (zonesFollowCells_mutations ms) as [Hzones _]. fold g in Hzones.
    subst g'. unfold Grid.addPerson. cbn [fst].
    rewrite crowdZones_updateCrowdZones, Hzones, !map_map. cbn [Grid.populations].
    change (fun x => Zone.center (zoneOfCell g x)) with (@fst Grid.Key Z).
    match goal with
    | |- incl _ (map ?f _) => change f with (@fst Grid.Key Z)
    end.
    apply crowded_keys_map_set. lia. }
  split; [|split].
  - intros lat' lng'. subst g'. rewrite getPopulation_addPerson.
    destruct (Grid.key_eqb _ _); lia.
  - exact Hincl.
  - rewrite <- (length_map Zone.center (Grid.crowdZones g)).
    rewrite <- (length_map Zone.center (Grid.crowdZones g')).
    apply NoDup_incl_length; [apply crowdZones_centers_NoDup | exact Hincl].
Qed.

Lemma addPerson_keeps_zones_witness :
  let g := mutations [AddPerson (of_Z 1) (of_Z 2) 5] in
  incl (map Zone.center (Grid.crowdZones g))
       (map Zone.center
          (Grid.crowdZones (fst (Grid.addPerson g (of_Z 3) (of_Z 4) 2)))).
Proof.
  intros g.
  exact (proj1 (proj2 (addPerson_keeps_zones
                         [AddPerson (of_Z 1) (of_Z 2) 5] (of_Z 3) (of_Z 4) 2
                         ltac:(lia)))).
Defined.

(** ** More on the order and the signs of numbers *)

Section NumberSigns.

Local Ltac compare_cases :=
  repeat match goal with
         | |- context [Z.compare ?a ?b] =>
             destruct (Z.compare_spec a b)
         | |- context [Pos.compare ?a ?b] =>
             destruct (Pos.compare_spec a b)
         end;
  simpl; intros; subst;
  first [ reflexivity | discriminate | lia ].

Local Ltac three_numbers x y z :=
  destruct x as [[]|[]| |[] ? ?], y as [[]|[]| |[] ? ?],
           z as [[]|[]| |[] ? ?];
  simpl; try (intros; first [ reflexivity | discriminate ]);
  change (Pos.compare_cont Eq) with Pos.compare;
  compare_cases.

Lemma ltb_leb_trans (x y z : number) :
  ltb x y = true -> leb y z = true -> ltb x z = true.
Proof. unfold leb, ltb, SFleb, SFltb, SFcompare. three_numbers x y z. Qed.

Lemma leb_trans (x y z : number) :
  leb x y = true -> leb y z = true -> leb x z = true.
Proof. unfold leb, SFleb, SFcompare. three_numbers x y z. Qed.

Lemma ltb_leb (x y : number) : ltb x y = true -> leb x y = true.
Proof.
  unfold ltb, leb, SFltb, SFleb. destruct (SFcompare x y) as [[]|];
    intros; first [ reflexivity | discriminate ].
Qed.

Lemma signFalse_not_below_zero (x : number) :
  signFalse x = true -> ltb x zero = false.
Proof. destruct x as [[]|[]| |[] m e]; intros H; try reflexivity; discriminate. Qed.

Lemma signFalse_binary_round_aux (m e : Z) (l : location) :
  signFalse (binary_round_aux prec emax false m e l) = true.
Proof.
  unfold binary_round_aux.
  destruct (shr_fexp prec emax m e l) as [mrs' e'].
  destruct (shr_fexp prec emax _ e' loc_Exact) as [mrs'' e''].
  destruct (shr_m mrs''); try reflexivity.
  destruct (e'' <=? emax - prec); reflexivity.
Qed.

Lemma signFalse_of_Z (z : Z) : 0 <= z -> signFalse (of_Z z) = true.
Proof.
  intros Hz. destruct z as [|p|p]; try lia; [reflexivity|].
  unfold of_Z, binary_normalize, binary_round.
  destruct (shl_align p 0 _) as [mz ez]. apply signFalse_binary_round_aux.
Qed.

Lemma signFalse_of_nat (n : nat) : signFalse (of_nat n) = true.
Proof. apply signFalse_of_Z. lia. Qed.

Lemma signFalse_mul (x y : number) :
  signFalse x = true -> signFalse y = true -> signFalse (mul x y) = true.
Proof.
  destruct x as [[]|[]| |[] mx ex], y as [[]|[]| |[] my ey];
    intros Hx Hy; try discriminate; try reflexivity.
  apply signFalse_binary_round_aux.
Qed.

Lemma signFalse_div (x y : number) :
  signFalse x = true -> signFalse y = true -> signFalse (div x y) = true.
Proof.
  destruct x as [[]|[]| |[] mx ex], y as [[]|[]| |[] my ey];
    intros Hx Hy; try discriminate; try reflexivity.
  unfold div, SFdiv.
  destruct (SFdiv_core_binary prec emax (Zpos mx) ex (Zpos my) ey)
    as [[mz ez] lz].
  apply signFalse_binary_round_aux.
Qed.

Lemma signFalse_add (x y : number) :
  signFalse x = true -> signFalse y = true -> signFalse (add x y) = true.
Proof.
  destruct x as [[]|[]| |[] mx ex], y as [[]|[]| |[] my ey];
    intros Hx Hy; try discriminate; try reflexivity.
  unfold add, SFadd, cond_Zopp.
  match goal with
  | |- context [binary_normalize _ _ (Zpos ?a + Zpos ?b)] =>
      change (Zpos a + Zpos b) with (Zpos (a + b))
  end.
  unfold binary_normalize, binary_round.
  destruct (shl_align _ _ _) as [mz ez]. apply signFalse_binary_round_aux.
Qed.

Lemma signFalse_sqrt (x : number) :
  signFalse x = true -> signFalse (sqrt x) = true.
Proof.
  destruct x as [[]|[]| |[] mx ex]; intros Hx; try discriminate;
    try reflexivity.
  unfold sqrt, SFsqrt.
  destruct (SFsqrt_core_binary prec emax (Zpos mx) ex) as [[mz ez] lz].
  apply signFalse_binary_round_aux.
Qed.

Lemma signFalse_square (x : number) : signFalse (square x) = true.
Proof.
  destruct x as [[]|[]| |[] mx ex]; try reflexivity;
    apply signFalse_binary_round_aux.
Qed.

Lemma signFalse_distance (p q : number * number) :
  signFalse (Grid.distance p q) = true.
Proof.
  unfold Grid.distance.
  apply signFalse_sqrt, signFalse_add; apply signFalse_square.
Qed.

(** [Math.max(0, x)] is never below zero. *)
Lemma max_zero_not_below_zero (x : number) :
  ltb (Number.max zero x) zero = false.
Proof.
  destruct x as [[]|[]| |[] mx ex]; reflexivity.
Qed.

End NumberSigns.

(** ** The worst zone of a route, in general *)

Section WorstZoneInGeneral.

Import Router.

Variable route : list Point.

Lemma worstSoFar_first (z : Zone.t) :
  worstSoFar route [z] (worstZoneEntry route z).
Proof.
  exists [], []. cbn [worstZoneEntry WorstZone.zone app].
  repeat split.
  - intros z' [<- | []]. apply ltb_irrefl.
  - intros z' [].
Qed.

Lemma worstSoFar_step (seen : list Zone.t) (w : WorstZone.t) (z : Zone.t) :
  worstSoFar route seen w ->
  worstSoFar route (seen ++ [z])
    (if gtb (WorstZone.intersectionRatio (worstZoneEntry route z))
            (WorstZone.intersectionRatio w)
     then worstZoneEntry route z else w).
Proof.
  intros (before & after & Hseen & Hw & Hmax & Hfirst).
  unfold gtb in *.
  destruct (ltb (WorstZone.intersectionRatio w) _) eqn:E.
  - exists seen, []. change (WorstZone.zone (worstZoneEntry route z)) with z.
    repeat split; try unfold gtb.
    + intros z' Hin. apply in_app_or in Hin. destruct Hin as [Hin | [<- | []]].
      * destruct (ltb (WorstZone.intersectionRatio (worstZoneEntry route z))
                      (WorstZone.intersectionRatio (worstZoneEntry route z')))
          eqn:E'; [|reflexivity].
        rewrite <- (Hmax z' Hin). symmetry. eapply ltb_trans; eassumption.
      * apply ltb_irrefl.
    + intros z' Hin.
      destruct (leb (WorstZone.intersectionRatio (worstZoneEntry route z))
                    (WorstZone.intersectionRatio (worstZoneEntry route z')))
        eqn:E'; [|reflexivity].
      rewrite <- (Hmax z' Hin). symmetry. eapply ltb_leb_trans; eassumption.
  - exists before, (after ++ [z]). repeat split; try unfold gtb.
    + rewrite Hseen, <- app_assoc. reflexivity.
    + assumption.
    + intros z' Hin. apply in_app_or in Hin. destruct Hin as [Hin | [<- | []]].
      * apply Hmax; assumption.
      * assumption.
    + assumption.
Qed.

Lemma worstSoFar_fold (rest : list Zone.t) :
  forall (seen : list Zone.t) (total : number) (w : WorstZone.t),
    worstSoFar route seen w ->
    exists w',
      snd (fold_left (analyzeZone route) rest (total, Some w)) = Some w'
      /\ worstSoFar route (seen ++ rest) w'.
Proof.
  induction rest as [|z rest IH]; intros seen total w H.
  - exists w. rewrite app_nil_r. split; [reflexivity | exact H].
  - cbn [fold_left]. rewrite analyzeZone_step. cbn [fst snd].
    replace (seen ++ z :: rest) with ((seen ++ [z]) ++ rest)
      by (rewrite <- app_assoc; reflexivity).
    pose proof (worstSoFar_step seen w z H) as Hstep.
    destruct (gtb _ _); apply IH; exact Hstep.
Qed.

Lemma pointsWithin_bounds (z : Zone.t) :
  0 <= pointsWithin route z <= Z.of_nat (length route).
Proof.
  unfold pointsWithin.
  pose proof (filter_length_le (fun point => withinZone point z) route). lia.
Qed.

End WorstZoneInGeneral.

(** X5.  For every route and every list of zones, [worstZone] is absent only
    for the empty list; otherwise it is the entry of the first zone of
    greatest intersection ratio: it carries a zone of the list with that
    zone's own point count (between 0 and the length of the route) and the
    count divided by the length of the route, no zone of the list has a
    strictly greater ratio, and no zone before it has a ratio as great. *)
Theorem worstZone_first_of_greatest_ratio :
  forall (route : list Point) (zones : list Zone.t),
    match Intersections.worstZone
            (Router.analyzeCrowdIntersections route zones) with
    | None => zones = []
    | Some w =>
        exists before after,
          zones = before ++ WorstZone.zone w :: after
          /\ WorstZone.intersectionPoints w
             = pointsWithin route (WorstZone.zone w)
          /\ 0 <= WorstZone.intersectionPoints w <= Z.of_nat (length route)
          /\ WorstZone.intersectionRatio w
             = div (of_Z (WorstZone.intersectionPoints w))
                   (of_nat (length route))
          /\ (forall z, In z zones ->
                gtb (div (of_Z (pointsWithin route z)) (of_nat (length route)))
                    (WorstZone.intersectionRatio w) = false)
          /\ (forall z, In z before ->
                leb (WorstZone.intersectionRatio w)
                    (div (of_Z (pointsWithin route z)) (of_nat (length route)))
                = false)
    end.
Proof.
  intros route zones. rewrite analyzeCrowdIntersections_fields.
  cbv zeta. cbn [Intersections.worstZone].
  destruct zones as [|z rest]; [reflexivity|].
  cbn [fold_left]. rewrite analyzeZone_step. cbn [fst snd].
  destruct (worstSoFar_fold route rest [z] (add zero (zoneScore route z))
              (worstZoneEntry route z) (worstSoFar_first route z))
    as (w & -> & before & after & Hzones & Hw & Hmax & Hfirst).
  pose proof (f_equal WorstZone.intersectionPoints Hw) as Hpoints.
  pose proof (f_equal WorstZone.intersectionRatio Hw) as Hratio.
  cbn [worstZoneEntry WorstZone.intersectionPoints
       WorstZone.intersectionRatio] in Hpoints, Hratio.
  exists before, after. split; [exact Hzones|].
  split; [exact Hpoints|]. split; [rewrite Hpoints; apply pointsWithin_bounds|].
  split; [rewrite Hpoints; exact Hratio|]. split.
  - intros z' Hin. exact (Hmax z' Hin).
  - intros z' Hin. exact (Hfirst z' Hin).
Qed.

(** ** Scores are never negative *)

Section Totals.

Import Router.

Lemma getRoutingWeight_values (g : Grid.t) (lat lng : number) :
  In (Grid.getRoutingWeight g lat lng) [1; 2; 5; 10; 20].
Proof.
  unfold Grid.getRoutingWeight. cbv zeta.
  destruct (_ =? 0); [cbn [In]; tauto|].
  destruct (_ <? 3); [cbn [In]; tauto|].
  destruct (_ <? 6); [cbn [In]; tauto|].
  destruct (_ <? 10); cbn [In]; tauto.
Qed.

Lemma zone_weights (ms : list Mutation) (z : Zone.t) :
  In z (Grid.crowdZones (mutations ms)) ->
  In (Zone.weight z) [1; 2; 5; 10; 20].
Proof.
  intros Hin. apply crowdZones_characterized in Hin.
  destruct Hin as (key & population & _ & _ & _ & _ & _ & _ & _ & ->).
  apply getRoutingWeight_values.
Qed.

Lemma signFalse_zoneScore (route : list Point) (z : Zone.t) :
  0 <= Zone.weight z -> signFalse (zoneScore route z) = true.
Proof.
  intros Hw. unfold zoneScore. apply signFalse_mul.
  - apply signFalse_div; [|apply signFalse_of_nat].
    apply signFalse_of_Z, pointsWithin_bounds.
  - apply signFalse_of_Z, Hw.
Qed.

Lemma signFalse_sum (route : list Point) (zones : list Zone.t) :
  (forall z, In z zones -> 0 <= Zone.weight z) ->
  forall acc,
    signFalse acc = true ->
    signFalse (fold_left (fun sum z => add sum (zoneScore route z)) zones acc)
    = true.
Proof.
  induction zones as [|z zones IH]; intros Hw acc Hacc; [exact Hacc|].
  cbn [fold_left]. apply IH.
  - intros z' Hz'. apply Hw. right; exact Hz'.
  - apply signFalse_add; [exact Hacc|].
    apply signFalse_zoneScore, Hw. left; reflexivity.
Qed.

Lemma total_analyze (route : list Point) (zones : list Zone.t) :
  Intersections.totalIntersection (analyzeCrowdIntersections route zones)
  = sumOfScores route zones.
Proof.
  rewrite analyzeCrowdIntersections_fields. cbv zeta.
  cbn [Intersections.totalIntersection]. rewrite analyze_total. reflexivity.
Qed.

Lemma average_analyze (route : list Point) (zones : list Zone.t) :
  Intersections.averageIntersection (analyzeCrowdIntersections route zones)
  = or_else (div (sumOfScores route zones) (of_nat (length zones))) zero.
Proof.
  rewrite analyzeCrowdIntersections_fields. cbv zeta.
  cbn [Intersections.averageIntersection]. rewrite analyze_total. reflexivity.
Qed.

Lemma signFalse_sumOfScores (ms : list Mutation) (route : list Point) :
  signFalse (sumOfScores route (Grid.crowdZones (mutations ms))) = true.
Proof.
  apply signFalse_sum; [|reflexivity].
  intros z Hz. apply zone_weights in Hz. cbn [In] in Hz.
  destruct Hz as [<- | [<- | [<- | [<- | [<- | []]]]]]; lia.
Qed.

(** A zone that holds no point of a route that has points scores 0. *)
Lemma zoneScore_untouched (route : list Point) (z : Zone.t) :
  route <> [] -> pointsWithin route z = 0 ->
  In (Zone.weight z) [1; 2; 5; 10; 20] ->
  zoneScore route z = zero.
Proof.
  intros Hroute Hpoints Hw. unfold zoneScore.
  rewrite Hpoints, zero_div_of_nat
    by (destruct route; [congruence | cbn [length]; lia]).
  cbn [In] in Hw.
  destruct Hw as [<- | [<- | [<- | [<- | [<- | []]]]]];
    vm_compute; reflexivity.
Qed.

Lemma sumOfScores_untouched (route : list Point) (zones : list Zone.t) :
  route <> [] ->
  (forall z, In z zones ->
     pointsWithin route z = 0 /\ In (Zone.weight z) [1; 2; 5; 10; 20]) ->
  sumOfScores route zones = zero.
Proof.
  intros Hroute. unfold sumOfScores.
  induction zones as [|z zones IH]; intros H; [reflexivity|].
  cbn [fold_left].
  destruct (H z (or_introl eq_refl)) as [Hpoints Hw].
  rewrite (zoneScore_untouched route z Hroute Hpoints Hw).
  change (add zero zero) with zero.
  apply IH. intros z' Hz'. apply H. right; exact Hz'.
Qed.

End Totals.

(** X6.  Whatever was added to or cleared from the grid, and whatever the
    route, the scores of the route against the crowd zones of the grid are
    never below 0: neither [totalIntersection] nor [averageIntersection]
    compares less than 0. *)
Theorem scores_never_negative :
  forall (ms : list Mutation) (route : list Point),
    let scores :=
      Router.analyzeCrowdIntersections route
        (Grid.crowdZones (mutations ms)) in
    ltb (Intersections.totalIntersection scores) zero = false
    /\ ltb (Intersections.averageIntersection scores) zero = false.
Proof.
  intros ms route scores. subst scores.
  rewrite total_analyze, average_analyze.
  pose proof (signFalse_sumOfScores ms route) as Hsum.
  split; apply signFalse_not_below_zero; [exact Hsum|].
  unfold or_else. destruct (truthy _); [|reflexivity].
  apply signFalse_div; [exact Hsum | apply signFalse_of_nat].
Qed.

(** ** The candidates of [getMultipleRoutes] *)

Section Candidates.

Import Router.

Variable fetch : Provider.
Variables start end_ : Point.
Variable zones : list Zone.t.

Lemma push_candidate_candidateOf (type : RouteType) (r : option (list Point)) :
  push_candidate type zones r
  = match r with
    | None => []
    | Some route => [candidateOf type zones route]
    end.
Proof. destruct r; reflexivity. Qed.

Lemma getAlternativeRoute_second (r : list Point) :
  getAlternativeRoute fetch start end_ = Some r ->
  exists data r0 r1 rest,
    fetch (coordsString [swap start; swap end_]) true = Some data
    /\ code_ok data = true
    /\ routes data = r0 :: r1 :: rest
    /\ r = map swap r1.
Proof.
  unfold getAlternativeRoute. cbv zeta.
  destruct (fetch (coordsString [swap start; swap end_]) true) as [data|];
    [|discriminate].
  destruct (code_ok data) eqn:Hok; [|discriminate]. cbn [negb].
  destruct (routes data) as [|r0 [|r1 rest]] eqn:Hroutes; try discriminate.
  cbn [nth_error]. intros [= <-].
  exists data, r0, r1, rest. repeat split; first [assumption | reflexivity].
Qed.

Lemma findWorstZone_in (z : Zone.t) (rest : list Zone.t) :
  exists worst, findWorstZone (z :: rest) = Some worst.
Proof. unfold findWorstZone, reduce. eexists; reflexivity. Qed.

End Candidates.

(** X7.  [getMultipleRoutes] returns at most three candidates, of pairwise
    different types in the order direct, avoidance, alternative, each scored
    against the same crowd zones.  A direct candidate is the first one and
    carries the provider's first route; without crowd zones there is no
    avoidance candidate, whatever the provider would answer; an alternative
    candidate carries the second route of the provider's answer to the
    request with alternatives. *)
Theorem getMultipleRoutes_candidates :
  forall (fetch : Router.Provider) (start end_ : Point) (zones : list Zone.t),
    let routes := Router.getMultipleRoutes fetch start end_ zones in
    (length routes <= 3)%nat
    /\ StronglySorted (fun type type' => (typeRank type < typeRank type')%nat)
         (map Candidate.type routes)
    /\ (forall c, In c routes ->
          Candidate.crowdIntersections c
          = Router.analyzeCrowdIntersections (Candidate.route c) zones)
    /\ (forall c, In c routes -> Candidate.type c = direct ->
          nth_error routes 0 = Some c
          /\ Router.getRoadRoute fetch start end_ = Some (Candidate.route c))
    /\ (zones = [] ->
          forall c, In c routes -> Candidate.type c <> avoidance)
    /\ (forall c, In c routes -> Candidate.type c = alternative ->
          exists data r0 r1 rest,
            fetch (Router.coordsString
                     [Router.swap start; Router.swap end_]) true
            = Some data
            /\ Router.routes data = r0 :: r1 :: rest
            /\ Candidate.route c = map Router.swap r1).
Proof.
  intros fetch start end_ zones routes. subst routes.
  unfold Router.getMultipleRoutes.
  rewrite !push_candidate_candidateOf.
  pose proof (getAlternativeRoute_second fetch start end_) as Halt.
  destruct (Router.getRoadRoute fetch start end_) as [r|];
    destruct (Router.getAlternativeRoute fetch start end_) as [r''|];
    (destruct zones as [|z zones'];
     [ cbn [length Nat.ltb Nat.leb]
     | cbn [length Nat.ltb Nat.leb];
       destruct (Router.getAvoidanceRoute fetch start end_ (z :: zones'))
         as [r'|] ]);
    cbn [app length map candidateOf Candidate.type];
    (split; [lia|]);
    (split; [repeat constructor|]);
    (split;
     [ intros c Hc; cbn [In] in Hc;
       repeat (destruct Hc as [<- | Hc]; [reflexivity|]); contradiction |]);
    (split;
     [ intros c Hc Htype; cbn [In] in Hc;
       repeat (destruct Hc as [<- | Hc];
               [first [discriminate Htype | split; reflexivity]|]);
       contradiction |]);
    (split;
     [ intros Hz c Hc; cbn [In] in Hc;
       repeat (destruct Hc as [<- | Hc];
               [first [discriminate Hz | cbn [candidateOf Candidate.type];
                                         discriminate]|]);
       contradiction |]);
    intros c Hc Htype; cbn [In] in Hc;
    repeat (destruct Hc as [<- | Hc];
            [first [ discriminate Htype
                   | destruct (Halt r'' eq_refl)
                       as (data & r0 & r1 & rest & Hf & _ & Hr & Hs);
                     exists data, r0, r1, rest; repeat split;
                     first [assumption | reflexivity] ]|]);
    contradiction.
Qed.

(** ** An avoidance route without waypoints *)

(** X8.  When the length that [createAvoidanceWaypoints] computes from
    [start] to [end_] is 0, as it is when both are the same point, there are
    no waypoints: with crowd zones present, [getAvoidanceRoute] then sends the
    very request of [getRoadRoute] and returns what it returns, so that the
    avoidance candidate of [getMultipleRoutes] is a copy of the direct one. *)
Theorem avoidance_without_waypoints_is_direct :
  forall (fetch : Router.Provider) (start end_ : Point) (zones : list Zone.t),
    eqb (directLength start end_) zero = true ->
    zones <> [] ->
    Router.getAvoidanceRoute fetch start end_ zones
    = Router.getRoadRoute fetch start end_
    /\ (forall r, Router.getRoadRoute fetch start end_ = Some r ->
          exists rest,
            Router.getMultipleRoutes fetch start end_ zones
            = candidateOf direct zones r :: candidateOf avoidance zones r
              :: rest).
Proof.
  intros fetch start end_ zones Hlength Hzones.
  destruct zones as [|z zones']; [congruence|].
  assert (Hsame : Router.getAvoidanceRoute fetch start end_ (z :: zones')
                  = Router.getRoadRoute fetch start end_).
  { unfold Router.getAvoidanceRoute, Router.getRoadRoute.
    destruct (findWorstZone_in z zones') as [worst ->].
    unfold Router.createAvoidanceWaypoints. unfold directLength in Hlength.
    cbv zeta in *. rewrite Hlength. reflexivity. }
  split; [exact Hsame|].
  intros r Hr. unfold Router.getMultipleRoutes. rewrite Hsame, Hr.
  eexists. reflexivity.
Qed.

Lemma avoidance_without_waypoints_is_direct_witness :
  let here : Point := (of_Z 1, of_Z 2) in
  let zones :=
    [ {| Zone.center := (of_Z 3, of_Z 4); Zone.radius := of_Z 1;
         Zone.population := 3; Zone.weight := 5 |} ] in
  Router.getAvoidanceRoute echo here here zones
  = Router.getRoadRoute echo here here.
Proof.
  intros here zones.
  refine (proj1 (avoidance_without_waypoints_is_direct
                   echo here here zones _ _)).
  - vm_compute. reflexivity.
  - discriminate.
Defined.

(** ** What [calculateRoute] shows *)

Section Shown.

Import Router.

Lemma better_keeps (rest : list Candidate.t) :
  forall (n : nat) (best : nat * Candidate.t),
    (forall c, In c rest -> ltb (total c) (total (snd best)) = false) ->
    fold_left better (combine (seq n (length rest)) rest) best = best.
Proof.
  induction rest as [|c rest IH]; intros n best H; [reflexivity|].
  cbn [length seq combine fold_left]. unfold better at 2. cbn [snd].
  rewrite (H c) by (left; reflexivity).
  apply IH. intros c' Hc'. apply H. right; exact Hc'.
Qed.

Lemma In_push_candidate (type : RouteType) (zones : list Zone.t)
    (r : option (list Point)) (c : Candidate.t) :
  In c (push_candidate type zones r) ->
  exists route, c = candidateOf type zones route.
Proof.
  destruct r as [route|]; [|intros []].
  intros [<- | []]. exists route. reflexivity.
Qed.

Lemma getMultipleRoutes_scored (fetch : Provider) (start end_ : Point)
    (zones : list Zone.t) (c : Candidate.t) :
  In c (getMultipleRoutes fetch start end_ zones) ->
  Candidate.crowdIntersections c
  = analyzeCrowdIntersections (Candidate.route c) zones.
Proof.
  unfold getMultipleRoutes. intros Hin.
  apply in_app_or in Hin. destruct Hin as [Hin | Hin];
    [|apply in_app_or in Hin; destruct Hin as [Hin | Hin]].
  - apply In_push_candidate in Hin. destruct Hin as [route ->]. reflexivity.
  - destruct (0 <? length zones)%nat; [|contradiction].
    apply In_push_candidate in Hin. destruct Hin as [route ->]. reflexivity.
  - apply In_push_candidate in Hin. destruct Hin as [route ->]. reflexivity.
Qed.

(** No route at all when the provider gives none. *)
Lemma getMultipleRoutes_nothing (fetch : Provider) (start end_ : Point)
    (zones : list Zone.t) :
  (forall coordinates alternatives data,
     fetch coordinates alternatives = Some data ->
     code_ok data = false \/ routes data = []) ->
  getMultipleRoutes fetch start end_ zones = [].
Proof.
  intros Hfetch.
  assert (Hroad : getRoadRoute fetch start end_ = None).
  { unfold getRoadRoute. cbv zeta.
    destruct (fetch _ false) as [data|] eqn:E; [|reflexivity].
    destruct (Hfetch _ _ _ E) as [-> | ->]; [reflexivity|].
    destruct (negb _); reflexivity. }
  assert (Havoid : getAvoidanceRoute fetch start end_ zones = None).
  { unfold getAvoidanceRoute.
    destruct (findWorstZone zones) as [worst|]; [|reflexivity]. cbv zeta.
    destruct (fetch _ false) as [data|] eqn:E; [|reflexivity].
    destruct (Hfetch _ _ _ E) as [-> | ->]; [reflexivity|].
    destruct (negb _); reflexivity. }
  assert (Halt : getAlternativeRoute fetch start end_ = None).
  { unfold getAlternativeRoute. cbv zeta.
    destruct (fetch _ true) as [data|] eqn:E; [|reflexivity].
    destruct (Hfetch _ _ _ E) as [-> | ->]; [reflexivity|].
    destruct (negb _); reflexivity. }
  unfold getMultipleRoutes. rewrite Hroad, Havoid, Halt.
  destruct (0 <? length zones)%nat; reflexivity.
Qed.

End Shown.

(** X9.  When the provider's direct route has at least one point and no
    point of it lies within any crowd zone of the grid, [calculateRoute] shows
    that route, whatever the avoidance and alternative routes are: it is the
    current route, the selected index is 0, the statistics carry the type
    direct and a crowd intersection of 0. *)
Theorem untouched_direct_route_is_shown :
  forall (fetch : Router.Provider) (ms : list Mutation) (view : View.t)
         (start end_ : Point) (route : list Point),
    let g := mutations ms in
    View.start view = Some start ->
    View.end_ view = Some end_ ->
    Router.getRoadRoute fetch start end_ = Some route ->
    route <> [] ->
    (forall z, In z (Grid.crowdZones g) -> pointsWithin route z = 0) ->
    let view' := calculateRoute fetch g view in
    View.currentRoute view' = route
    /\ View.selectedRouteIndex view' = 0%nat
    /\ (exists info,
          View.routeInfo view' = Some info
          /\ RouteInfo.routeType info = direct
          /\ RouteInfo.crowdIntersection info = zero
          /\ RouteInfo.totalPoints info = Z.of_nat (length route)).
Proof.
  intros fetch ms view start end_ route g Hstart Hend Hroad Hroute Hclear view'.
  subst view'. unfold calculateRoute. rewrite Hstart, Hend. cbv zeta.
  pose proof (getMultipleRoutes_scored fetch start end_ (Grid.crowdZones g))
    as Hscored.
  assert (Hroutes : exists rest,
             Router.getMultipleRoutes fetch start end_ (Grid.crowdZones g)
             = candidateOf direct (Grid.crowdZones g) route :: rest).
  { unfold Router.getMultipleRoutes. rewrite Hroad. eexists. reflexivity. }
  destruct Hroutes as [rest Hroutes]. rewrite Hroutes in *.
  assert (Hzero : total (candidateOf direct (Grid.crowdZones g) route) = zero).
  { unfold total, candidateOf. cbn [Candidate.crowdIntersections].
    rewrite total_analyze. apply sumOfScores_untouched; [exact Hroute|].
    intros z Hz. split; [apply Hclear, Hz | apply (zone_weights ms), Hz]. }
  unfold selectBestRoute, reduce, indexed. cbn [length seq combine].
  change (fun best current : nat * Candidate.t =>
            if ltb (total (snd current)) (total (snd best))
            then current else best) with better.
  rewrite better_keeps.
  - cbn [View.currentRoute View.selectedRouteIndex View.routeInfo
         candidateOf Candidate.route].
    split; [reflexivity|]. split; [reflexivity|].
    eexists. split; [reflexivity|].
    unfold routeStatistics.
    cbn [RouteInfo.routeType RouteInfo.crowdIntersection RouteInfo.totalPoints
         Candidate.type Candidate.route].
    split; [reflexivity|]. split; [exact Hzero | reflexivity].
  - intros c Hc. cbn [snd]. rewrite Hzero.
    unfold total. rewrite (Hscored c (or_intror Hc)), total_analyze.
    apply signFalse_not_below_zero, signFalse_sumOfScores.
Qed.

Lemma untouched_direct_route_is_shown_witness :
  let start : Point := (of_Z 0, of_Z 0) in
  let end_ : Point := (of_Z 1, of_Z 1) in
  let view :=
    {| View.start := Some start; View.end_ := Some end_;
       View.currentRoute := []; View.routeInfo := None;
       View.routeOptions := []; View.selectedRouteIndex := 0%nat |} in
  let g := mutations [AddPerson (of_Z 10) (of_Z 10) 5] in
  View.currentRoute (calculateRoute echo g view) = [start; end_].
Proof.
  intros start end_ view g.
  refine (proj1 (untouched_direct_route_is_shown
                   echo [AddPerson (of_Z 10) (of_Z 10) 5] view start end_
                   [start; end_] _ _ _ _ _)).
  - reflexivity.
  - reflexivity.
  - vm_compute. reflexivity.
  - discriminate.
  - intros z Hz. vm_compute in Hz. destruct Hz as [<- | []].
    vm_compute. reflexivity.
Defined.

(** X10.  [calculateRoute] changes nothing while the start or the end is
    missing.  With both set and a provider that gives no route (no answer, an
    answer that is not ['Ok'], or one without routes), it empties the current
    route and the statistics and raises nothing, and it leaves the route
    options and the selected index of an earlier calculation as they were. *)
Theorem calculateRoute_without_routes :
  forall (fetch : Router.Provider) (g : Grid.t) (view : View.t),
    (forall coordinates alternatives data,
       fetch coordinates alternatives = Some data ->
       Router.code_ok data = false \/ Router.routes data = []) ->
    let view' := calculateRoute fetch g view in
    (View.start view = None \/ View.end_ view = None -> view' = view)
    /\ (View.start view <> None -> View.end_ view <> None ->
        View.currentRoute view' = [] /\ View.routeInfo view' = None)
    /\ View.routeOptions view' = View.routeOptions view
    /\ View.selectedRouteIndex view' = View.selectedRouteIndex view
    /\ View.start view' = View.start view
    /\ View.end_ view' = View.end_ view.
Proof.
  intros fetch g view Hfetch view'. subst view'. unfold calculateRoute.
  destruct (View.start view) as [start|] eqn:Hstart;
    [destruct (View.end_ view) as [end_|] eqn:Hend|].
  - cbv zeta. rewrite getMultipleRoutes_nothing by exact Hfetch.
    cbn [selectBestRoute reduce indexed length seq combine
         View.currentRoute View.routeInfo View.routeOptions
         View.selectedRouteIndex View.start View.end_].
    repeat split; try reflexivity; try assumption.
    intros [H | H]; discriminate H.
  - repeat split; try reflexivity; try assumption; congruence.
  - repeat split; try reflexivity; try assumption; congruence.
Qed.

Lemma calculateRoute_without_routes_witness :
  let unavailable : Router.Provider := fun _ _ => None in
  let option :=
    candidateOf direct [] [(of_Z 0, of_Z 0); (of_Z 1, of_Z 1)] in
  let view :=
    {| View.start := Some (of_Z 0, of_Z 0); View.end_ := Some (of_Z 2, of_Z 2);
       View.currentRoute := Candidate.route option; View.routeInfo := None;
       View.routeOptions := [option]; View.selectedRouteIndex := 0%nat |} in
  View.routeOptions (calculateRoute unavailable Grid.new view) = [option].
Proof.
  intros unavailable option view.
  refine (proj1 (proj2 (proj2 (calculateRoute_without_routes
                                 unavailable Grid.new view _)))).
  intros coordinates alternatives data H. discriminate H.
Defined.

(** ** The statistics of the shown route *)

Section Statistics.

Lemma crowded_point (g : Grid.t) (lat lng : number) :
  (Grid.getRoutingWeight g lat lng >? 2) = (3 <=? Grid.getPopulation g lat lng).
Proof.
  unfold Grid.getRoutingWeight. cbv zeta.
  set (population := Grid.getPopulation g lat lng).
  destruct (Z.eqb_spec population 0);
    [|destruct (Z.ltb_spec population 3);
      [|destruct (Z.ltb_spec population 6);
        [|destruct (Z.ltb_spec population 10)]]];
    destruct (Z.leb_spec 3 population); try reflexivity; lia.
Qed.

Lemma signFalse_totalDistance (rest : list Point) :
  forall (prev : Point) (sum : number),
    signFalse sum = true ->
    signFalse
      (snd (fold_left
              (fun '(prev, sum) point =>
                 (point,
                  add sum (mul (Grid.distance point prev) (of_Z 111000))))
              rest (prev, sum))) = true.
Proof.
  induction rest as [|point rest IH]; intros prev sum Hsum; [exact Hsum|].
  cbn [fold_left]. apply IH. apply signFalse_add; [exact Hsum|].
  apply signFalse_mul; [apply signFalse_distance|].
  apply signFalse_of_Z. lia.
Qed.

End Statistics.

(** X11.  The statistics that [calculateRoute] shows for a route: the crowded
    points are the points whose cell holds 3 persons or more, and they are
    never more than the points of the route; the efficiency and the total
    distance never compare below 0.  A route without points gives 0 for the
    average weight, the total distance and the efficiency, with no division by
    its length, and a route with points of which none is crowded has
    efficiency 100. *)
Theorem routeStatistics_bounds :
  forall (g : Grid.t) (c : Candidate.t),
    let info := routeStatistics g c in
    let route := Candidate.route c in
    RouteInfo.totalPoints info = Z.of_nat (length route)
    /\ RouteInfo.crowdedPoints info
       = Z.of_nat
           (length
              (filter
                 (fun point =>
                    3 <=? Grid.getPopulation g (fst point) (snd point))
                 route))
    /\ 0 <= RouteInfo.crowdedPoints info <= RouteInfo.totalPoints info
    /\ ltb (RouteInfo.efficiency info) zero = false
    /\ ltb (RouteInfo.totalDistance info) zero = false
    /\ (route = [] ->
        RouteInfo.averageWeight info = zero
        /\ RouteInfo.totalDistance info = zero
        /\ RouteInfo.efficiency info = zero)
    /\ (route <> [] -> RouteInfo.crowdedPoints info = 0 ->
        RouteInfo.efficiency info = of_Z 100).
Proof.
  intros g c info route. subst info route. unfold routeStatistics. cbv zeta.
  cbn [RouteInfo.totalPoints RouteInfo.crowdedPoints RouteInfo.efficiency
       RouteInfo.totalDistance RouteInfo.averageWeight].
  generalize (Candidate.route c). intros route.
  split; [reflexivity|]. split; [|split; [|split; [|split; [|split]]]].
  - do 2 f_equal. apply filter_ext. intros point. apply crowded_point.
  - match goal with
    | |- context [length (filter ?f route)] =>
        pose proof (filter_length_le f route)
    end.
    unfold Point in *. lia.
  - destruct (0 <? Z.of_nat (length route)); [|reflexivity].
    apply max_zero_not_below_zero.
  - destruct route as [|first rest]; [reflexivity|].
    apply signFalse_not_below_zero, signFalse_totalDistance. reflexivity.
  - intros ->. repeat split; reflexivity.
  - intros Hroute Hnone. rewrite Hnone.
    assert (Hlen : (0 < length route)%nat)
      by (destruct route; [congruence | cbn [length]; lia]).
    destruct (Z.ltb_spec 0 (Z.of_nat (length route))); [|lia].
    change (of_Z (Z.of_nat (length route))) with (of_nat (length route)).
    rewrite zero_div_of_nat by exact Hlen. vm_compute. reflexivity.
Qed.

(** ** The colour of a population circle *)

(** X12.  The colour of [getPopulationColor] and the weight of
    [getRoutingWeight] change at the same populations: at every coordinate
    the colour for the population of the cell is the one that goes with the
    routing weight there (transparent 1, green 2, orange 5, red 10, dark
    red 20).  The areas that [getPopulatedAreas] lists never get the
    transparent colour. *)
Theorem getPopulationColor_follows_weight :
  forall (g : Grid.t),
    (forall lat lng : number,
       weightOfColor (getPopulationColor (Grid.getPopulation g lat lng))
       = Grid.getRoutingWeight g lat lng)
    /\ (forall area, In area (Grid.getPopulatedAreas g) ->
          getPopulationColor (Area.population area) <> transparent).
Proof.
  intros g. split.
  - intros lat lng. unfold Grid.getRoutingWeight, getPopulationColor.
    cbv zeta.
    destruct (_ =? 0); [reflexivity|].
    destruct (_ <? 3); [reflexivity|].
    destruct (_ <? 6); [reflexivity|].
    destruct (_ <? 10); reflexivity.
  - intros area Hin. rewrite getPopulatedAreas_filter in Hin.
    apply in_map_iff in Hin. destruct Hin as (cell & <- & Hin).
    apply filter_In in Hin. destruct Hin as [_ Hpos].
    unfold populated in Hpos. apply Z.ltb_lt in Hpos.
    unfold getPopulationColor, areaOfCell. cbn [Area.population].
    destruct (Z.eqb_spec (snd cell) 0); [lia|].
    destruct (_ <? 3); [discriminate|].
    destruct (_ <? 6); [discriminate|].
    destruct (_ <? 10); discriminate.
Qed.

(** ** The crowd zones that a route touches *)

Section ZonesOnRoute.

Variable g : Grid.t.

Lemma includes_In (zones : list Zone.t) (z : Zone.t) :
  Grid.includes zones z = true <-> In z zones.
Proof.
  unfold Grid.includes. rewrite existsb_exists. split.
  - intros (z' & Hin & Heq). destruct (Grid.zone_eq_dec z' z); [|discriminate].
    subst. exact Hin.
  - intros Hin. exists z. split; [exact Hin|].
    destruct (Grid.zone_eq_dec z z); [reflexivity | congruence].
Qed.

Lemma getCrowdZonesOnRoute_fold (route : list Point) :
  forall acc : list Zone.t,
    NoDup acc ->
    let touched :=
      fold_left
        (fun intersectingZones point =>
           match Grid.isPointInCrowdZone g point with
           | Some zone =>
               if negb (Grid.includes intersectingZones zone)
               then intersectingZones ++ [zone]
               else intersectingZones
           | None => intersectingZones
           end)
        route acc in
    NoDup touched
    /\ (forall z, In z touched <->
                  In z acc
                  \/ exists point,
                       In point route
                       /\ Grid.isPointInCrowdZone g point = Some z)
    /\ (length touched <= length acc + length route)%nat.
Proof.
  induction route as [|p route IH]; intros acc Hnd; cbv zeta.
  - cbn [fold_left length]. split; [exact Hnd|]. split; [|lia].
    intros z. split; [auto|]. intros [H | (point & [] & _)]. exact H.
  - cbn [fold_left length].
    destruct (Grid.isPointInCrowdZone g p) as [zone|] eqn:Ep.
    + destruct (Grid.includes acc zone) eqn:Einc; cbn [negb].
      * apply includes_In in Einc.
        destruct (IH acc Hnd) as (Hnd' & Hin & Hlen).
        split; [exact Hnd'|]. split; [|lia].
        intros z. rewrite Hin. split.
        -- intros [H | (point & Hp & Hz)]; [left; exact H|].
           right. exists point. split; [right; exact Hp | exact Hz].
        -- intros [H | (point & [<- | Hp] & Hz)]; [left; exact H | |].
           ++ left. congruence.
           ++ right. exists point. split; assumption.
      * assert (Hnot : ~ In zone acc).
        { intros H. apply includes_In in H. congruence. }
        assert (Hnd1 : NoDup (acc ++ [zone])).
        { apply NoDup_app; [exact Hnd | repeat constructor; intros [] |].
          intros z Hz [<- | []]. exact (Hnot Hz). }
        destruct (IH (acc ++ [zone]) Hnd1) as (Hnd' & Hin & Hlen).
        split; [exact Hnd'|]. split;
          [|rewrite length_app in Hlen; cbn [length] in Hlen; lia].
        intros z. rewrite Hin, in_app_iff. cbn [In]. split.
        -- intros [[H | [<- | []]] | (point & Hp & Hz)].
           ++ left; exact H.
           ++ right. exists p. split; [left; reflexivity | exact Ep].
           ++ right. exists point. split; [right; exact Hp | exact Hz].
        -- intros [H | (point & [<- | Hp] & Hz)].
           ++ left; left; exact H.
           ++ left; right; left. congruence.
           ++ right. exists point. split; assumption.
    + destruct (IH acc Hnd) as (Hnd' & Hin & Hlen).
      split; [exact Hnd'|]. split; [|lia].
      intros z. rewrite Hin. split.
      * intros [H | (point & Hp & Hz)]; [left; exact H|].
        right. exists point. split; [right; exact Hp | exact Hz].
      * intros [H | (point & [<- | Hp] & Hz)]; [left; exact H | congruence |].
        right. exists point. split; assumption.
Qed.

Lemma pointsWithin_zero (route : list Point) (z : Zone.t) :
  pointsWithin route z = 0 <->
  forall point, In point route -> withinZone point z = false.
Proof.
  unfold pointsWithin. split.
  - intros H point Hin.
    destruct (withinZone point z) eqn:E; [|reflexivity].
    assert (Hf : In point (filter (fun point => withinZone point z) route))
      by (apply filter_In; split; assumption).
    destruct (filter _ route); [contradiction | cbn [length] in H; lia].
  - intros H.
    destruct (filter (fun point => withinZone point z) route) as [|p l] eqn:E;
      [reflexivity|].
    assert (Hf : In p (filter (fun point => withinZone point z) route))
      by (rewrite E; left; reflexivity).
    apply filter_In in Hf. destruct Hf as [Hin Hp].
    rewrite (H p Hin) in Hp. discriminate.
Qed.

End ZonesOnRoute.

(** X13.  For the grid after any sequence of mutations,
    [getCrowdZonesOnRoute] returns each zone at most once, and exactly the
    zones that [isPointInCrowdZone] finds for some point of the route: they
    are crowd zones of the grid, no more of them than the route has points.
    It returns none exactly when [analyzeCrowdIntersections] would count no
    point of the route in any zone. *)
Theorem getCrowdZonesOnRoute_touched :
  forall (ms : list Mutation) (route : list Point),
    let g := mutations ms in
    let touched := Grid.getCrowdZonesOnRoute g route in
    NoDup touched
    /\ (forall z, In z touched <->
                  exists point,
                    In point route
                    /\ Grid.isPointInCrowdZone g point = Some z)
    /\ incl touched (Grid.crowdZones g)
    /\ (length touched <= length route)%nat
    /\ (touched = [] <->
        forall z, In z (Grid.crowdZones g) ->
                  Router.countIntersectionPoints route z = 0).
Proof.
  intros ms route g touched. subst touched.
  unfold Grid.getCrowdZonesOnRoute.
  destruct (getCrowdZonesOnRoute_fold g route [] (NoDup_nil _))
    as (Hnd & Hin & Hlen).
  cbv zeta in Hnd, Hin, Hlen. cbn [length] in Hlen.
  match type of Hnd with NoDup ?l => set (touched := l) in * end.
  assert (Hin' : forall z, In z touched <->
                   exists point,
                     In point route
                     /\ Grid.isPointInCrowdZone g point = Some z).
  { intros z. rewrite Hin. split; [intros [[] | H]; exact H | auto]. }
  split; [exact Hnd|]. split; [exact Hin'|]. split; [|split; [lia|]].
  - intros z Hz. apply Hin' in Hz. destruct Hz as (point & _ & Hz).
    rewrite isPointInCrowdZone_find in Hz. apply find_some in Hz. tauto.
  - split.
    + intros Hnone z Hz. rewrite countIntersectionPoints_filter.
      apply pointsWithin_zero. intros point Hp.
      destruct (Grid.isPointInCrowdZone g point) as [z'|] eqn:E.
      * assert (Hz' : In z' touched) by (apply Hin'; exists point; tauto).
        rewrite Hnone in Hz'. contradiction.
      * rewrite isPointInCrowdZone_find in E.
        exact (find_none _ _ E z Hz).
    + intros Hnone. destruct touched as [|z rest] eqn:E; [reflexivity|].
      assert (Hz : In z (z :: rest)) by (left; reflexivity).
      apply Hin' in Hz. destruct Hz as (point & Hp & Hz).
      rewrite isPointInCrowdZone_find in Hz. apply find_some in Hz.
      destruct Hz as [Hzone Hwithin].
      specialize (Hnone z Hzone). rewrite countIntersectionPoints_filter in Hnone.
      rewrite (proj1 (pointsWithin_zero route z) Hnone point Hp) in Hwithin.
      discriminate.
Qed.

(** ** The routing state across the handlers *)

Section ViewInvariants.

Lemma invariants_calculateRoute (fetch : Router.Provider) (g : Grid.t)
    (view : View.t) :
  shownIsSelected view /\ statisticsOfBest view /\ optionsHaveEnds view ->
  let view' := calculateRoute fetch g view in
  shownIsSelected view' /\ statisticsOfBest view' /\ optionsHaveEnds view'.
Proof.
  intros (Hshown & Hstats & Hends). cbv zeta. unfold calculateRoute.
  destruct (View.start view) as [start|] eqn:Hstart;
    [destruct (View.end_ view) as [end_|] eqn:Hend|]; try tauto.
  cbv zeta.
  pose proof (selectBestRoute_bestOf
                (Router.getMultipleRoutes fetch start end_ (Grid.crowdZones g)))
    as Hbest.
  destruct (selectBestRoute _) as [[index bestRoute]|] eqn:Eb.
  - destruct Hbest as (Hnth & _). cbn [fst snd] in Hnth.
    split; [|split].
    + right. exists bestRoute. split; [exact Hnth | reflexivity].
    + intros info [= <-]. exists (index, bestRoute).
      cbn [View.routeOptions]. split; [exact Eb|].
      unfold routeStatistics.
      cbn [RouteInfo.routeType RouteInfo.crowdIntersection
           RouteInfo.totalPoints snd].
      repeat split; reflexivity.
    + intros _. cbn [View.start View.end_]. split; discriminate.
  - split; [left; reflexivity|]. split.
    + intros info H. discriminate H.
    + unfold optionsHaveEnds. cbn [View.start View.end_ View.routeOptions].
      intros _. split; discriminate.
Qed.

Lemma invariants_handleSelect (start end_ : option Point) (latlng : Point)
    (view : View.t) :
  shownIsSelected view /\ statisticsOfBest view /\ optionsHaveEnds view ->
  let view' := handleSelect start end_ latlng view in
  shownIsSelected view' /\ statisticsOfBest view' /\ optionsHaveEnds view'.
Proof.
  intros (Hshown & Hstats & Hends). cbv zeta. unfold handleSelect.
  destruct (selectBranch start end_ latlng).
  - tauto.
  - split; [left; reflexivity|]. split.
    + intros info H. discriminate H.
    + intros H. cbn [View.routeOptions] in H. congruence.
  - split; [exact Hshown|]. split; [exact Hstats|].
    intros H. cbn [View.routeOptions] in H. cbn [View.start View.end_].
    split; [apply Hends, H | discriminate].
  - split; [left; reflexivity|]. split.
    + intros info H. discriminate H.
    + intros H. cbn [View.routeOptions] in H. congruence.
Qed.

Lemma invariants_selectRouteOption (index : nat) (view : View.t) :
  shownIsSelected view /\ statisticsOfBest view /\ optionsHaveEnds view ->
  let view' := selectRouteOption index view in
  shownIsSelected view' /\ statisticsOfBest view' /\ optionsHaveEnds view'.
Proof.
  intros (Hshown & Hstats & Hends). cbv zeta. unfold selectRouteOption.
  destruct (nth_error (View.routeOptions view) index) as [option|] eqn:E;
    [|tauto].
  split; [|split].
  - right. exists option. split; [exact E | reflexivity].
  - exact Hstats.
  - exact Hends.
Qed.

Lemma invariants_clearAllClicked (g : Grid.t) (view : View.t) :
  let view' := snd (clearAllClicked g view) in
  shownIsSelected view' /\ statisticsOfBest view' /\ optionsHaveEnds view'.
Proof.
  cbv zeta. unfold clearAllClicked. cbn [snd].
  split; [left; reflexivity|]. split.
  - intros info H. discriminate H.
  - intros H. cbn [View.routeOptions] in H. congruence.
Qed.

Lemma invariants_react (view : View.t) (event : Event) :
  shownIsSelected view /\ statisticsOfBest view /\ optionsHaveEnds view ->
  shownIsSelected (react view event)
  /\ statisticsOfBest (react view event)
  /\ optionsHaveEnds (react view event).
Proof.
  intros H. destruct event as [fetch g | start end_ latlng | index | g];
    cbn [react].
  - apply invariants_calculateRoute, H.
  - apply invariants_handleSelect, H.
  - apply invariants_selectRouteOption, H.
  - apply invariants_clearAllClicked.
Qed.

End ViewInvariants.

(** X14.  Whatever the user does from the mount on (calculations with any
    provider and grid, clicks on the map with a closure that sees any [start]
    and [end], clicks on route options, [Clear All]), each handler taken as
    one step: a route on the map is always the route of the highlighted
    option; the statistics, when shown, are always those of the best of the
    current options (type, crowd intersection and number of points), also
    after the user has picked another option; and options are only there
    while both the start and the end are set. *)
Theorem routing_state_is_consistent :
  forall events : list Event,
    let view := fold_left react events initialView in
    (View.currentRoute view = []
     \/ exists c,
          nth_error (View.routeOptions view) (View.selectedRouteIndex view)
          = Some c
          /\ View.currentRoute view = Candidate.route c)
    /\ (forall info,
          View.routeInfo view = Some info ->
          exists best,
            selectBestRoute (View.routeOptions view) = Some best
            /\ RouteInfo.routeType info = Candidate.type (snd best)
            /\ RouteInfo.crowdIntersection info = total (snd best)
            /\ RouteInfo.totalPoints info
               = Z.of_nat (length (Candidate.route (snd best))))
    /\ (View.routeOptions view <> [] ->
        View.start view <> None /\ View.end_ view <> None).
Proof.
  intros events. cbv zeta.
  change (shownIsSelected (fold_left react events initialView)
          /\ statisticsOfBest (fold_left react events initialView)
          /\ optionsHaveEnds (fold_left react events initialView)).
  induction events as [|event events IH] using rev_ind.
  - split; [left; reflexivity|]. split.
    + intros info H. discriminate H.
    + intros H. cbn in H. congruence.
  - rewrite fold_left_app. cbn [fold_left]. apply invariants_react, IH.
Qed.

(** ** The memoized click handler *)

Section Memoized.

(** The closure always sees the current [start], and never an [end]. *)
Lemma closure_happens (m m' : Mounted.t) :
  Mounted.seenStart m = View.start (Mounted.view m)
  /\ Mounted.seenEnd m = None
  /\ (View.start (Mounted.view m) = None -> View.end_ (Mounted.view m) = None) ->
  happens m m' ->
  Mounted.seenStart m' = View.start (Mounted.view m')
  /\ Mounted.seenEnd m' = None
  /\ (View.start (Mounted.view m') = None ->
      View.end_ (Mounted.view m') = None).
Proof.
  intros (Hstart & Hend & Hnone) Hstep.
  destruct Hstep as [latlng m' Hclick | fetch g | index | g].
  - destruct Hclick as [Hbranch | seenEnd Hbranch Hseen];
      cbn [Mounted.view Mounted.seenStart Mounted.seenEnd];
      unfold handleSelect; rewrite Hend in *;
      unfold selectBranch in *;
      destruct (invalidCoordinates (fst latlng) (snd latlng));
      destruct (Mounted.seenStart m) as [s|] eqn:Es;
      destruct Hbranch as [Hbranch | Hbranch]; try discriminate Hbranch;
      cbn [View.start View.end_].
    + tauto.
    + tauto.
    + split; [exact Hstart|]. split; [reflexivity|]. congruence.
    + split; [reflexivity|]. split; [|intros H; discriminate H].
      destruct Hseen as [-> | ->]; [reflexivity|].
      apply Hnone. congruence.
  - cbn [Mounted.view Mounted.seenStart Mounted.seenEnd].
    unfold calculateRoute.
    destruct (View.start (Mounted.view m)) as [start|] eqn:E1;
      [destruct (View.end_ (Mounted.view m)) as [end_|] eqn:E2|].
    + cbv zeta. destruct (selectBestRoute _) as [[index bestRoute]|];
        cbn [View.start View.end_];
        (split; [congruence|]); (split; [exact Hend|]);
        intros H; discriminate H.
    + split; [congruence|]. split; [exact Hend | intros _; exact E2].
    + split; [congruence|]. split; [exact Hend|].
      intros _. apply Hnone. reflexivity.
  - cbn [Mounted.view Mounted.seenStart Mounted.seenEnd].
    unfold selectRouteOption.
    destruct (nth_error _ index); cbn [View.start View.end_]; tauto.
  - cbn [Mounted.view Mounted.seenStart Mounted.seenEnd].
    unfold clearAllClicked. cbn [snd View.start View.end_]. tauto.
Qed.

Lemma closure_reached (m : Mounted.t) :
  reached m ->
  Mounted.seenStart m = View.start (Mounted.view m)
  /\ Mounted.seenEnd m = None
  /\ (View.start (Mounted.view m) = None -> View.end_ (Mounted.view m) = None).
Proof.
  induction 1 as [|m m' _ IH Hstep].
  - repeat split; reflexivity.
  - exact (closure_happens m m' IH Hstep).
Qed.

Lemma start_kept_happens (m m' : Mounted.t) (start : Point) :
  Mounted.seenStart m = View.start (Mounted.view m) ->
  Mounted.seenEnd m = None ->
  View.start (Mounted.view m) = Some start ->
  happens m m' ->
  View.start (Mounted.view m') = Some start.
Proof.
  intros Hseen Hend Hstart Hstep. rewrite Hstart in Hseen.
  destruct Hstep as [latlng m' Hclick | fetch g | index | g].
  - destruct Hclick as [Hbranch | seenEnd Hbranch _];
      cbn [Mounted.view]; unfold handleSelect;
      rewrite Hseen, Hend in *; unfold selectBranch in *;
      destruct (invalidCoordinates (fst latlng) (snd latlng));
      destruct Hbranch as [Hbranch | Hbranch]; try discriminate Hbranch;
      cbn [View.start]; exact Hstart.
  - cbn [Mounted.view]. unfold calculateRoute. rewrite Hstart.
    destruct (View.end_ (Mounted.view m)); [|exact Hstart].
    cbv zeta. destruct (selectBestRoute _) as [[index bestRoute]|];
      cbn [View.start]; first [exact Hstart | reflexivity].
  - cbn [Mounted.view]. unfold selectRouteOption.
    destruct (nth_error _ index); cbn [View.start]; exact Hstart.
  - cbn [Mounted.view]. unfold clearAllClicked. cbn [snd View.start].
    exact Hstart.
Qed.

End Memoized.

(** X15.  [handleSelect] is memoized on [start] alone, so the [end] that
    it sees is the one of the render in which [start] was last set, which is
    none.  In every state that the mounted component reaches, a click never
    takes the third branch that would reset the start point: a valid click
    sets the start when there is none, and otherwise only sets the end, with
    the start, the route on the map, the statistics and the options left as
    they are.  Once set, the start never changes. *)
Theorem handleSelect_never_resets :
  forall m : Mounted.t,
    reached m ->
    (forall latlng,
       selectBranch (Mounted.seenStart m) (Mounted.seenEnd m) latlng
       <> ResetStart)
    /\ (forall start latlng m',
          View.start (Mounted.view m) = Some start ->
          invalidCoordinates (fst latlng) (snd latlng) = false ->
          clicked m latlng m' ->
          Mounted.view m'
          = {| View.start := Some start;
               View.end_ := Some latlng;
               View.currentRoute := View.currentRoute (Mounted.view m);
               View.routeInfo := View.routeInfo (Mounted.view m);
               View.routeOptions := View.routeOptions (Mounted.view m);
               View.selectedRouteIndex :=
                 View.selectedRouteIndex (Mounted.view m) |})
    /\ (forall start m',
          View.start (Mounted.view m) = Some start ->
          happens m m' ->
          View.start (Mounted.view m') = Some start).
Proof.
  intros m Hreached.
  destruct (closure_reached m Hreached) as (Hstart & Hend & _).
  split; [|split].
  - intros latlng. rewrite Hend. unfold selectBranch.
    destruct (invalidCoordinates _ _); [discriminate|].
    destruct (Mounted.seenStart m); discriminate.
  - intros start latlng m' Hs Hvalid Hclick. rewrite Hs in Hstart.
    destruct Hclick as [Hbranch | seenEnd Hbranch _];
      cbn [Mounted.view]; unfold handleSelect;
      rewrite Hstart, Hend in *; unfold selectBranch in *;
      rewrite Hvalid in *;
      destruct Hbranch as [Hbranch | Hbranch]; try discriminate Hbranch.
    rewrite Hs. reflexivity.
  - intros start m' Hs Hstep.
    exact (start_kept_happens m m' start Hstart Hend Hs Hstep).
Qed.

Lemma handleSelect_never_resets_witness :
  let first : Point := (of_Z 1, of_Z 1) in
  let second : Point := (of_Z 2, of_Z 2) in
  let third : Point := (of_Z 3, of_Z 3) in
  let mount :=
    {| Mounted.view := initialView;
       Mounted.seenStart := None; Mounted.seenEnd := None |} in
  let m1 :=
    {| Mounted.view := handleSelect None None first initialView;
       Mounted.seenStart := Some first; Mounted.seenEnd := None |} in
  let m2 :=
    {| Mounted.view := handleSelect (Some first) None second (Mounted.view m1);
       Mounted.seenStart := Some first; Mounted.seenEnd := None |} in
  let m3 :=
    {| Mounted.view := handleSelect (Some first) None third (Mounted.view m2);
       Mounted.seenStart := Some first; Mounted.seenEnd := None |} in
  View.start (Mounted.view m3) = Some first.
Proof.
  intros first second third mount m1 m2 m3.
  assert (H1 : clicked mount first m1).
  { refine (clicked_new_closure mount first None _ _).
    - left. vm_compute. reflexivity.
    - left. reflexivity. }
  assert (H2 : clicked m1 second m2).
  { refine (clicked_same_closure m1 second _). right. vm_compute. reflexivity. }
  assert (H3 : clicked m2 third m3).
  { refine (clicked_same_closure m2 third _). right. vm_compute. reflexivity. }
  refine (proj2 (proj2 (handleSelect_never_resets m2 _)) first m3 _ _).
  - refine (reached_next m1 m2 _ (happens_click m1 second m2 H2)).
    exact (reached_next mount m1 reached_mount (happens_click mount first m1 H1)).
  - reflexivity.
  - exact (happens_click m2 third m3 H3).
Defined.

(** ** The radius of a zone *)

Section Radius.

Lemma shr_fexp_nonneg (m e : Z) (l : location) :
  0 <= m -> 0 <= shr_m (fst (shr_fexp prec emax m e l)).
Proof.
  intros Hm. unfold shr_fexp, shr.
  destruct (fexp prec emax (Zdigits2 m + e) - e) as [|k|k]; cbn [fst].
  - rewrite shr_record_of_loc_m. exact Hm.
  - rewrite iter_shr_1_m by (rewrite shr_record_of_loc_m; exact Hm).
    rewrite shr_record_of_loc_m. apply Z.shiftr_nonneg. exact Hm.
  - rewrite shr_record_of_loc_m. exact Hm.
Qed.

Lemma round_nearest_even_nonneg (m : Z) (l : location) :
  0 <= m -> 0 <= round_nearest_even m l.
Proof.
  intros Hm. destruct l as [|[]]; cbn [round_nearest_even];
    try destruct (Z.even m); lia.
Qed.

Lemma binary_round_aux_not_NaN (s : bool) (m e : Z) (l : location) :
  0 <= m -> isNaN (binary_round_aux prec emax s m e l) = false.
Proof.
  intros Hm. unfold binary_round_aux.
  pose proof (shr_fexp_nonneg m e l Hm) as H1.
  destruct (shr_fexp prec emax m e l) as [mrs' e']. cbn [fst] in H1.
  pose proof (round_nearest_even_nonneg (shr_m mrs') (loc_of_shr_record mrs') H1)
    as H2.
  pose proof (shr_fexp_nonneg _ e' loc_Exact H2) as H3.
  destruct (shr_fexp prec emax _ e' loc_Exact) as [mrs'' e'']. cbn [fst] in H3.
  destruct (shr_m mrs'') as [|p|p]; [reflexivity | | lia].
  destruct (e'' <=? emax - prec); reflexivity.
Qed.

(** [Math.max(0.001, x)] is at least 0.001 whenever [x] is a number. *)
Lemma max_lower_bound (x : number) :
  isNaN x = false ->
  leb (decimal 1 1000) (Number.max (decimal 1 1000) x) = true.
Proof.
  intros Hx.
  assert (Ha : exists m e, decimal 1 1000 = S754_finite false m e)
    by (vm_compute; eauto).
  destruct Ha as (m & e & Ha).
  assert (Hmax : Number.max (decimal 1 1000) x
                 = if ltb (decimal 1 1000) x then x else decimal 1 1000).
  { rewrite Ha. destruct x as [[]|[]| |[] mx ex]; try reflexivity;
      discriminate Hx. }
  rewrite Hmax. destruct (ltb (decimal 1 1000) x) eqn:E.
  - apply ltb_leb, E.
  - apply leb_refl. rewrite Ha. reflexivity.
Qed.

Lemma radius_lower_bound (population : Z) :
  0 < population ->
  leb (decimal 1 1000)
      (Number.max (decimal 1 1000)
         (mul (of_Z population) (decimal 3 10000))) = true.
Proof.
  intros Hpos. apply max_lower_bound.
  assert (Hc : exists m e, decimal 3 10000 = S754_finite false m e)
    by (vm_compute; eauto).
  destruct Hc as (mc & ec & ->).
  destruct population as [|p|p]; try lia.
  destruct (of_Z_positive p) as [(m & e & ->) | ->]; [|reflexivity].
  apply binary_round_aux_not_NaN. lia.
Qed.

Lemma distance_diag (p : Point) :
  is_finite (fst p) = true -> is_finite (snd p) = true ->
  Grid.distance p p = zero.
Proof.
  intros H1 H2. unfold Grid.distance.
  rewrite (sub_diag _ H1), (sub_diag _ H2). reflexivity.
Qed.

End Radius.

(** X16.  After every sequence of mutations, each crowd zone has a radius of
    at least 0.001 degrees, the floor that [Math.max] puts under
    [population * 0.0003]; and the centre of a zone, when its coordinates are
    finite, lies within that zone, so that [isPointInCrowdZone] finds a zone
    for it. *)
Theorem zone_holds_its_centre :
  forall (ms : list Mutation) (z : Zone.t),
    let g := mutations ms in
    In z (Grid.crowdZones g) ->
    leb (decimal 1 1000) (Zone.radius z) = true
    /\ (is_finite (fst (Zone.center z)) = true ->
        is_finite (snd (Zone.center z)) = true ->
        leb (Grid.distance (Zone.center z) (Zone.center z)) (Zone.radius z)
        = true
        /\ Grid.isPointInCrowdZone g (Zone.center z) <> None).
Proof.
  intros ms z g Hin.
  assert (Hradius : leb (decimal 1 1000) (Zone.radius z) = true).
  { apply crowdZones_characterized in Hin.
    destruct Hin as (key & population & _ & Hbig & _ & _ & _ & -> & _).
    apply radius_lower_bound. lia. }
  split; [exact Hradius|]. intros H1 H2.
  assert (Hwithin : leb (Grid.distance (Zone.center z) (Zone.center z))
                        (Zone.radius z) = true).
  { rewrite distance_diag by assumption.
    apply (leb_trans zero (decimal 1 1000)); [reflexivity | exact Hradius]. }
  split; [exact Hwithin|].
  rewrite isPointInCrowdZone_find. intros Hnone.
  pose proof (find_none _ _ Hnone z Hin) as Hout.
  unfold withinZone in Hout. fold (Grid.distance (Zone.center z) (Zone.center z)) in Hout.
  congruence.
Qed.

Lemma zone_holds_its_centre_witness :
  let ms := [AddPerson (of_Z 1) (of_Z 1) 3] in
  let z :=
    {| Zone.center := (of_Z 1, of_Z 1);
       Zone.radius := decimal 1 1000;
       Zone.population := 3; Zone.weight := 5 |} in
  leb (decimal 1 1000) (Zone.radius z) = true.
Proof.
  intros ms z.
  refine (proj1 (zone_holds_its_centre ms z _)).
  vm_compute. left. reflexivity.
Defined.

(** ** The crowds on the map *)

Section CrowdsOnTheMap.

Import Grid.

Lemma map_set_In (key k : Key) (v w : Z) (m : PopMap) :
  In (k, w) (map_set key v m) -> w = v \/ In (k, w) m.
Proof.
  induction m as [|[k' w'] rest IH]; cbn [map_set].
  - intros [[= <- <-] | []]. left; reflexivity.
  - destruct (key_eqb key k').
    + intros [[= <- <-] | H]; [left; reflexivity | right; right; exact H].
    + intros [H | H]; [right; left; exact H|].
      destruct (IH H) as [-> | H']; [left; reflexivity | right; right; exact H'].
Qed.

Lemma get_or_zero_nonneg (key : Key) (g : t) :
  allPositive g -> 0 <= get_or_zero key (populations g).
Proof.
  intros Hpos. unfold get_or_zero.
  destruct (map_get key (populations g)) as [v|] eqn:E; [|lia].
  apply map_get_Some_In, Hpos in E. destruct (v =? 0); lia.
Qed.

Lemma allPositive_addPerson (g : t) (lat lng : number) (count : Z) :
  allPositive g -> 0 < count -> allPositive (fst (addPerson g lat lng count)).
Proof.
  intros Hpos Hcount key population. rewrite populations_addPerson.
  intros Hin. apply map_set_In in Hin. destruct Hin as [-> | Hin].
  - pose proof (get_or_zero_nonneg (getGridKey lat lng) g Hpos). lia.
  - exact (Hpos key population Hin).
Qed.

(** The grid stays one that mutations of a fresh grid give, with every cell
    positive. *)
Lemma crowdReact_grid (c : Crowds.t) (event : CrowdEvent) :
  (exists ms, Crowds.grid c = mutations ms) /\ allPositive (Crowds.grid c) ->
  (exists ms, Crowds.grid (crowdReact c event) = mutations ms)
  /\ allPositive (Crowds.grid (crowdReact c event)).
Proof.
  intros [[ms Hms] Hpos]. destruct event as [|lat lng| |]; cbn [crowdReact].
  - cbv zeta. cbn [Crowds.grid]. split.
    + exists (ms ++ [AddPerson (decimal 231821 10000) (decimal 75789 1000) 20;
                     AddPerson (decimal 231823 10000) (decimal 757892 10000) 40;
                     AddPerson (decimal 231815 10000) (decimal 75787 1000) 5;
                     AddPerson (decimal 231829 10000) (decimal 757905 10000) 8]).
      unfold mutations. rewrite fold_left_app. fold (mutations ms).
      rewrite <- Hms. reflexivity.
    + unfold loadStaticCrowds, staticCrowdData. cbn [fold_left].
      change (20 >? 0) with true. change (40 >? 0) with true.
      change (0 >? 0) with false. change (5 >? 0) with true.
      change (8 >? 0) with true. cbv iota.
      repeat (apply allPositive_addPerson; [|lia]). exact Hpos.
  - destruct (invalidCoordinates lat lng) eqn:E.
    + split; [exists ms; exact Hms | exact Hpos].
    + cbv zeta. cbn [Crowds.grid]. unfold handleAddPerson. rewrite E. split.
      * exists (ms ++ [AddPerson lat lng 1]).
        rewrite mutations_snoc, <- Hms. reflexivity.
      * apply allPositive_addPerson; [exact Hpos | lia].
  - cbv zeta. cbn [Crowds.grid]. split.
    + exists (ms ++ [AddPerson (decimal 231821 10000) (decimal 75789 1000) 3;
                     AddPerson (decimal 231823 10000) (decimal 757892 10000) 7;
                     AddPerson (decimal 23183 1000) (decimal 757885 10000) 10;
                     AddPerson (decimal 231815 10000) (decimal 75787 1000) 5;
                     AddPerson (decimal 231829 10000) (decimal 757905 10000) 8]).
      unfold mutations. rewrite fold_left_app. fold (mutations ms).
      rewrite <- Hms. reflexivity.
    + unfold addTestCrowds, testCrowdData. cbn [fold_left].
      repeat (apply allPositive_addPerson; [|lia]). exact Hpos.
  - cbn [Crowds.grid]. split.
    + exists []. reflexivity.
    + intros key population [].
Qed.

Lemma crowdReact_areas (c : Crowds.t) (event : CrowdEvent) :
  Crowds.populatedAreas c = getPopulatedAreas (Crowds.grid c) ->
  Crowds.populatedAreas (crowdReact c event)
  = getPopulatedAreas (Crowds.grid (crowdReact c event)).
Proof.
  intros H. destruct event as [|lat lng| |]; cbn [crowdReact];
    try reflexivity.
  destruct (invalidCoordinates lat lng); [exact H | reflexivity].
Qed.

Lemma allPositive_filter (g : t) :
  allPositive g -> filter populated (populations g) = populations g.
Proof.
  unfold allPositive. induction (populations g) as [|[key population] rest IH];
    intros H; [reflexivity|].
  cbn [filter]. unfold populated at 1. cbn [snd].
  destruct (Z.ltb_spec 0 population) as [_ | Hle].
  - f_equal. apply IH. intros k p Hin. apply (H k p). right; exact Hin.
  - specialize (H key population (or_introl eq_refl)). lia.
Qed.

End CrowdsOnTheMap.

(** X17.  Whatever loads, right-clicks and clears happen from the mount on,
    the areas drawn on the map are those of the grid as it is, every cell of
    the grid holds at least one person and is drawn (the static entry of
    count 0 never makes a cell), and the grid is one that [addPerson] and
    [clearAll] calls on a fresh grid give. *)
Theorem crowds_on_the_map :
  forall events : list CrowdEvent,
    let c := fold_left crowdReact events noCrowds in
    Crowds.populatedAreas c = Grid.getPopulatedAreas (Crowds.grid c)
    /\ (forall key population,
          In (key, population) (Grid.populations (Crowds.grid c)) ->
          0 < population)
    /\ map areaCoordinates (Crowds.populatedAreas c)
       = map fst (Grid.populations (Crowds.grid c))
    /\ (exists ms, Crowds.grid c = mutations ms).
Proof.
  intros events. cbv zeta.
  assert (H : Crowds.populatedAreas (fold_left crowdReact events noCrowds)
              = Grid.getPopulatedAreas
                  (Crowds.grid (fold_left crowdReact events noCrowds))
              /\ (exists ms,
                    Crowds.grid (fold_left crowdReact events noCrowds)
                    = mutations ms)
              /\ allPositive
                   (Crowds.grid (fold_left crowdReact events noCrowds))).
  { induction events as [|event events IH] using rev_ind.
    - split; [reflexivity|]. split; [exists []; reflexivity|].
      intros key population [].
    - rewrite fold_left_app. cbn [fold_left].
      destruct IH as (Hareas & Hgrid).
      split; [apply crowdReact_areas, Hareas | apply crowdReact_grid, Hgrid]. }
  destruct H as (Hareas & Hms & Hpos).
  split; [exact Hareas|]. split; [exact Hpos|]. split; [|exact Hms].
  rewrite Hareas, getPopulatedAreas_filter, allPositive_filter by exact Hpos.
  rewrite map_map. apply map_ext. intros [[klat klng] population]. reflexivity.
Qed.

(** ** Integers below 2^53 as numbers *)

Section SmallIntegers.

Lemma iter_xO_Z (p n : positive) :
  Zpos (Pos.iter xO p n) = Zpos p * 2 ^ Zpos n.
Proof.
  induction n as [|n IH] using Pos.peano_ind.
  - cbn [Pos.iter]. change (2 ^ 1) with 2. lia.
  - rewrite Pos.iter_succ, Pos2Z.inj_succ, Z.pow_succ_r by lia.
    rewrite Pos2Z.inj_xO, IH. ring.
Qed.

Lemma digits2_pos_iter_xO (p n : positive) :
  Zpos (digits2_pos (Pos.iter xO p n)) = Zpos (digits2_pos p) + Zpos n.
Proof.
  induction n as [|n IH] using Pos.peano_ind.
  - cbn [Pos.iter digits2_pos]. lia.
  - rewrite Pos.iter_succ. cbn [digits2_pos]. lia.
Qed.

Lemma digits2_pos_upper (m : positive) : Zpos m < 2 ^ Zpos (digits2_pos m).
Proof.
  induction m as [m IH|m IH|]; cbn [digits2_pos].
  - rewrite Pos2Z.inj_succ, Z.pow_succ_r by lia. lia.
  - rewrite Pos2Z.inj_succ, Z.pow_succ_r by lia. lia.
  - reflexivity.
Qed.

(** The positive integers below 2^53 are those of at most 53 binary
    digits. *)
Lemma small_digits (p : positive) :
  Zpos p < 2 ^ 53 <-> Zpos (digits2_pos p) <= 53.
Proof.
  split; intros H.
  - pose proof (digits2_pos_lower p) as Hlow.
    assert (Hlt : 2 ^ (Zpos (digits2_pos p) - 1) < 2 ^ 53) by lia.
    apply Z.pow_lt_mono_r_iff in Hlt; lia.
  - pose proof (digits2_pos_upper p) as Hup.
    assert (Hle : 2 ^ Zpos (digits2_pos p) <= 2 ^ 53)
      by (apply Z.pow_le_mono_r; lia).
    lia.
Qed.

(** Shifting out zero bits is exact. *)
Lemma iter_shr_1_exact (n : positive) :
  forall m : positive,
    iter_pos shr_1 n
      {| shr_m := Zpos (Pos.iter xO m n); shr_r := false; shr_s := false |}
    = {| shr_m := Zpos m; shr_r := false; shr_s := false |}.
Proof.
  induction n as [n IH|n IH|]; intros m; cbn [iter_pos Pos.iter].
  - cbn [shr_1 orb]. rewrite !IH. reflexivity.
  - rewrite !IH. reflexivity.
  - reflexivity.
Qed.

Lemma canon_mantissa (p : positive) :
  Zpos (digits2_pos p) <= 53 ->
  Zpos (Z.to_pos (Zpos p * 2 ^ (53 - Zpos (digits2_pos p))))
  = Zpos p * 2 ^ (53 - Zpos (digits2_pos p)).
Proof.
  intros H. apply Z2Pos.id. apply Z.mul_pos_pos; [lia|].
  apply Z.pow_pos_nonneg; lia.
Qed.

Lemma canon_digits (p : positive) :
  Zpos (digits2_pos p) <= 53 ->
  Zpos (digits2_pos (Z.to_pos (Zpos p * 2 ^ (53 - Zpos (digits2_pos p)))))
  = 53.
Proof.
  intros H. destruct (53 - Zpos (digits2_pos p)) as [|n|n] eqn:E; try lia.
  - rewrite Z.mul_1_r. cbn [Z.to_pos]. lia.
  - rewrite <- iter_xO_Z, Pos2Z.id, digits2_pos_iter_xO. lia.
Qed.

Lemma binary_round_aux_canonical (s : bool) (m : positive) (e : Z) :
  Zpos (digits2_pos m) = 53 -> -1074 <= e <= 971 ->
  binary_round_aux prec emax s (Zpos m) e loc_Exact = S754_finite s m e.
Proof.
  intros Hd He.
  assert (Hshift : fexp prec emax (Zdigits2 (Zpos m) + e) - e = 0).
  { cbn [Zdigits2]. rewrite Hd. unfold fexp, emin, prec, emax. lia. }
  unfold binary_round_aux, shr_fexp. rewrite Hshift.
  cbn [shr shr_record_of_loc shr_m loc_of_shr_record round_nearest_even].
  rewrite Hshift. cbn [shr shr_record_of_loc shr_m].
  unfold prec, emax. destruct (Z.leb_spec e (1024 - 53)); [reflexivity | lia].
Qed.

Lemma binary_round_aux_shifted (s : bool) (m n : positive) (e : Z) :
  Zpos (digits2_pos m) = 53 -> -1074 <= e <= 971 ->
  binary_round_aux prec emax s (Zpos (Pos.iter xO m n)) (e - Zpos n) loc_Exact
  = S754_finite s m e.
Proof.
  intros Hd He.
  assert (Hshift : fexp prec emax
                     (Zdigits2 (Zpos (Pos.iter xO m n)) + (e - Zpos n))
                   - (e - Zpos n) = Zpos n).
  { cbn [Zdigits2]. rewrite digits2_pos_iter_xO, Hd.
    unfold fexp, emin, prec, emax. lia. }
  assert (Hshift' : fexp prec emax (Zdigits2 (Zpos m) + e) - e = 0).
  { cbn [Zdigits2]. rewrite Hd. unfold fexp, emin, prec, emax. lia. }
  unfold binary_round_aux, shr_fexp. rewrite Hshift.
  cbn [shr shr_record_of_loc]. rewrite iter_shr_1_exact.
  cbn [shr_m loc_of_shr_record round_nearest_even].
  replace (e - Zpos n + Zpos n) with e by lia.
  rewrite Hshift'. cbn [shr shr_record_of_loc shr_m].
  unfold prec, emax. destruct (Z.leb_spec e (1024 - 53)); [reflexivity | lia].
Qed.

(** Rounding the integer [p * 2^k] written at exponent [-k] gives the
    number that stands for [p]. *)
Lemma binary_round_scaled (s : bool) (p M : positive) (k : Z) :
  Zpos (digits2_pos p) <= 53 -> 0 <= k ->
  Zpos M = Zpos p * 2 ^ k ->
  binary_round prec emax s M (- k) = canon s p.
Proof.
  intros Hd Hk HM. unfold binary_round, canon.
  set (d := Zpos (digits2_pos p)) in *.
  assert (Hd1 : 1 <= d) by (subst d; lia).
  set (m0 := Z.to_pos (Zpos p * 2 ^ (53 - d))).
  assert (Hm0 : Zpos m0 = Zpos p * 2 ^ (53 - d)) by (apply canon_mantissa, Hd).
  assert (Hm0d : Zpos (digits2_pos m0) = 53) by (apply canon_digits, Hd).
  assert (HdM : Zpos (digits2_pos M) = d + k).
  { destruct k as [|n|n]; try lia.
    - rewrite Z.mul_1_r in HM. injection HM as ->. subst d. lia.
    - rewrite <- iter_xO_Z in HM. injection HM as ->.
      rewrite digits2_pos_iter_xO. reflexivity. }
  assert (Hfexp : fexp prec emax (Zpos (digits2_pos M) + - k) = d - 53).
  { rewrite HdM. unfold fexp, emin, prec, emax. lia. }
  rewrite Hfexp. unfold shl_align.
  destruct (d - 53 - - k) as [|q|q] eqn:E.
  - (* the mantissa is already in place *)
    assert (M = m0) as ->.
    { apply Pos2Z.inj. rewrite HM, Hm0. f_equal. f_equal. lia. }
    replace (- k) with (d - 53) by lia.
    apply binary_round_aux_canonical; [exact Hm0d | lia].
  - (* too many digits: the low ones are zero *)
    assert (M = Pos.iter xO m0 q) as ->.
    { apply Pos2Z.inj. rewrite HM, iter_xO_Z, Hm0, <- Z.mul_assoc.
      rewrite <- Z.pow_add_r by lia. f_equal. f_equal. lia. }
    replace (- k) with (d - 53 - Zpos q) by lia.
    apply binary_round_aux_shifted; [exact Hm0d | lia].
  - (* too few digits: shifted left *)
    assert (Pos.iter xO M q = m0) as ->.
    { apply Pos2Z.inj. rewrite iter_xO_Z, HM, Hm0, <- Z.mul_assoc.
      rewrite <- Z.pow_add_r by lia. f_equal. f_equal. lia. }
    apply binary_round_aux_canonical; [exact Hm0d | lia].
Qed.

Lemma of_Z_pos_small (p : positive) :
  Zpos p < 2 ^ 53 -> of_Z (Zpos p) = canon false p.
Proof.
  intros H. apply small_digits in H. unfold of_Z. cbn [binary_normalize].
  apply (binary_round_scaled false p p 0); [exact H | lia | ring].
Qed.

Lemma of_Z_neg_small (p : positive) :
  Zpos p < 2 ^ 53 -> of_Z (Zneg p) = canon true p.
Proof.
  intros H. apply small_digits in H. unfold of_Z. cbn [binary_normalize].
  apply (binary_round_scaled true p p 0); [exact H | lia | ring].
Qed.

End SmallIntegers.

Section ExactArithmetic.

Lemma of_Z_small (z : Z) :
  small z ->
  of_Z z = match z with
           | Z0 => zero
           | Zpos p => canon false p
           | Zneg p => canon true p
           end.
Proof.
  unfold small. destruct z as [|p|p]; intros H.
  - reflexivity.
  - apply of_Z_pos_small. lia.
  - apply of_Z_neg_small. lia.
Qed.

Lemma normalize_scaled (z k : Z) :
  small z -> 0 <= k ->
  binary_normalize prec emax (z * 2 ^ k) (- k) false = of_Z z.
Proof.
  intros Hz Hk. rewrite (of_Z_small z Hz). unfold small in Hz.
  assert (Hpow : 0 < 2 ^ k) by (apply Z.pow_pos_nonneg; lia).
  destruct z as [|p|p].
  - reflexivity.
  - assert (Hid : Zpos (Z.to_pos (Zpos p * 2 ^ k)) = Zpos p * 2 ^ k)
      by (apply Z2Pos.id; lia).
    rewrite <- Hid. cbn [binary_normalize].
    apply binary_round_scaled; [apply small_digits; lia | exact Hk | exact Hid].
  - assert (Hid : Zpos (Z.to_pos (Zpos p * 2 ^ k)) = Zpos p * 2 ^ k)
      by (apply Z2Pos.id; lia).
    replace (Zneg p * 2 ^ k) with (Zneg (Z.to_pos (Zpos p * 2 ^ k)))
      by (rewrite <- !Pos2Z.opp_pos, Hid; ring).
    cbn [binary_normalize].
    apply binary_round_scaled; [apply small_digits; lia | exact Hk | exact Hid].
Qed.

Lemma shl_align_fst (m : positive) (e e' : Z) :
  e' <= e -> Zpos (fst (shl_align m e e')) = Zpos m * 2 ^ (e - e').
Proof.
  intros H. unfold shl_align.
  destruct (e' - e) as [|q|q] eqn:E; cbn [fst]; try lia.
  - replace (e - e') with 0 by lia. lia.
  - rewrite iter_xO_Z. f_equal. f_equal. lia.
Qed.

Lemma add_canon (sa sb : bool) (pa pb : positive) :
  Zpos pa < 2 ^ 53 -> Zpos pb < 2 ^ 53 ->
  small (cond_Zopp sa (Zpos pa) + cond_Zopp sb (Zpos pb)) ->
  add (canon sa pa) (canon sb pb)
  = of_Z (cond_Zopp sa (Zpos pa) + cond_Zopp sb (Zpos pb)).
Proof.
  intros Ha Hb Hsum. apply small_digits in Ha, Hb.
  unfold add, SFadd, canon.
  set (da := Zpos (digits2_pos pa)) in *.
  set (db := Zpos (digits2_pos pb)) in *.
  assert (Hda : 1 <= da) by (subst da; lia).
  assert (Hdb : 1 <= db) by (subst db; lia).
  cbv zeta.
  rewrite !shl_align_fst by lia.
  fold da db. rewrite !canon_mantissa by assumption. fold da db.
  set (k := 53 - Z.min da db).
  assert (Hk : 0 <= k) by lia.
  replace (Z.min (da - 53) (db - 53)) with (- k) by lia.
  rewrite <- !Z.mul_assoc, <- !Z.pow_add_r by lia.
  replace (53 - da + (da - 53 - - k)) with k by lia.
  replace (53 - db + (db - 53 - - k)) with k by lia.
  replace (cond_Zopp sa (Zpos pa * 2 ^ k) + cond_Zopp sb (Zpos pb * 2 ^ k))
    with ((cond_Zopp sa (Zpos pa) + cond_Zopp sb (Zpos pb)) * 2 ^ k)
    by (destruct sa, sb; unfold cond_Zopp; ring).
  apply normalize_scaled; assumption.
Qed.

(** Adding two integers is exact while everything stays below 2^53. *)
Lemma add_exact (a b : Z) :
  small a -> small b -> small (a + b) -> add (of_Z a) (of_Z b) = of_Z (a + b).
Proof.
  intros Ha Hb Hsum. rewrite (of_Z_small a Ha), (of_Z_small b Hb).
  unfold small in Ha, Hb.
  destruct a as [|pa|pa], b as [|pb|pb].
  - reflexivity.
  - cbn [Z.add]. rewrite of_Z_pos_small by lia. reflexivity.
  - cbn [Z.add]. rewrite of_Z_neg_small by lia. reflexivity.
  - rewrite Z.add_0_r, of_Z_pos_small by lia. reflexivity.
  - apply (add_canon false false); [lia | lia | exact Hsum].
  - apply (add_canon false true); [lia | lia | exact Hsum].
  - rewrite Z.add_0_r, of_Z_neg_small by lia. reflexivity.
  - apply (add_canon true false); [lia | lia | exact Hsum].
  - apply (add_canon true true); [lia | lia | exact Hsum].
Qed.

Lemma compare_magnitudes (pa pb : positive) :
  Zpos pa < 2 ^ 53 -> Zpos pb < 2 ^ 53 ->
  match Zpos (digits2_pos pa) - 53 ?= Zpos (digits2_pos pb) - 53 with
  | Lt => Lt
  | Gt => Gt
  | Eq =>
      Pos.compare_cont Eq
        (Z.to_pos (Zpos pa * 2 ^ (53 - Zpos (digits2_pos pa))))
        (Z.to_pos (Zpos pb * 2 ^ (53 - Zpos (digits2_pos pb))))
  end = (pa ?= pb)%positive.
Proof.
  intros Ha Hb. apply small_digits in Ha, Hb.
  pose proof (digits2_pos_lower pa) as Hla.
  pose proof (digits2_pos_upper pa) as Hua.
  pose proof (digits2_pos_lower pb) as Hlb.
  pose proof (digits2_pos_upper pb) as Hub.
  change (pa ?= pb)%positive with (Zpos pa ?= Zpos pb).
  destruct (Z.compare_spec (Zpos (digits2_pos pa) - 53)
                           (Zpos (digits2_pos pb) - 53)) as [Heq | Hlt | Hgt].
  - change (Pos.compare_cont Eq) with Pos.compare.
    rewrite Pos2Z.inj_compare, !canon_mantissa by assumption.
    replace (Zpos (digits2_pos pb)) with (Zpos (digits2_pos pa)) by lia.
    symmetry. apply Zmult_compare_compat_r.
    apply Z.lt_gt, Z.pow_pos_nonneg; lia.
  - symmetry. apply Z.compare_lt_iff.
    assert (2 ^ Zpos (digits2_pos pa) <= 2 ^ (Zpos (digits2_pos pb) - 1))
      by (apply Z.pow_le_mono_r; lia).
    lia.
  - symmetry. apply Z.compare_gt_iff.
    assert (2 ^ Zpos (digits2_pos pb) <= 2 ^ (Zpos (digits2_pos pa) - 1))
      by (apply Z.pow_le_mono_r; lia).
    lia.
Qed.

(** Below 2^53 the order of numbers is the order of integers. *)
Lemma compare_of_Z (a b : Z) :
  small a -> small b -> SFcompare (of_Z a) (of_Z b) = Some (a ?= b).
Proof.
  intros Ha Hb. rewrite (of_Z_small a Ha), (of_Z_small b Hb).
  unfold small in Ha, Hb.
  destruct a as [|pa|pa], b as [|pb|pb]; try reflexivity.
  - unfold canon, SFcompare. rewrite compare_magnitudes by lia. reflexivity.
  - unfold canon, SFcompare.
    cbn [Z.compare]. rewrite <- (compare_magnitudes pa pb) by lia.
    destruct (_ ?= _); reflexivity.
Qed.

Lemma ltb_of_Z (a b : Z) :
  small a -> small b -> ltb (of_Z a) (of_Z b) = (a <? b).
Proof.
  intros Ha Hb. unfold ltb, SFltb, Z.ltb. rewrite compare_of_Z by assumption.
  destruct (a ?= b); reflexivity.
Qed.

Lemma leb_of_Z (a b : Z) :
  small a -> small b -> leb (of_Z a) (of_Z b) = (a <=? b).
Proof.
  intros Ha Hb. unfold leb, SFleb, Z.leb. rewrite compare_of_Z by assumption.
  destruct (a ?= b); reflexivity.
Qed.

Lemma eqb_of_Z (a b : Z) :
  small a -> small b -> eqb (of_Z a) (of_Z b) = (a =? b).
Proof.
  intros Ha Hb. unfold eqb, SFeqb. rewrite compare_of_Z by assumption.
  destruct (Z.compare_spec a b), (Z.eqb_spec a b); try reflexivity; lia.
Qed.

End ExactArithmetic.

(** * The grid as written *)

(** ** The map of populations *)

Section WrittenMap.

Import DynamicPopulationGrid.

Lemma written_key (lat lng : number) :
  getGridKey lat lng = Grid.getGridKey lat lng.
Proof. reflexivity. Qed.

Lemma written_get_set_same (key : Grid.Key) (v : number) (m : Populations) :
  map_get key (map_set key v m) = Some v.
Proof.
  induction m as [|[k w] rest IH]; cbn [map_set map_get].
  - rewrite key_eqb_refl. reflexivity.
  - destruct (Grid.key_eqb key k) eqn:E; cbn [map_get]; rewrite E; auto.
Qed.

Lemma written_get_set_other (key key' : Grid.Key) (v : number)
    (m : Populations) :
  Grid.key_eqb key key' = false ->
  map_get key (map_set key' v m) = map_get key m.
Proof.
  intros Hne. induction m as [|[k w] rest IH]; cbn [map_set map_get].
  - rewrite Hne. reflexivity.
  - destruct (Grid.key_eqb key' k) eqn:E; cbn [map_get].
    + apply key_eqb_eq in E. subst k. rewrite Hne. reflexivity.
    + destruct (Grid.key_eqb key k); auto.
Qed.

Lemma written_populations_addPerson (g : t) (lat lng count : number) :
  populations (fst (addPerson g lat lng count)) =
  map_set (getGridKey lat lng)
          (add (get_or_zero (getGridKey lat lng) (populations g)) count)
          (populations g).
Proof. reflexivity. Qed.

(** Reading a cell after [addPerson]: the sum is in the cell of the call,
    read through [|| 0], and every other cell is as it was. *)
Lemma written_getPopulation_addPerson (g : t) (lat lng lat' lng' count : number) :
  getPopulation (fst (addPerson g lat' lng' count)) lat lng =
  if sameCell lat' lng' lat lng
  then or_else (add (getPopulation g lat lng) count) zero
  else getPopulation g lat lng.
Proof.
  unfold getPopulation, sameCell. rewrite written_populations_addPerson.
  cbv zeta. rewrite !(written_key lat' lng'), !(written_key lat lng).
  destruct (Grid.key_eqb (Grid.getGridKey lat' lng') (Grid.getGridKey lat lng))
    eqn:E.
  - apply key_eqb_eq in E. rewrite E. unfold get_or_zero at 1.
    rewrite written_get_set_same. reflexivity.
  - unfold get_or_zero at 1.
    rewrite written_get_set_other by (rewrite key_eqb_sym; exact E).
    reflexivity.
Qed.

Lemma or_else_zero_twice (x : number) :
  or_else (or_else x zero) zero = or_else x zero.
Proof. destruct x as [[]|[]| |[] m e]; reflexivity. Qed.

Lemma written_getPopulation_read (g : t) (lat lng : number) :
  or_else (getPopulation g lat lng) zero = getPopulation g lat lng.
Proof.
  unfold getPopulation, get_or_zero. cbv zeta.
  destruct (map_get _ _); [apply or_else_zero_twice | reflexivity].
Qed.

Lemma written_map_set_keys (key : Grid.Key) (v : number) (m : Populations) :
  map fst (map_set key v m) =
  if existsb (Grid.key_eqb key) (map fst m)
  then map fst m else map fst m ++ [key].
Proof.
  induction m as [|[k w] rest IH]; [reflexivity|].
  cbn [map_set map fst existsb].
  destruct (Grid.key_eqb key k) eqn:E; cbn [orb map fst]; [reflexivity|].
  rewrite IH. destruct (existsb _ _); reflexivity.
Qed.

Lemma written_map_set_NoDup (key : Grid.Key) (v : number) (m : Populations) :
  NoDup (map fst m) -> NoDup (map fst (map_set key v m)).
Proof.
  intros H. rewrite written_map_set_keys.
  destruct (existsb (Grid.key_eqb key) (map fst m)) eqn:E; [assumption|].
  apply NoDup_app; [assumption | repeat constructor; intros [] | ].
  intros k Hin [Heq | []]. subst k.
  assert (existsb (Grid.key_eqb key) (map fst m) = true); [|congruence].
  apply existsb_exists. exists key. split; [assumption | apply key_eqb_refl].
Qed.

Lemma written_map_get_In (key : Grid.Key) (v : number) (m : Populations) :
  NoDup (map fst m) -> In (key, v) m -> map_get key m = Some v.
Proof.
  induction m as [|[k w] rest IH]; intros Hnd Hin; [contradiction|].
  cbn [map fst] in Hnd. inversion Hnd as [|? ? Hnotin Hnd']; subst.
  cbn [map_get]. destruct Hin as [Heq | Hin].
  - inversion Heq; subst. rewrite key_eqb_refl. reflexivity.
  - destruct (Grid.key_eqb key k) eqn:E; [|auto].
    apply key_eqb_eq in E; subst k. exfalso. apply Hnotin.
    change key with (fst (key, v)). apply in_map. assumption.
Qed.


(** A small integer read through [|| 0] is itself. *)
Lemma or_else_of_Z (z : Z) : small z -> or_else (of_Z z) zero = of_Z z.
Proof.
  intros H. rewrite (of_Z_small z H). destruct z; reflexivity.
Qed.

End WrittenMap.

(** ** Validation of added persons *)

(** C1, as the code has it.  The coordinates of an added person are checked
    by the caller [handleAddPerson], not by [addPerson]: when a coordinate is
    NaN, infinite or outside [-90, 90] (latitude), [-180, 180] (longitude),
    [handleAddPerson] returns without touching the grid; for coordinates in
    range it calls [addPerson] with the count 1, which takes a population
    [n] of the cell to [n + 1] while these are integers below 2^53.
    [addPerson] itself rejects nothing: whatever the coordinates and the
    count, it stores [current + count], the sum in binary64, in the cell and
    returns it; [getPopulation] then reads the stored number through
    [|| 0]. *)
Theorem handleAddPerson_validates :
  forall (g : DynamicPopulationGrid.t) (lat lng : number),
    ((is_finite lat = false \/ is_finite lng = false
      \/ ltb lat (of_Z (-90)) = true \/ gtb lat (of_Z 90) = true
      \/ ltb lng (of_Z (-180)) = true \/ gtb lng (of_Z 180) = true) ->
     DynamicRoadRouting.handleAddPerson g lat lng = g)
    /\ (leb (of_Z (-90)) lat = true /\ leb lat (of_Z 90) = true
        /\ leb (of_Z (-180)) lng = true /\ leb lng (of_Z 180) = true ->
        DynamicRoadRouting.handleAddPerson g lat lng
        = fst (DynamicPopulationGrid.addPerson g lat lng (of_Z 1))
        /\ DynamicPopulationGrid.getPopulation
             (DynamicRoadRouting.handleAddPerson g lat lng) lat lng
           = or_else
               (add (DynamicPopulationGrid.getPopulation g lat lng) (of_Z 1))
               zero
        /\ (forall n : Z,
              small n -> small (n + 1) ->
              DynamicPopulationGrid.getPopulation g lat lng = of_Z n ->
              DynamicPopulationGrid.getPopulation
                (DynamicRoadRouting.handleAddPerson g lat lng) lat lng
              = of_Z (n + 1)))
    /\ (forall count : number,
          snd (DynamicPopulationGrid.addPerson g lat lng count)
          = add (DynamicPopulationGrid.getPopulation g lat lng) count
          /\ DynamicPopulationGrid.map_get
               (DynamicPopulationGrid.getGridKey lat lng)
               (DynamicPopulationGrid.populations
                  (fst (DynamicPopulationGrid.addPerson g lat lng count)))
             = Some (add (DynamicPopulationGrid.getPopulation g lat lng) count)
          /\ DynamicPopulationGrid.getPopulation
               (fst (DynamicPopulationGrid.addPerson g lat lng count)) lat lng
             = or_else
                 (add (DynamicPopulationGrid.getPopulation g lat lng) count)
                 zero).
Proof.
  intros g lat lng.
  assert (Hread : forall count : number,
             DynamicPopulationGrid.getPopulation
               (fst (DynamicPopulationGrid.addPerson g lat lng count)) lat lng
             = or_else
                 (add (DynamicPopulationGrid.getPopulation g lat lng) count)
                 zero).
  { intros count. rewrite written_getPopulation_addPerson.
    unfold sameCell. rewrite key_eqb_refl. reflexivity. }
  split; [|split].
  - intros H. unfold DynamicRoadRouting.handleAddPerson.
    assert (Hinv : invalidCoordinates lat lng = true).
    { destruct H as [H | [H | H]].
      - apply not_finite_invalid; auto.
      - apply not_finite_invalid; auto.
      - unfold invalidCoordinates.
        destruct H as [H | [H | [H | H]]]; rewrite H;
          rewrite ?orb_true_r; reflexivity. }
    rewrite Hinv. reflexivity.
  - intros (H1 & H2 & H3 & H4). unfold DynamicRoadRouting.handleAddPerson.
    rewrite (in_range_valid _ _ H1 H2 H3 H4).
    split; [reflexivity|]. split; [apply Hread|].
    intros n Hn Hn1 Hpop. rewrite Hread, Hpop.
    rewrite add_exact by (assumption || (unfold small; cbn; lia)).
    apply or_else_of_Z, Hn1.
  - intros count. split; [reflexivity|]. split; [|apply Hread].
    rewrite written_populations_addPerson. apply written_get_set_same.
Qed.

Lemma handleAddPerson_validates_witness :
  DynamicRoadRouting.handleAddPerson DynamicPopulationGrid.new
    (of_Z 91) (of_Z 0)
  = DynamicPopulationGrid.new
  /\ DynamicPopulationGrid.getPopulation
       (DynamicRoadRouting.handleAddPerson DynamicPopulationGrid.new
          (decimal 231821 10000) (decimal 75789 1000))
       (decimal 231821 10000) (decimal 75789 1000) = of_Z 1.
Proof.
  split.
  - refine (proj1 (handleAddPerson_validates DynamicPopulationGrid.new
                     (of_Z 91) (of_Z 0)) _).
    right; right; right; left. vm_compute. reflexivity.
  - refine (proj2 (proj2 (proj1 (proj2 (handleAddPerson_validates
                                         DynamicPopulationGrid.new
                                         (decimal 231821 10000)
                                         (decimal 75789 1000))) _))
              0 _ _ _).
    + repeat split; vm_compute; reflexivity.
    + vm_compute. reflexivity.
    + vm_compute. reflexivity.
    + vm_compute. reflexivity.
Defined.

(** C1 does not hold of [addPerson] as stated: latitude 91 is out of range,
    yet [addPerson(91, 0, 1)] on a fresh grid makes a cell; and the counts
    -1, 0 and 2.5 are taken as they are. *)
Lemma addPerson_does_not_validate :
  gtb (of_Z 91) (of_Z 90) = true
  /\ DynamicPopulationGrid.populations
       (fst (DynamicPopulationGrid.addPerson DynamicPopulationGrid.new
               (of_Z 91) (of_Z 0) (of_Z 1)))
     = [ (DynamicPopulationGrid.getGridKey (of_Z 91) (of_Z 0), of_Z 1) ]
  /\ fst (DynamicPopulationGrid.addPerson DynamicPopulationGrid.new
            (of_Z 91) (of_Z 0) (of_Z 1))
     <> DynamicPopulationGrid.new
  /\ DynamicPopulationGrid.addPerson DynamicPopulationGrid.new
       (of_Z 1) (of_Z 2) (of_Z (-1))
     = ({| DynamicPopulationGrid.populations :=
             [ (DynamicPopulationGrid.getGridKey (of_Z 1) (of_Z 2),
                of_Z (-1)) ];
           DynamicPopulationGrid.crowdZones := [] |}, of_Z (-1))
  /\ DynamicPopulationGrid.addPerson DynamicPopulationGrid.new
       (of_Z 1) (of_Z 2) (of_Z 0)
     = ({| DynamicPopulationGrid.populations :=
             [ (DynamicPopulationGrid.getGridKey (of_Z 1) (of_Z 2), of_Z 0) ];
           DynamicPopulationGrid.crowdZones := [] |}, of_Z 0)
  /\ DynamicPopulationGrid.addPerson DynamicPopulationGrid.new
       (of_Z 1) (of_Z 2) (decimal 25 10)
     = ({| DynamicPopulationGrid.populations :=
             [ (DynamicPopulationGrid.getGridKey (of_Z 1) (of_Z 2),
                decimal 25 10) ];
           DynamicPopulationGrid.crowdZones := [] |}, decimal 25 10).
Proof.
  repeat split; try (vm_compute; reflexivity).
  vm_compute. discriminate.
Qed.

(** ** The number that [addPerson] returns *)

(** X18.  [addPerson] returns the number it stores in the cell: the
    population that [getPopulation] read before the call plus the count,
    added in binary64.  [getPopulation] at the same coordinates then reads
    that number through [|| 0]; both are the integer sum while population and
    count are integers and everything stays below 2^53.  At coordinates of
    any other cell the population is what it was. *)
Theorem addPerson_returns_new_population :
  forall (g : DynamicPopulationGrid.t) (lat lng count : number),
    let g' := fst (DynamicPopulationGrid.addPerson g lat lng count) in
    let returned := snd (DynamicPopulationGrid.addPerson g lat lng count) in
    returned = add (DynamicPopulationGrid.getPopulation g lat lng) count
    /\ DynamicPopulationGrid.getPopulation g' lat lng = or_else returned zero
    /\ (forall n c : Z,
          small n -> small c -> small (n + c) ->
          DynamicPopulationGrid.getPopulation g lat lng = of_Z n ->
          count = of_Z c ->
          returned = of_Z (n + c)
          /\ DynamicPopulationGrid.getPopulation g' lat lng = of_Z (n + c))
    /\ (forall lat' lng',
          sameCell lat lng lat' lng' = false ->
          DynamicPopulationGrid.getPopulation g' lat' lng'
          = DynamicPopulationGrid.getPopulation g lat' lng').
Proof.
  intros g lat lng count g' returned. subst g' returned.
  assert (Hread : DynamicPopulationGrid.getPopulation
                    (fst (DynamicPopulationGrid.addPerson g lat lng count))
                    lat lng
                  = or_else
                      (add (DynamicPopulationGrid.getPopulation g lat lng) count)
                      zero).
  { rewrite written_getPopulation_addPerson. unfold sameCell.
    rewrite key_eqb_refl. reflexivity. }
  split; [reflexivity|]. split; [exact Hread|]. split.
  - intros n c Hn Hc Hsum Hpop ->. rewrite Hread.
    change (snd (DynamicPopulationGrid.addPerson g lat lng (of_Z c)))
      with (add (DynamicPopulationGrid.getPopulation g lat lng) (of_Z c)).
    rewrite Hpop, add_exact by assumption.
    split; [reflexivity | apply or_else_of_Z, Hsum].
  - intros lat' lng' Hother. rewrite written_getPopulation_addPerson, Hother.
    reflexivity.
Qed.

(** ** Areas and crowd zones of the grid as written *)

Section WrittenZones.

Import DynamicPopulationGrid.


Lemma written_crowdZones_updateCrowdZones (g : t) :
  crowdZones (updateCrowdZones g) =
  map (AsWritten.zoneOfCell g) (filter AsWritten.crowded (populations g)).
Proof.
  unfold updateCrowdZones, getPopulatedAreas; cbn [crowdZones].
  induction (populations g) as [|[[klat klng] population] rest IH];
    [reflexivity|].
  cbn [flat_map filter]. unfold AsWritten.crowded at 1. cbn [snd].
  destruct (gtb population zero); cbn [andb].
  - cbn [app flat_map Area.population Area.lat Area.lng].
    rewrite IH. destruct (leb (of_Z 3) population); reflexivity.
  - cbn [app]. exact IH.
Qed.

Lemma zonesFollowCells_operate (g : t) (op : Operation) :
  AsWritten.zonesFollowCells g -> AsWritten.zonesFollowCells (operate g op).
Proof.
  intros [_ Hnd]. destruct op as [lat lng count|]; split.
  - unfold operate, addPerson; cbn [fst].
    rewrite written_crowdZones_updateCrowdZones. reflexivity.
  - unfold operate. rewrite written_populations_addPerson.
    apply written_map_set_NoDup; assumption.
  - reflexivity.
  - constructor.
Qed.

Lemma zonesFollowCells_operations (ops : list Operation) :
  AsWritten.zonesFollowCells (operations ops).
Proof.
  unfold operations.
  assert (H : AsWritten.zonesFollowCells new)
    by (split; [reflexivity | constructor]).
  revert H. generalize new.
  induction ops as [|op ops IH]; intros g H; [exact H|].
  cbn [fold_left]. apply IH, zonesFollowCells_operate, H.
Qed.

Lemma written_keys_NoDup (p : Grid.Key * number -> bool) (cells : Populations) :
  NoDup (map fst cells) -> NoDup (map fst (filter p cells)).
Proof.
  induction cells as [|cell cells IH]; intros H; [constructor|].
  cbn [map] in H. inversion H as [|? ? Hnotin Hnd]; subst.
  cbn [filter]. destruct (p cell); [|auto].
  cbn [map]. constructor; [|auto].
  intros Hin. apply Hnotin. apply in_map_iff in Hin.
  destruct Hin as (c & Hc & Hin). apply filter_In in Hin.
  rewrite <- Hc. apply in_map. tauto.
Qed.

Lemma positive_read (x : number) : gtb x zero = true -> or_else x zero = x.
Proof. destruct x as [[]|[]| |[] m e]; intros H; try reflexivity; discriminate. Qed.


End WrittenZones.


(** ** The weight of a zone is read at its centre *)

(** C4 at its failing input.  Three right-clicks at 35.1796, 129.0752 pass
    the guard of [handleAddPerson] and make one cell of population 3, whose
    key is (35.1795, 129.075).  The zone of the cell has the radius 0.001 and
    the population 3, but its weight is 1 and not the 5 of a population of 3:
    [updateCrowdZones] reads the weight with [getRoutingWeight] at the centre
    of the zone, [getGridKey] quantizes the centre again, and in binary64
    [floor(129.075 / 0.0005) * 0.0005] is 129.0745, the key of a cell that
    does not exist. *)
Lemma crowdZone_weight_of_another_cell :
  let lat := decimal 351796 10000 in
  let lng := decimal 1290752 10000 in
  let g := AsWritten.rightClicks 3 lat lng DynamicPopulationGrid.new in
  invalidCoordinates lat lng = false
  /\ DynamicPopulationGrid.populations g
     = [ ((decimal 351795 10000, decimal 129075 1000), of_Z 3) ]
  /\ DynamicPopulationGrid.crowdZones g
     = [ {| DynamicPopulationGrid.Zone.center :=
              (decimal 351795 10000, decimal 129075 1000);
            DynamicPopulationGrid.Zone.radius := decimal 1 1000;
            DynamicPopulationGrid.Zone.population := of_Z 3;
            DynamicPopulationGrid.Zone.weight := 1 |} ]
  /\ DynamicPopulationGrid.getPopulation g lat lng = of_Z 3
  /\ DynamicPopulationGrid.getRoutingWeight g lat lng = 5
  /\ AsWritten.weightOfPopulation (of_Z 3) = 5
  /\ DynamicPopulationGrid.getGridKey (decimal 351795 10000)
       (decimal 129075 1000)
     = (decimal 351795 10000, decimal 1290745 10000)
  /\ DynamicPopulationGrid.getPopulation g
       (decimal 351795 10000) (decimal 129075 1000) = zero.
Proof. vm_compute. repeat split; reflexivity. Qed.

(** ** Integer counts: the grid of integers is the grid as written *)

Section IntegerGrid.

Lemma embed_map_get (key : Grid.Key) (cells : Grid.PopMap) :
  DynamicPopulationGrid.map_get key (embedCells cells)
  = option_map of_Z (Grid.map_get key cells).
Proof.
  induction cells as [|[k v] rest IH]; [reflexivity|].
  cbn [embedCells map DynamicPopulationGrid.map_get Grid.map_get].
  destruct (Grid.key_eqb key k); [reflexivity | exact IH].
Qed.

Lemma embed_map_set (key : Grid.Key) (v : Z) (cells : Grid.PopMap) :
  DynamicPopulationGrid.map_set key (of_Z v) (embedCells cells)
  = embedCells (Grid.map_set key v cells).
Proof.
  induction cells as [|[k w] rest IH]; [reflexivity|].
  cbn [embedCells map DynamicPopulationGrid.map_set Grid.map_set].
  destruct (Grid.key_eqb key k); cbn [map]; [reflexivity|].
  f_equal. exact IH.
Qed.

Lemma get_or_zero_within (bound : Z) (key : Grid.Key) (g : Grid.t) :
  0 <= bound -> within bound g ->
  Z.abs (Grid.get_or_zero key (Grid.populations g)) <= bound.
Proof.
  intros Hb Hg. unfold Grid.get_or_zero.
  destruct (Grid.map_get key (Grid.populations g)) as [v|] eqn:E; [|lia].
  apply map_get_Some_In, Hg in E. destruct (v =? 0); lia.
Qed.

Lemma embed_get_or_zero (bound : Z) (key : Grid.Key) (g : Grid.t) :
  bound < 2 ^ 53 -> within bound g ->
  DynamicPopulationGrid.get_or_zero key (embedCells (Grid.populations g))
  = of_Z (Grid.get_or_zero key (Grid.populations g)).
Proof.
  intros Hb Hg. unfold DynamicPopulationGrid.get_or_zero, Grid.get_or_zero.
  rewrite embed_map_get.
  destruct (Grid.map_get key (Grid.populations g)) as [v|] eqn:E;
    [|reflexivity].
  cbn [option_map]. apply map_get_Some_In, Hg in E.
  destruct (Z.eqb_spec v 0) as [-> | Hv]; [reflexivity|].
  apply or_else_of_Z. unfold small. lia.
Qed.

Lemma embed_getPopulation (bound : Z) (g : Grid.t) (lat lng : number) :
  bound < 2 ^ 53 -> within bound g ->
  DynamicPopulationGrid.getPopulation (embed g) lat lng
  = of_Z (Grid.getPopulation g lat lng).
Proof.
  intros Hb Hg. exact (embed_get_or_zero bound _ g Hb Hg).
Qed.

Lemma embed_getRoutingWeight (bound : Z) (g : Grid.t) (lat lng : number) :
  0 <= bound < 2 ^ 53 -> within bound g ->
  DynamicPopulationGrid.getRoutingWeight (embed g) lat lng
  = Grid.getRoutingWeight g lat lng.
Proof.
  intros Hb Hg.
  unfold DynamicPopulationGrid.getRoutingWeight, Grid.getRoutingWeight.
  cbv zeta. rewrite (embed_getPopulation bound) by (assumption || lia).
  assert (Hsmall : small (Grid.getPopulation g lat lng)).
  { pose proof (get_or_zero_within bound (Grid.getGridKey lat lng) g
                  (proj1 Hb) Hg) as H.
    unfold small, Grid.getPopulation. lia. }
  change zero with (of_Z 0).
  rewrite eqb_of_Z, !ltb_of_Z by (assumption || (unfold small; cbn; lia)).
  reflexivity.
Qed.

Lemma embed_zones (bound : Z) (g : Grid.t) (cells : Grid.PopMap) :
  0 <= bound < 2 ^ 53 -> within bound g ->
  (forall key population, In (key, population) cells ->
                          Z.abs population <= bound) ->
  map (AsWritten.zoneOfCell (embed g))
      (filter AsWritten.crowded (embedCells cells))
  = map embedZone (map (zoneOfCell g) (filter crowded cells)).
Proof.
  intros Hb Hg. induction cells as [|[key population] rest IH]; intros Hcells;
    [reflexivity|].
  assert (Hsmall : small population).
  { specialize (Hcells key population (or_introl eq_refl)). unfold small. lia. }
  cbn [embedCells map filter].
  unfold AsWritten.crowded at 1, crowded at 1, gtb. cbn [snd].
  change zero with (of_Z 0).
  rewrite ltb_of_Z, leb_of_Z by (assumption || (unfold small; cbn; lia)).
  assert (Hrest : map (AsWritten.zoneOfCell (embed g))
                      (filter AsWritten.crowded (embedCells rest))
                  = map embedZone (map (zoneOfCell g) (filter crowded rest))).
  { apply IH. intros k p Hin. apply (Hcells k p). right; exact Hin. }
  destruct (Z.ltb_spec 0 population), (Z.leb_spec 3 population);
    cbn [andb map]; try exact Hrest; try lia.
  f_equal; [|exact Hrest].
  unfold AsWritten.zoneOfCell, embedZone, zoneOfCell.
  cbn [fst snd Zone.center Zone.radius Zone.population Zone.weight].
  rewrite (embed_getRoutingWeight bound) by assumption. reflexivity.
Qed.

Lemma embed_updateCrowdZones (bound : Z) (g : Grid.t) :
  0 <= bound < 2 ^ 53 -> within bound g ->
  DynamicPopulationGrid.updateCrowdZones (embed g)
  = embed (Grid.updateCrowdZones g).
Proof.
  intros Hb Hg.
  assert (Hzones : DynamicPopulationGrid.crowdZones
                     (DynamicPopulationGrid.updateCrowdZones (embed g))
                   = map embedZone (Grid.crowdZones (Grid.updateCrowdZones g))).
  { rewrite written_crowdZones_updateCrowdZones, crowdZones_updateCrowdZones.
    apply (embed_zones bound); assumption. }
  unfold embed at 2. rewrite <- Hzones. reflexivity.
Qed.

Lemma within_addPerson (bound : Z) (g : Grid.t) (lat lng : number) (count : Z) :
  0 <= bound -> within bound g ->
  within (bound + Z.abs count) (fst (Grid.addPerson g lat lng count)).
Proof.
  intros Hb Hg key population. rewrite populations_addPerson. intros Hin.
  apply map_set_In in Hin. destruct Hin as [-> | Hin].
  - pose proof (get_or_zero_within bound (Grid.getGridKey lat lng) g Hb Hg).
    lia.
  - specialize (Hg key population Hin). lia.
Qed.

(** One call with an integer count, while the populations stay below 2^53. *)
Lemma embed_addPerson (bound : Z) (g : Grid.t) (lat lng : number) (count : Z) :
  0 <= bound -> within bound g -> bound + Z.abs count < 2 ^ 53 ->
  DynamicPopulationGrid.addPerson (embed g) lat lng (of_Z count)
  = (embed (fst (Grid.addPerson g lat lng count)),
     of_Z (snd (Grid.addPerson g lat lng count))).
Proof.
  intros Hb Hg Hsum.
  pose proof (get_or_zero_within bound (Grid.getGridKey lat lng) g Hb Hg)
    as Hcur.
  assert (Hadd : add (DynamicPopulationGrid.get_or_zero
                        (DynamicPopulationGrid.getGridKey lat lng)
                        (DynamicPopulationGrid.populations (embed g)))
                     (of_Z count)
                 = of_Z (Grid.get_or_zero (Grid.getGridKey lat lng)
                           (Grid.populations g) + count)).
  { rewrite written_key. cbn [embed DynamicPopulationGrid.populations].
    rewrite (embed_get_or_zero bound) by (assumption || lia).
    apply add_exact; unfold small; lia. }
  unfold DynamicPopulationGrid.addPerson, Grid.addPerson. cbv zeta.
  rewrite Hadd. cbn [fst snd]. f_equal.
  rewrite written_key. cbn [embed DynamicPopulationGrid.populations
                             DynamicPopulationGrid.crowdZones].
  rewrite embed_map_set.
  apply (embed_updateCrowdZones (bound + Z.abs count)
           {| Grid.populations :=
                Grid.map_set (Grid.getGridKey lat lng)
                  (Grid.get_or_zero (Grid.getGridKey lat lng)
                     (Grid.populations g) + count)
                  (Grid.populations g);
              Grid.crowdZones := Grid.crowdZones g |}); [lia|].
  exact (within_addPerson bound g lat lng count Hb Hg).
Qed.

Lemma mutationsSize_nonneg (ms : list Mutation) : 0 <= mutationsSize ms.
Proof.
  induction ms as [|m ms IH]; [cbn; lia|].
  destruct m as [lat lng count|]; cbn [mutationsSize fold_right];
    fold (mutationsSize ms); lia.
Qed.

Lemma countsSize_nonneg (calls : list Call) : 0 <= countsSize calls.
Proof.
  induction calls as [|[[lat lng] count] calls IH]; [cbn; lia|].
  cbn [countsSize fold_right]. fold (countsSize calls). lia.
Qed.

Lemma embed_mutations (ms : list Mutation) :
  forall (bound : Z) (g : Grid.t),
    0 <= bound -> within bound g -> bound + mutationsSize ms < 2 ^ 53 ->
    fold_left operate (map asOperation ms) (embed g)
    = embed (fold_left mutate ms g).
Proof.
  induction ms as [|m ms IH]; intros bound g Hb Hg Hsum; [reflexivity|].
  pose proof (mutationsSize_nonneg ms) as Hms.
  destruct m as [lat lng count|];
    cbn [map fold_left asOperation operate mutate];
    cbn [mutationsSize fold_right] in Hsum; fold (mutationsSize ms) in Hsum.
  - rewrite (embed_addPerson bound) by (assumption || lia). cbn [fst].
    apply (IH (bound + Z.abs count)); [lia | | lia].
    apply within_addPerson; assumption.
  - change (DynamicPopulationGrid.clearAll (embed g))
      with (embed (Grid.clearAll g)).
    apply (IH bound); [exact Hb | intros key population [] | exact Hsum].
Qed.

Lemma embed_addPeople (calls : list Call) :
  forall (bound : Z) (g : Grid.t),
    0 <= bound -> within bound g -> bound + countsSize calls < 2 ^ 53 ->
    addPersons (map callNumbers calls) (embed g) = embed (addPeople calls g).
Proof.
  induction calls as [|[[lat lng] count] calls IH]; intros bound g Hb Hg Hsum;
    [reflexivity|].
  unfold addPersons, addPeople. cbn [map fold_left callNumbers].
  cbn [countsSize fold_right] in Hsum. fold (countsSize calls) in Hsum.
  pose proof (countsSize_nonneg calls) as Hcalls.
  rewrite (embed_addPerson bound) by (assumption || lia). cbn [fst].
  apply (IH (bound + Z.abs count)); [lia | | lia].
  apply within_addPerson; assumption.
Qed.

End IntegerGrid.

(** As long as the counts are integers whose absolute values add up to less
    than 2^53, the grid as written is the grid of integers: the same cells in
    the same order, each population the number of the integer, and the same
    zones. *)
Theorem integer_grid_is_exact :
  forall ms : list Mutation,
    mutationsSize ms < 2 ^ 53 ->
    operations (map asOperation ms) = embed (mutations ms).
Proof.
  intros ms Hsize. unfold operations, mutations.
  change DynamicPopulationGrid.new with (embed Grid.new).
  apply (embed_mutations ms 0); [lia | intros key population [] | lia].
Qed.

Lemma integer_grid_is_exact_witness :
  operations [AddPersonOp (of_Z 1) (of_Z 2) (of_Z 5)]
  = embed (mutations [AddPerson (of_Z 1) (of_Z 2) 5]).
Proof.
  refine (integer_grid_is_exact [AddPerson (of_Z 1) (of_Z 2) 5] _).
  vm_compute. reflexivity.
Defined.

(** ** Sequences of [addPerson] calls on the grid as written *)

Section WrittenSums.

Import DynamicPopulationGrid.

Variables lat lng : number.

Lemma running_read (calls : list NumberCall) :
  forall x : number,
    or_else
      (fold_left
         (fun current '(lat', lng', count) =>
            if sameCell lat' lng' lat lng
            then add (or_else current zero) count
            else current)
         calls x) zero
    = or_else
        (fold_left
           (fun current '(lat', lng', count) =>
              if sameCell lat' lng' lat lng
              then add (or_else current zero) count
              else current)
           calls (or_else x zero)) zero.
Proof.
  induction calls as [|[[lat' lng'] count] rest IH]; intros x;
    cbn [fold_left].
  - rewrite or_else_zero_twice. reflexivity.
  - destruct (sameCell lat' lng' lat lng).
    + rewrite or_else_zero_twice. reflexivity.
    + apply IH.
Qed.

Lemma written_getPopulation_addPersons (calls : list NumberCall) :
  forall g : t,
    getPopulation (addPersons calls g) lat lng
    = or_else
        (fold_left
           (fun current '(lat', lng', count) =>
              if sameCell lat' lng' lat lng
              then add (or_else current zero) count
              else current)
           calls (getPopulation g lat lng)) zero.
Proof.
  induction calls as [|[[lat' lng'] count] rest IH]; intros g.
  - cbn [addPersons fold_left]. rewrite written_getPopulation_read.
    reflexivity.
  - unfold addPersons. cbn [fold_left].
    fold (addPersons rest (fst (addPerson g lat' lng' count))).
    rewrite IH, written_getPopulation_addPerson.
    destruct (sameCell lat' lng' lat lng).
    + rewrite <- running_read, written_getPopulation_read. reflexivity.
    + reflexivity.
Qed.

Lemma running_untouched (calls : list NumberCall) :
  (forall lat' lng' count,
      In (lat', lng', count) calls -> sameCell lat' lng' lat lng = false) ->
  forall x : number,
    fold_left
      (fun current '(lat', lng', count) =>
         if sameCell lat' lng' lat lng
         then add (or_else current zero) count
         else current)
      calls x = x.
Proof.
  induction calls as [|[[lat' lng'] count] rest IH]; intros H x;
    [reflexivity|].
  cbn [fold_left]. rewrite (H lat' lng' count) by (left; reflexivity).
  apply IH. intros lat'' lng'' count' Hin. apply (H lat'' lng'' count').
  right; exact Hin.
Qed.

Lemma within_addPeople (calls : list Call) :
  forall (bound : Z) (g : Grid.t),
    0 <= bound -> within bound g ->
    within (bound + countsSize calls) (addPeople calls g).
Proof.
  induction calls as [|[[lat' lng'] count] rest IH]; intros bound g Hb Hg.
  - cbn [countsSize fold_right addPeople fold_left].
    intros key population Hin. specialize (Hg key population Hin). lia.
  - unfold addPeople. cbn [fold_left countsSize fold_right].
    fold (countsSize rest).
    fold (addPeople rest (fst (Grid.addPerson g lat' lng' count))).
    replace (bound + (Z.abs count + countsSize rest))
      with (bound + Z.abs count + countsSize rest) by lia.
    apply IH; [lia | apply within_addPerson; assumption].
Qed.

(** With integer counts that add up to less than 2^53 in absolute value,
    the population is the number of the integer sum. *)
Lemma exact_population (calls : list Call) :
  countsSize calls < 2 ^ 53 ->
  getPopulation (addPersons (map callNumbers calls) new) lat lng
  = of_Z (countsAdded calls lat lng).
Proof.
  intros Hsize. change new with (embed Grid.new).
  assert (Hnew : within 0 Grid.new) by (intros key population []).
  rewrite (embed_addPeople calls 0) by (assumption || lia).
  rewrite (embed_getPopulation (0 + countsSize calls))
    by (lia || (apply within_addPeople; [lia | exact Hnew])).
  rewrite getPopulation_addPeople. reflexivity.
Qed.

End WrittenSums.

Lemma countsSize_Permutation (calls calls' : list Call) :
  Permutation calls calls' -> countsSize calls = countsSize calls'.
Proof.
  induction 1 as [|[[lat lng] count] l l' _ IH
                  |[[lat1 lng1] count1] [[lat2 lng2] count2] l
                  |l l' l'' _ IH1 _ IH2].
  - reflexivity.
  - cbn [countsSize fold_right]. fold (countsSize l) (countsSize l'). lia.
  - cbn [countsSize fold_right]. fold (countsSize l). lia.
  - congruence.
Qed.

(** C2, as the code has it.  On a fresh grid, after any sequence of
    [addPerson] calls, [getPopulation(lat, lng)] reads, through [|| 0], what
    the calls whose coordinates quantize to the cell of [(lat, lng)] have
    added up in binary64, from left to right; the key of a cell is
    [floor(coord / 0.0005) * 0.0005] on each coordinate.  It is that sum
    exactly, as an integer, when the counts are integers whose absolute
    values add up to less than 2^53, and it is 0 for a cell that no call
    touched.  [addPerson] returns the new population of its cell, the
    population before plus the count in binary64. *)
Theorem getPopulation_sums_counts :
  forall (calls : list NumberCall) (lat lng : number),
    let g := addPersons calls DynamicPopulationGrid.new in
    DynamicPopulationGrid.getGridKey lat lng =
      (through_string (mul (floor (div lat (decimal 5 10000))) (decimal 5 10000)),
       through_string (mul (floor (div lng (decimal 5 10000))) (decimal 5 10000)))
    /\ DynamicPopulationGrid.getPopulation g lat lng
       = or_else (runningTotal calls lat lng) zero
    /\ (forall integers : list Call,
          calls = map callNumbers integers ->
          countsSize integers < 2 ^ 53 ->
          DynamicPopulationGrid.getPopulation g lat lng
          = of_Z (countsAdded integers lat lng))
    /\ ((forall lat' lng' count,
            In (lat', lng', count) calls -> sameCell lat' lng' lat lng = false) ->
        DynamicPopulationGrid.getPopulation g lat lng = zero)
    /\ (forall count : number,
          snd (DynamicPopulationGrid.addPerson g lat lng count)
          = add (DynamicPopulationGrid.getPopulation g lat lng) count
          /\ DynamicPopulationGrid.getPopulation
               (fst (DynamicPopulationGrid.addPerson g lat lng count)) lat lng
             = or_else (snd (DynamicPopulationGrid.addPerson g lat lng count))
                       zero).
Proof.
  intros calls lat lng g. subst g. split; [reflexivity|].
  assert (Hsum : DynamicPopulationGrid.getPopulation
                   (addPersons calls DynamicPopulationGrid.new) lat lng
                 = or_else (runningTotal calls lat lng) zero).
  { rewrite written_getPopulation_addPersons. reflexivity. }
  split; [exact Hsum|]. split; [|split].
  - intros integers -> Hsize. apply exact_population, Hsize.
  - intros H. rewrite Hsum. unfold runningTotal.
    rewrite running_untouched by exact H. reflexivity.
  - intros count. split; [reflexivity|].
    rewrite written_getPopulation_addPerson. unfold sameCell.
    rewrite key_eqb_refl. reflexivity.
Qed.

(** C2 as stated fails once a sum passes 2^53: after [addPerson(1, 2, 2^53)],
    [addPerson(1, 2, 1)] and [addPerson(1, 2, 1)] the population of the cell
    is 2^53, and not the sum of the counts, 2^53 + 2, which is a number
    too. *)
Lemma getPopulation_sum_is_rounded :
  let calls : list NumberCall :=
    [ (of_Z 1, of_Z 2, of_Z (2 ^ 53)); (of_Z 1, of_Z 2, of_Z 1);
      (of_Z 1, of_Z 2, of_Z 1) ] in
  DynamicPopulationGrid.getPopulation
    (addPersons calls DynamicPopulationGrid.new) (of_Z 1) (of_Z 2)
  = of_Z (2 ^ 53)
  /\ eqb (of_Z (2 ^ 53)) (of_Z (2 ^ 53 + 1 + 1)) = false
  /\ of_Z (2 ^ 53) <> of_Z (2 ^ 53 + 1 + 1).
Proof.
  vm_compute. repeat split; try reflexivity. discriminate.
Qed.

(** ** Adding persons in any order *)

(** X2.  With integer counts whose absolute values add up to less than 2^53,
    the order of the [addPerson] calls does not matter: two sequences of
    calls that are permutations of each other give the same population and
    the same routing weight at every coordinate. *)
Theorem addPerson_order_irrelevant :
  forall (calls calls' : list Call),
    Permutation calls calls' ->
    countsSize calls < 2 ^ 53 ->
    forall lat lng : number,
      DynamicPopulationGrid.getPopulation
        (addPersons (map callNumbers calls) DynamicPopulationGrid.new) lat lng
      = DynamicPopulationGrid.getPopulation
          (addPersons (map callNumbers calls') DynamicPopulationGrid.new)
          lat lng
      /\ DynamicPopulationGrid.getRoutingWeight
           (addPersons (map callNumbers calls) DynamicPopulationGrid.new)
           lat lng
         = DynamicPopulationGrid.getRoutingWeight
             (addPersons (map callNumbers calls') DynamicPopulationGrid.new)
             lat lng.
Proof.
  intros calls calls' Hperm Hsize lat lng.
  assert (Hpop : DynamicPopulationGrid.getPopulation
                   (addPersons (map callNumbers calls)
                      DynamicPopulationGrid.new) lat lng
                 = DynamicPopulationGrid.getPopulation
                     (addPersons (map callNumbers calls')
                        DynamicPopulationGrid.new) lat lng).
  { rewrite !exact_population
      by (rewrite <- ?(countsSize_Permutation calls calls' Hperm); exact Hsize).
    f_equal. apply countsAdded_Permutation, Hperm. }
  split; [exact Hpop|].
  unfold DynamicPopulationGrid.getRoutingWeight. cbv zeta.
  rewrite Hpop. reflexivity.
Qed.

Lemma addPerson_order_irrelevant_witness :
  DynamicPopulationGrid.getPopulation
    (addPersons (map callNumbers [ (of_Z 1, of_Z 2, 5); (of_Z 1, of_Z 2, -3) ])
       DynamicPopulationGrid.new) (of_Z 1) (of_Z 2)
  = DynamicPopulationGrid.getPopulation
      (addPersons (map callNumbers [ (of_Z 1, of_Z 2, -3); (of_Z 1, of_Z 2, 5) ])
         DynamicPopulationGrid.new) (of_Z 1) (of_Z 2).
Proof.
  refine (proj1 (addPerson_order_irrelevant
                   [ (of_Z 1, of_Z 2, 5); (of_Z 1, of_Z 2, -3) ]
                   [ (of_Z 1, of_Z 2, -3); (of_Z 1, of_Z 2, 5) ]
                   (perm_swap _ _ _) _ (of_Z 1) (of_Z 2))).
  vm_compute. reflexivity.
Defined.

(** Past 2^53 the order does matter: the counts 2^53, 1, 1 leave 2^53 in the
    cell, and the counts 1, 1, 2^53 leave 2^53 + 2. *)
Lemma addPerson_order_matters_when_rounding :
  DynamicPopulationGrid.getPopulation
    (addPersons [ (of_Z 1, of_Z 2, of_Z (2 ^ 53)); (of_Z 1, of_Z 2, of_Z 1);
                  (of_Z 1, of_Z 2, of_Z 1) ] DynamicPopulationGrid.new)
    (of_Z 1) (of_Z 2) = of_Z (2 ^ 53)
  /\ DynamicPopulationGrid.getPopulation
       (addPersons [ (of_Z 1, of_Z 2, of_Z 1); (of_Z 1, of_Z 2, of_Z 1);
                     (of_Z 1, of_Z 2, of_Z (2 ^ 53)) ]
          DynamicPopulationGrid.new)
       (of_Z 1) (of_Z 2) = of_Z (2 ^ 53 + 2)
  /\ of_Z (2 ^ 53) <> of_Z (2 ^ 53 + 2).
Proof.
  vm_compute. repeat split; try reflexivity. discriminate.
Qed.

(** ** Right-clicks at one place *)

Section RightClicks.

Import DynamicPopulationGrid.

Variables lat lng : number.
Hypothesis valid : invalidCoordinates lat lng = false.

Lemma written_rightClicks_S (n : nat) (g : t) :
  AsWritten.rightClicks (S n) lat lng g
  = fst (addPerson (AsWritten.rightClicks n lat lng g) lat lng (of_Z 1)).
Proof.
  change (AsWritten.rightClicks (S n) lat lng g)
    with (DynamicRoadRouting.handleAddPerson
            (AsWritten.rightClicks n lat lng g) lat lng).
  unfold DynamicRoadRouting.handleAddPerson. rewrite valid. reflexivity.
Qed.

Lemma written_rightClicks_populations (n : nat) :
  Z.of_nat (S n) < 2 ^ 53 ->
  populations (AsWritten.rightClicks (S n) lat lng new)
  = [ (getGridKey lat lng, of_Z (Z.of_nat (S n))) ].
Proof.
  induction n as [|n IH]; intros Hsmall;
    rewrite written_rightClicks_S, written_populations_addPerson.
  - reflexivity.
  - rewrite IH by lia. unfold get_or_zero. cbn [map_get map_set].
    rewrite key_eqb_refl.
    rewrite or_else_of_Z, add_exact by (unfold small; lia).
    do 3 f_equal. lia.
Qed.

End RightClicks.

(** X4.  From a fresh grid, [n] right-clicks at the same valid coordinates,
    for [n] below 2^53, give the cell a population of [n]; there is no crowd
    zone before the third click, and from the third click on there is exactly
    one, centred on the cell, with that population and the radius
    [max(0.001, n * 0.0003)]. *)
Theorem rightClicks_make_a_zone :
  forall (n : nat) (lat lng : number),
    invalidCoordinates lat lng = false ->
    Z.of_nat n < 2 ^ 53 ->
    let g := AsWritten.rightClicks n lat lng DynamicPopulationGrid.new in
    DynamicPopulationGrid.getPopulation g lat lng = of_Z (Z.of_nat n)
    /\ ((n < 3)%nat -> DynamicPopulationGrid.crowdZones g = [])
    /\ ((3 <= n)%nat ->
        exists weight,
          DynamicPopulationGrid.crowdZones g
          = [ {| DynamicPopulationGrid.Zone.center :=
                   DynamicPopulationGrid.getGridKey lat lng;
                 DynamicPopulationGrid.Zone.radius :=
                   Number.max (decimal 1 1000)
                     (mul (of_Z (Z.of_nat n)) (decimal 3 10000));
                 DynamicPopulationGrid.Zone.population := of_Z (Z.of_nat n);
                 DynamicPopulationGrid.Zone.weight := weight |} ]).
Proof.
  intros n lat lng Hvalid Hsmall g.
  destruct n as [|n].
  - split; [reflexivity|]. split; [reflexivity | lia].
  - assert (Hpop : DynamicPopulationGrid.populations g
                   = [ (DynamicPopulationGrid.getGridKey lat lng,
                        of_Z (Z.of_nat (S n))) ])
      by (apply written_rightClicks_populations; assumption).
    assert (Hzones : DynamicPopulationGrid.crowdZones g
                     = map (AsWritten.zoneOfCell g)
                         (filter AsWritten.crowded
                            (DynamicPopulationGrid.populations g))).
    { subst g. rewrite written_rightClicks_S by exact Hvalid.
      unfold DynamicPopulationGrid.addPerson. cbn [fst].
      rewrite written_crowdZones_updateCrowdZones. reflexivity. }
    rewrite Hzones, Hpop. cbn [filter].
    unfold AsWritten.crowded, gtb. cbn [snd]. change zero with (of_Z 0).
    rewrite ltb_of_Z, leb_of_Z by (unfold small; cbn; lia).
    split; [|split].
    + unfold DynamicPopulationGrid.getPopulation. cbv zeta. rewrite Hpop.
      unfold DynamicPopulationGrid.get_or_zero.
      cbn [DynamicPopulationGrid.map_get]. rewrite key_eqb_refl.
      apply or_else_of_Z. unfold small. lia.
    + intros Hlt. destruct (Z.ltb_spec 0 (Z.of_nat (S n))); [|lia].
      destruct (Z.leb_spec 3 (Z.of_nat (S n))); [lia | reflexivity].
    + intros Hge. destruct (Z.ltb_spec 0 (Z.of_nat (S n))); [|lia].
      destruct (Z.leb_spec 3 (Z.of_nat (S n))); [|lia].
      eexists. reflexivity.
Qed.

Lemma rightClicks_make_a_zone_witness :
  DynamicPopulationGrid.getPopulation
    (AsWritten.rightClicks 3 (decimal 231821 10000) (decimal 75789 1000)
       DynamicPopulationGrid.new)
    (decimal 231821 10000) (decimal 75789 1000) = of_Z 3.
Proof.
  refine (proj1 (rightClicks_make_a_zone
                   3 (decimal 231821 10000) (decimal 75789 1000) _ _)).
  - vm_compute. reflexivity.
  - vm_compute. reflexivity.
Defined.

(** ** What holds of the crowd zones of the grid as written *)

(** After every sequence of [addPerson] and [clearAll] calls the crowd zones
    are made from the cells whose population is above 0 and at least 3, one
    zone per cell and in the order of the cells: the centre of the zone is
    the key of the cell, its population is the population of the cell, its
    radius is [max(0.001, population * 0.0003)], and its weight is
    [getRoutingWeight] at the centre, which is the weight of the population
    of the cell whenever the centre quantizes to the key of the cell.
    [clearAll] empties cells and zones, and doing it twice changes nothing
    more. *)
Theorem crowdZones_follow_cells :
  forall ops : list Operation,
    let g := operations ops in
    DynamicPopulationGrid.crowdZones g
      = map (AsWritten.zoneOfCell g)
          (filter AsWritten.crowded (DynamicPopulationGrid.populations g))
    /\ NoDup (map fst (DynamicPopulationGrid.populations g))
    /\ NoDup (map DynamicPopulationGrid.Zone.center
                (DynamicPopulationGrid.crowdZones g))
    /\ (forall z : DynamicPopulationGrid.Zone.t,
          In z (DynamicPopulationGrid.crowdZones g) <->
          exists (key : Grid.Key) (population : number),
            In (key, population) (DynamicPopulationGrid.populations g)
            /\ gtb population zero = true
            /\ leb (of_Z 3) population = true
            /\ DynamicPopulationGrid.Zone.center z = key
            /\ DynamicPopulationGrid.Zone.radius z
               = Number.max (decimal 1 1000)
                   (mul population (decimal 3 10000))
            /\ DynamicPopulationGrid.Zone.population z = population
            /\ DynamicPopulationGrid.Zone.weight z
               = DynamicPopulationGrid.getRoutingWeight g (fst key) (snd key)
            /\ (DynamicPopulationGrid.getGridKey (fst key) (snd key) = key ->
                DynamicPopulationGrid.Zone.weight z
                = AsWritten.weightOfPopulation population))
    /\ DynamicPopulationGrid.clearAll g = DynamicPopulationGrid.new
    /\ DynamicPopulationGrid.clearAll (DynamicPopulationGrid.clearAll g)
       = DynamicPopulationGrid.clearAll g
    /\ operations (ops ++ [ClearAllOp]) = DynamicPopulationGrid.new.
Proof.
  intros ops g.
  destruct (zonesFollowCells_operations ops) as [Hzones Hnd].
  fold g in Hzones, Hnd.
  split; [exact Hzones|]. split; [exact Hnd|]. split; [|split].
  - rewrite Hzones, map_map.
    change (fun x => DynamicPopulationGrid.Zone.center
                       (AsWritten.zoneOfCell g x))
      with (@fst Grid.Key number).
    apply written_keys_NoDup, Hnd.
  - intros z. rewrite Hzones, in_map_iff. split.
    + intros ([key population] & Hz & Hin). apply filter_In in Hin.
      destruct Hin as [Hin Hbig]. unfold AsWritten.crowded in Hbig.
      cbn [snd] in Hbig. apply andb_true_iff in Hbig.
      destruct Hbig as [Hpos Hbig].
      exists key, population. subst z.
      cbn [AsWritten.zoneOfCell DynamicPopulationGrid.Zone.center
           DynamicPopulationGrid.Zone.radius
           DynamicPopulationGrid.Zone.population
           DynamicPopulationGrid.Zone.weight fst snd].
      repeat split; try assumption; try reflexivity.
      intros Hown.
      unfold DynamicPopulationGrid.getRoutingWeight,
             DynamicPopulationGrid.getPopulation. cbv zeta.
      rewrite Hown. unfold DynamicPopulationGrid.get_or_zero.
      rewrite (written_map_get_In _ _ _ Hnd Hin), positive_read by exact Hpos.
      reflexivity.
    + intros (key & population & Hin & Hpos & Hbig & Hc & Hr & Hp & Hw & _).
      exists (key, population). split.
      * destruct z as [c r p w].
        cbn [DynamicPopulationGrid.Zone.center DynamicPopulationGrid.Zone.radius
             DynamicPopulationGrid.Zone.population
             DynamicPopulationGrid.Zone.weight] in *.
        subst. reflexivity.
      * apply filter_In. split; [assumption|].
        unfold AsWritten.crowded. cbn [snd]. rewrite Hpos, Hbig. reflexivity.
  - split; [reflexivity|]. split; [reflexivity|].
    unfold operations. rewrite fold_left_app. reflexivity.
Qed.
